(** * StagPy: the lazy time-step / snapshot access layer

    A shallow embedding of [stagpy/stagyydata.py]: the sparse
    isnap -> istep index ([_Indexes]), geometry classification
    ([_Geometry]), the per-step field cache ([_Fields]) and the two
    registries ([_Steps], [_Snaps]), followed by the properties of the
    design document that concern them.

    Conventions.
    - Python [int] is [Z]; a finite Python [float] is the rational it
      denotes ([Q]), which is exact for the comparisons the code makes.
    - A Python exception is a value of [exc]; a call that may raise
      returns a [result].
    - Objects whose identity matters (steps, generators) live in a
      store and are denoted by their address. *)

From Stdlib Require Import ZArith QArith Lia Ascii String.
From stdpp Require Import base list sorting gmap strings pretty.

Local Open Scope Z_scope.

(** ** Python values and exceptions *)

Inductive exc : Type :=
| ValueError (msg : string)
| TypeError
| IndexError
| KeyError
| OverflowError
| AttributeError
| RecursionError
| SystemError.

Inductive result (A : Type) : Type :=
| Ok (a : A)
| Raise (e : exc).
Arguments Ok {A} a.
Arguments Raise {A} e.

#[global] Instance result_ret : MRet result := fun _ a => Ok a.
#[global] Instance result_bind : MBind result := fun _ _ f m =>
  match m with Ok a => f a | Raise e => Raise e end.
#[global] Instance result_fmap : FMap result := fun _ _ f m =>
  match m with Ok a => Ok (f a) | Raise e => Raise e end.

(** Code that mutates as it goes, and may raise while doing so: the
    state is handed back in both cases. *)
Definition SE (S A : Type) : Type := S → result A * S.

#[global] Instance se_ret {S} : MRet (SE S) := fun _ a s => (Ok a, s).
#[global] Instance se_bind {S} : MBind (SE S) := fun _ _ f m s =>
  match m s with
  | (Ok a, s') => f a s'
  | (Raise e, s') => (Raise e, s')
  end.

Definition se_get {S} : SE S S := fun s => (Ok s, s).
Definition se_modify {S} (f : S → S) : SE S unit := fun s => (Ok tt, f s).
Definition se_raise {S A} (e : exc) : SE S A := fun s => (Raise e, s).
Definition se_lift {S A} (r : result A) : SE S A := fun s => (r, s).

(** [m] takes every state to one related to it by [R], whether it
    returns or raises. *)
Definition keeps {S A} (R : relation S) (m : SE S A) : Prop :=
  ∀ s, R s (snd (m s)).

(** A Python float: not-a-number, an infinity, or a finite value. *)
Inductive pyfloat : Type :=
| FNan
| FInf (negative : bool)
| FFin (q : Q).

(** The values that reach the registries as keys or as step numbers.
    [UNDETERMINED] is the module's sentinel object. *)
Inductive pyval : Type :=
| UNDETERMINED
| PyNone
| PyInt (z : Z)
| PyFloat (f : pyfloat)
| PyStr (s : string)
| PySlice (start stop step : option Z).

(** [l[i]] on a Python list: a negative index counts from the end, an
    index outside [-len, len) raises [IndexError]. *)
Definition norm_index (len : nat) (i : Z) : option nat :=
  let n := Z.of_nat len in
  let j := if i <? 0 then i + n else i in
  if (0 <=? j) && (j <? n) then Some (Z.to_nat j) else None.

Definition list_getitem {A} (l : list A) (i : Z) : result A :=
  match norm_index (length l) i with
  | Some j => match l !! j with Some x => Ok x | None => Raise IndexError end
  | None => Raise IndexError
  end.

(** [l.insert(i, x)] for [0 <= i]: [x] lands before position [i], or at
    the end when [i] is past it. *)
Definition list_insert_at {A} (i : nat) (x : A) (l : list A) : list A :=
  take i l ++ x :: drop i l.

(** [bisect.bisect_left(a, x)]: the loop of the standard library,
    [while lo < hi: mid = (lo + hi) // 2; ...]. The interval shrinks at
    every turn, so [length a] turns are enough. *)
Fixpoint bisect_loop (turns : nat) (a : list Z) (x : Z) (lo hi : nat) : nat :=
  match turns with
  | O => lo
  | S turns' =>
      if (lo <? hi)%nat then
        let mid := ((lo + hi) / 2)%nat in
        if nth mid a 0 <? x
        then bisect_loop turns' a x (mid + 1)%nat hi
        else bisect_loop turns' a x lo mid
      else lo
  end.

Definition bisect_left (a : list Z) (x : Z) : nat :=
  bisect_loop (length a) a x 0%nat (length a).

(** What the position returned by [bisect_left] does: it splits the
    list, smaller values before, the rest from there on. *)
Definition splits (a : list Z) (x : Z) (i : nat) : Prop :=
  (∀ j y, a !! j = Some y → (j < i)%nat → y < x) ∧
  (∀ j y, a !! j = Some y → (i ≤ j)%nat → x ≤ y).

(** ** [_Indexes]: the sparse isnap -> istep index *)

Module Indexes.

(** [self._nlst], set once by [__init__]. *)
Definition _nlst : Z := 400.

Record t : Type := mk {
  isnap : list (list Z);
  istep : list (list pyval)
}.

(** [__init__]: 400 empty lists on each side. *)
Definition init : t :=
  {| isnap := replicate (Z.to_nat _nlst) [];
     istep := replicate (Z.to_nat _nlst) [] |}.

(** [_isnap_idx]: bucket number, position in the bucket, and whether
    [k] is already there. *)
Definition _isnap_idx (ix : t) (k : Z) : result (Z * nat * bool) :=
  let super_idx := k / (100000 / _nlst) in
  bucket ← list_getitem (isnap ix) super_idx;
  let idx := bisect_left bucket k in
  let present :=
    (idx <? length bucket)%nat &&
    match bucket !! idx with Some k' => k' =? k | None => false end in
  mret (super_idx, idx, present).

(** [get_istep] *)
Definition get_istep (ix : t) (k : Z) : result pyval :=
  '(super_idx, idx, present) ← _isnap_idx ix k;
  if present : bool then
    vs ← list_getitem (istep ix) super_idx;
    list_getitem vs (Z.of_nat idx)
  else mret UNDETERMINED.

(** [insert]: the two parallel lists of the bucket are updated in
    place. Both are looked up before either is written; with as many
    lists on one side as on the other, the second lookup cannot fail
    where the first did not. *)
Definition insert (ix : t) (k : Z) (v : pyval) : result t :=
  '(super_idx, idx, present) ← _isnap_idx ix k;
  if present : bool then mret ix
  else
    ks ← list_getitem (isnap ix) super_idx;
    vs ← list_getitem (istep ix) super_idx;
    match norm_index (length (isnap ix)) super_idx,
          norm_index (length (istep ix)) super_idx with
    | Some j, Some j' =>
        mret {| isnap := <[j := list_insert_at idx k ks]> (isnap ix);
                istep := <[j' := list_insert_at idx v vs]> (istep ix) |}
    | _, _ => Raise IndexError
    end.

(** A run of inserts, left to right, stopping at the first that
    raises. *)
Fixpoint inserts (ops : list (Z * pyval)) (ix : t) : result t :=
  match ops with
  | [] => Ok ix
  | (k, v) :: ops' => ix' ← insert ix k v; inserts ops' ix'
  end.

(** The snapshot numbers the 400 lists are laid out for, counting
    those that Python's negative indexing folds back in. *)
Definition in_range (k : Z) : Prop := -100000 ≤ k < 100000.

(** The list a snapshot number of that range lives in. *)
Definition bucket_of (k : Z) : nat := Z.to_nat ((k / 250) `mod` 400).

(** Every snapshot number recorded. *)
Definition keys (ix : t) : list Z := concat (isnap ix).

(** The shape [insert] maintains: 400 lists on each side, each
    [isnap] list increasing and holding only numbers that belong
    there, each [istep] list as long as its [isnap] list. *)
Record wf (ix : t) : Prop := mk_wf {
  wf_isnap_len : length (isnap ix) = 400%nat;
  wf_istep_len : length (istep ix) = 400%nat;
  wf_sorted : ∀ b ks, isnap ix !! b = Some ks → StronglySorted Z.lt ks;
  wf_home : ∀ b ks k,
    isnap ix !! b = Some ks → k ∈ ks → in_range k ∧ bucket_of k = b;
  wf_parallel : ∀ b ks vs,
    isnap ix !! b = Some ks → istep ix !! b = Some vs → length vs = length ks
}.

End Indexes.

(** ** Strings *)

(** [str.lower()], on the ASCII letters. *)
Definition ascii_lower (c : ascii) : ascii :=
  let n := N_of_ascii c in
  if ((65 <=? n) && (n <=? 90))%N then ascii_of_N (n + 32) else c.

Fixpoint str_lower (s : string) : string :=
  match s with
  | EmptyString => EmptyString
  | String c s' => String (ascii_lower c) (str_lower s')
  end.

(** [s.index(c)] for a one-character [c]; [None] stands for the
    [ValueError] of a character that does not occur. *)
Fixpoint str_index (c : ascii) (s : string) : option nat :=
  match s with
  | EmptyString => None
  | String c' s' => if bool_decide (c' = c) then Some 0%nat else S <$> str_index c s'
  end.

(** ** numpy, as far as the geometry needs it *)

Class Numpy : Type := {
  ndarray : Type;
  (** [np.meshgrid(a, b, c, indexing='ij')] *)
  np_meshgrid : ndarray → ndarray → ndarray → ndarray * ndarray * ndarray;
  (** [a + x] for a float [x] *)
  np_add_scalar : ndarray → Q → ndarray;
  (** [a * b], [np.cos(a)], [np.sin(a)] *)
  np_mul : ndarray → ndarray → ndarray;
  np_cos : ndarray → ndarray;
  np_sin : ndarray → ndarray
}.

(** [np.pi] is the double 0x400921FB54442D18. *)
Definition np_pi : Q := 884279719003555 # 281474976710656.

(** ** [_Geometry] *)

Module Geometry.
Section WithNumpy.
Context `{Numpy}.

(** What the parser puts in a header: [None], a float, an int, a
    vector of ints ([nts]), a vector of floats ([aspect]) or a
    coordinate array. *)
Inductive hval : Type :=
| HNone
| HNum (q : Q)
| HInt (z : Z)
| HInts (l : list Z)
| HNums (l : list Q)
| HArr (a : ndarray).

(** The header is a [dict], shared with whoever passed it in. *)
Abbreviation header_t := (gmap string hval).

(** [par['geometry']]: the two entries that are read. *)
Record par_t : Type := mk_par {
  par_shape : string;
  par_r_cmb : Q
}.

(** [self._shape] *)
Record shape_t : Type := mk_shape {
  sph : bool;
  cyl : bool;
  axi : bool;
  ntot : list Z
}.

(** The instance attributes, apart from [_header]: the header is
    the caller's dict, and is threaded as the state. *)
Record t : Type := mk {
  _par : par_t;
  _coords : option (list ndarray);
  _cart_meshes : option (list ndarray);
  _curv_meshes : option (list (option ndarray));
  _shape : shape_t
}.

(** What an attribute read through [__getattr__] can be. *)
Inductive gattr : Type :=
| GNone
| GInt (z : Z)
| GArr (a : ndarray)
| GHeader (v : hval).

Definition hget (h : header_t) (k : string) : result hval :=
  match h !! k with Some v => Ok v | None => Raise KeyError end.

(** The four [_regexes]: each yields the captured letter. The [$]
    that closes them matches at the end of the name, and also before
    a newline that ends the name. *)
Definition char_in (c : ascii) (cls : string) : bool :=
  match str_index c cls with Some _ => true | None => false end.

Definition newline : string := String "010"%char EmptyString.

Definition ends_with (rest suffix : string) : bool :=
  bool_decide (rest = suffix) || bool_decide (rest = suffix +:+ newline).

Definition regex_ntot (attr : string) : option ascii :=
  match attr with
  | String n (String c rest) =>
      if bool_decide (n = "n"%char) && ends_with rest "tot" && char_in c "xyztprb"
      then Some c else None
  | _ => None
  end.

Definition regex_suffix (cls suffix attr : string) : option ascii :=
  match attr with
  | String c rest =>
      if ends_with rest suffix && char_in c cls then Some c else None
  | _ => None
  end.

(** ['xtypzrb'.index(c) // 2] *)
Definition axis_of (c : ascii) : result Z :=
  match str_index c "xtypzrb" with
  | Some i => Ok (Z.of_nat i / 2)
  | None => Raise (ValueError "substring not found")
  end.

(** [__getattr__]: [nDtot], [D_coord], [D_mesh], and as a last
    resort the header entry of that name. *)
Definition __getattr__ (self : t) (header : header_t) (attr : string) : result gattr :=
  match regex_ntot attr with
  | Some c => i ← axis_of c; GInt <$> list_getitem (ntot (_shape self)) i
  | None =>
  match regex_suffix "xyztpr" "_coord" attr with
  | Some c =>
      i ← axis_of c;
      match _coords self with
      | Some dat => GArr <$> list_getitem dat i
      | None => Raise TypeError
      end
  | None =>
  match regex_suffix "xyz" "_mesh" attr with
  | Some c =>
      i ← axis_of c;
      match _cart_meshes self with
      | Some dat => GArr <$> list_getitem dat i
      | None => Raise TypeError
      end
  | None =>
  match regex_suffix "tpr" "_mesh" attr with
  | Some c =>
      i ← axis_of c;
      match _curv_meshes self with
      | Some dat =>
          m ← list_getitem dat i;
          mret (match m with Some a => GArr a | None => GNone end)
      | None => Raise TypeError
      end
  | None => GHeader <$> hget header attr
  end end end end.

Definition as_int (a : gattr) : result Z :=
  match a with
  | GInt z => Ok z
  | GHeader (HInt z) => Ok z
  | _ => Raise TypeError
  end.

Definition as_array (a : gattr) : result ndarray :=
  match a with
  | GArr x => Ok x
  | GHeader (HArr x) => Ok x
  | _ => Raise TypeError
  end.

(** [self.rcmb]: the header's entry, [None] or a number. *)
Definition rcmb (self : t) (header : header_t) : result (option Q) :=
  a ← __getattr__ self header "rcmb";
  match a with
  | GHeader HNone => Ok None
  | GHeader (HNum q) => Ok (Some q)
  | GHeader (HInt z) => Ok (Some (inject_Z z))
  | _ => Raise TypeError
  end.

(** The classification properties. *)
Definition cylindrical (self : t) : bool := cyl (_shape self).
Definition spherical (self : t) : bool := sph (_shape self).
Definition curvilinear (self : t) : bool := spherical self || cylindrical self.
Definition cartesian (self : t) : bool := negb (curvilinear self).

Definition twod_xz (self : t) (header : header_t) : result bool :=
  n ← __getattr__ self header "nytot" ≫= as_int; mret (n =? 1).
Definition twod_yz (self : t) (header : header_t) : result bool :=
  n ← __getattr__ self header "nxtot" ≫= as_int; mret (n =? 1).
Definition twod (self : t) (header : header_t) : result bool :=
  a ← twod_xz self header;
  if a : bool then mret true else twod_yz self header.
Definition yinyang (self : t) (header : header_t) : result bool :=
  if spherical self
  then n ← __getattr__ self header "nbtot" ≫= as_int; mret (n =? 2)
  else mret false.

Definition set_shape (f : shape_t → shape_t) (self : t) : t :=
  mk (_par self) (_coords self) (_cart_meshes self) (_curv_meshes self)
     (f (_shape self)).
Definition set_cyl (b : bool) : shape_t → shape_t :=
  fun s => mk_shape (sph s) b (axi s) (ntot s).
Definition set_sph (b : bool) : shape_t → shape_t :=
  fun s => mk_shape b (cyl s) (axi s) (ntot s).
Definition set_axi (b : bool) : shape_t → shape_t :=
  fun s => mk_shape (sph s) (cyl s) b (ntot s).

(** [list(header['nts']) + [header['ntb']]] *)
Definition read_ntot (header : header_t) : result (list Z) :=
  nts ← hget header "nts";
  match nts with
  | HInts l =>
      ntb ← hget header "ntb";
      match ntb with HInt b => Ok (l ++ [b]) | _ => Raise TypeError end
  | _ => Raise TypeError
  end.

Definition read_aspect (header : header_t) : result (list Q) :=
  a ← hget header "aspect";
  match a with HNums l => Ok l | _ => Raise TypeError end.

Definition read_coord (header : header_t) (k : string) : result ndarray :=
  a ← hget header k;
  match a with HArr x => Ok x | _ => Raise TypeError end.

(** The first part of [__init__]: the decision between cylindrical
    and spherical, lines 36 to 47. *)
Definition classify (self : t) (shape : string) (aspect : list Q)
  : SE header_t t :=
  header ← se_get;
  r ← se_lift (rcmb self header);
  match r with
  | Some q =>
      if Qle_bool 0 q then
        (* curvilinear *)
        xz ← se_lift (twod_xz self header);
        c ← (if xz : bool then
               if bool_decide (shape = "cylindrical") then mret true
               else a0 ← se_lift (list_getitem aspect 0); mret (Qle_bool np_pi a0)
             else mret false);
        mret (set_shape (set_sph (negb c)) (set_shape (set_cyl c) self))
      else mret self
  | None =>
      se_modify (fun h => <["rcmb" := HNum (par_r_cmb (_par self))]> h);;
      header ← se_get;
      r ← se_lift (rcmb self header);
      match r with
      | Some q =>
          if Qle_bool 0 q then
            xz ← se_lift (twod_xz self header);
            if xz && bool_decide (shape = "cylindrical")
            then mret (set_shape (set_cyl true) self)
            else if bool_decide (shape = "spherical")
                 then mret (set_shape (set_sph true) self)
                 else mret self
          else mret self
      | None => se_raise TypeError
      end
  end.

(** Lines 48 and 49: the axisymmetric flag. *)
Definition flag_axi (self : t) (shape : string) : SE header_t t :=
  header ← se_get;
  ax ← (if cartesian self then
          xz ← se_lift (twod_xz self header);
          mret (xz && bool_decide (shape = "axisymmetric"))
        else mret false);
  mret (set_shape (set_axi ax) self).

(** Lines 51 to 71: the coordinates and the meshes. *)
Definition build_meshes (self : t) : SE header_t t :=
  header ← se_get;
  e1 ← se_lift (read_coord header "e1_coord");
  e2 ← se_lift (read_coord header "e2_coord");
  e3 ← se_lift (read_coord header "e3_coord");
  let self := mk (_par self) (Some [e1; e2; e3]) None None (_shape self) in
  x ← se_lift (__getattr__ self header "x_coord" ≫= as_array);
  y ← se_lift (__getattr__ self header "y_coord" ≫= as_array);
  z ← se_lift (__getattr__ self header "z_coord" ≫= as_array);
  if cartesian self then
    let '(mx, my, mz) := np_meshgrid x y z in
    mret (mk (_par self) (_coords self) (Some [mx; my; mz])
             (Some [None; None; None]) (_shape self))
  else
    r ← se_lift (rcmb self header);
    match r with
    | None => se_raise TypeError
    | Some q =>
        let '(t_mesh, p_mesh, r_mesh) := np_meshgrid x y (np_add_scalar z q) in
        let x_mesh := np_mul (np_mul r_mesh (np_cos p_mesh)) (np_sin t_mesh) in
        let y_mesh := np_mul (np_mul r_mesh (np_sin p_mesh)) (np_sin t_mesh) in
        let z_mesh := np_mul r_mesh (np_cos t_mesh) in
        mret (mk (_par self) (_coords self) (Some [x_mesh; y_mesh; z_mesh])
                 (Some [Some t_mesh; Some p_mesh; Some r_mesh]) (_shape self))
    end.

(** [__init__(self, header, par)] *)
Definition __init__ (par : par_t) : SE header_t t :=
  header ← se_get;
  nt ← se_lift (read_ntot header);
  let self := mk par None None None (mk_shape false false false nt) in
  let shape := str_lower (par_shape par) in
  aspect ← se_lift (read_aspect header);
  self ← classify self shape aspect;
  self ← flag_axi self shape;
  build_meshes self.

(** A header that has what [__init__] reads besides [rcmb]: the
    three cell counts, the block count, the aspect ratios and the
    three coordinate arrays. *)
Record complete (header : header_t) (nx ny nz : Z) : Prop := mk_complete {
  has_nts : header !! "nts" = Some (HInts [nx; ny; nz]);
  has_ntb : ∃ b, header !! "ntb" = Some (HInt b);
  has_aspect : ∃ a, header !! "aspect" = Some (HNums a);
  has_e1 : ∃ e, header !! "e1_coord" = Some (HArr e);
  has_e2 : ∃ e, header !! "e2_coord" = Some (HArr e);
  has_e3 : ∃ e, header !! "e3_coord" = Some (HArr e)
}.

(** What [__init__] may do to the header: nothing, or fill in an
    [rcmb] that was [None]. *)
Definition fills_rcmb (r : Q) (h h' : header_t) : Prop :=
  h' = h ∨ (h !! "rcmb" = Some HNone ∧ h' = <["rcmb" := HNum r]> h).

End WithNumpy.
End Geometry.

(** ** The dataset: [StagyyData], [_Steps], [_Snaps], [_Step], [_Fields] *)

(** [s.split(sep)] for a one-character separator. *)
Fixpoint str_split (sep : ascii) (s : string) : list string :=
  match s with
  | EmptyString => [EmptyString]
  | String c s' =>
      let r := str_split sep s' in
      if bool_decide (c = sep) then EmptyString :: r
      else match r with
           | w :: ws => String c w :: ws
           | [] => [String c EmptyString]
           end
  end.

(** ['{:05d}'.format(z)]: zero-filled to five characters, sign
    included. *)
Definition zfill (n : nat) (s : string) : string :=
  foldr (fun _ acc => String "0" acc) s (seq 0 n).

Definition format_05d (z : Z) : string :=
  let digits := pretty (Z.to_N (Z.abs z)) in
  if z <? 0
  then String "-" (zfill (4 - String.length digits) digits)
  else zfill (5 - String.length digits) digits.

(** [int(x)] on a float truncates towards zero. *)
Definition Qtrunc (q : Q) : Z := Z.quot (Qnum q) (Zpos (Qden q)).

(** The [int] a dict key is equal to, if any: such a key finds the
    entry of that [int]. *)
Definition int_key (v : pyval) : option Z :=
  match v with
  | PyInt z => Some z
  | PyFloat (FFin q) =>
      if Qeq_bool q (inject_Z (Qtrunc q)) then Some (Qtrunc q) else None
  | _ => None
  end.

(** [a < b] and [a == b] where the code compares step numbers. *)
Definition py_lt (a b : pyval) : result bool :=
  match a, b with
  | PyInt x, PyInt y => Ok (x <? y)
  | _, _ => Raise TypeError
  end.

Definition py_eq (a b : pyval) : bool :=
  match a, b with
  | UNDETERMINED, UNDETERMINED => true
  | PyNone, PyNone => true
  | PyInt x, PyInt y => x =? y
  | PyInt x, PyFloat (FFin q) | PyFloat (FFin q), PyInt x => Qeq_bool q (inject_Z x)
  | PyFloat (FFin p), PyFloat (FFin q) => Qeq_bool p q
  | PyFloat (FInf m), PyFloat (FInf n) => bool_decide (m = n)
  | PyStr s, PyStr s' => bool_decide (s = s')
  | PySlice a1 b1 c1, PySlice a2 b2 c2 =>
      bool_decide (a1 = a2) && bool_decide (b1 = b2) && bool_decide (c1 = c2)
  | _, _ => false
  end.

(** [range(start, stop, step)]: the number of values it holds. *)
Definition range_len (start stop step : Z) : nat :=
  Z.to_nat
    (if 0 <? step
     then (if start <? stop then (stop - start - 1) / step + 1 else 0)
     else (if stop <? start then (start - stop - 1) / (- step) + 1 else 0)).

(** The next [n] values of a range iterator that stands at [k]. *)
Definition range_from (k step : Z) (n : nat) : list Z :=
  (fun i => k + Z.of_nat i * step) <$> seq 0 n.

(** The values of [range(start, stop, step)], in order. *)
Definition range_list (start stop step : Z) : list Z :=
  range_from start step (range_len start stop step).

(** What lies outside the module: the command line, the catalogue of
    fields in [constants], [os.path], the parsing service, and [int]
    on a string. *)
Class Env `{Numpy} : Type := {
  args_path : string;
  args_name : string;
  args_scan : string;
  (** [constants.FIELD_VAR_LIST[name].par] *)
  FIELD_VAR_LIST : gmap string string;
  os_path_join : string → string → string;
  (** [stagyyparsers.fields(fieldfile)] *)
  stagyyparsers_fields :
    string → option (gmap string Geometry.hval * list ndarray);
  (** [stagyyparsers.fields(fieldfile, only_istep=True)] *)
  stagyyparsers_fields_only_istep : string → option Z;
  (** [int(s)] for a string: [None] stands for its [ValueError] *)
  int_of_str : string → option Z
}.

Module Sdat.
Section WithEnv.
Context {np : Numpy} {env : Env}.

(** [self._header] of [_Fields] *)
Inductive header_slot : Type :=
| HeaderUndetermined
| HeaderNone
| HeaderOf (h : gmap string Geometry.hval).

(** [_Fields]: the dict itself and [_header]. *)
Record Fields_t : Type := mk_fields {
  f_items : gmap string ndarray;
  f_header : header_slot
}.

Inductive step_class : Type := _Step | _EmptyStep.

(** A [_Step] (or [_EmptyStep]) instance. *)
Record Step_t : Type := mk_step {
  cls : step_class;
  istep : pyval;
  fields : Fields_t;
  _isnap : pyval;
  _irsnap : pyval;
  _itsnap : pyval
}.

Inductive registry : Type := TheSteps | TheSnaps.

(** A generator made by slicing a registry: the registry it reads,
    and where its [range] iterator stands. *)
Record generator : Type := mk_gen {
  g_reg : registry;
  g_next : Z;
  g_stride : Z;
  g_left : nat
}.

Inductive parse_mode : Type := Full | OnlyIstep.

(** The dataset and everything reachable from it. [steps] is the dict
    of [_Steps]; the dict of [_Snaps] stays empty and is left out;
    [io] logs the calls to the parsing service, latest first. *)
Record StagyyData : Type := mk_sdat {
  heap : list Step_t;
  steps : gmap Z nat;
  snaps_isteps : Indexes.t;
  gens : list generator;
  io : list (string * parse_mode)
}.

Abbreviation M := (SE StagyyData).

(** What indexing a registry hands back. *)
Inductive pyobj : Type :=
| ObjStep (l : nat)
| ObjGen (g : nat).

(** [StagyyData.__init__]: [self.scan] is a set, walked in some
    order. *)
Definition scan : list string :=
  elements (list_to_set (str_split "," args_scan)
            ∩ list_to_set ((map_to_list FIELD_VAR_LIST).*2) : gset string).

Definition StagyyData___init__ : StagyyData :=
  mk_sdat [] ∅ Indexes.init [] [].

(** [StagyyData.filename(fname, timestep)], [suffix] left at its
    default. *)
Definition filename (fname : string) (timestep : pyval) : result string :=
  fname ← match timestep with
          | PyNone => Ok fname
          | PyInt z => Ok (fname +:+ format_05d z)
          | PyFloat _ | PyStr _ => Raise (ValueError "Unknown format code 'd'")
          | _ => Raise TypeError
          end;
  mret (os_path_join args_path (args_name +:+ "_" +:+ fname +:+ EmptyString)).

(** Store primitives. An address that names no object cannot arise;
    it is answered with [SystemError]. *)
Definition deref (l : nat) : M Step_t := fun s =>
  match heap s !! l with
  | Some o => (Ok o, s)
  | None => (Raise SystemError, s)
  end.

Definition alloc (o : Step_t) : M nat := fun s =>
  (Ok (length (heap s)),
   mk_sdat (heap s ++ [o]) (steps s) (snaps_isteps s) (gens s) (io s)).

Definition update (l : nat) (f : Step_t → Step_t) : M unit := fun s =>
  (Ok tt,
   mk_sdat (alter f l (heap s)) (steps s) (snaps_isteps s) (gens s) (io s)).

Definition set_steps (k : Z) (l : nat) : M unit := fun s =>
  (Ok tt,
   mk_sdat (heap s) (<[k := l]> (steps s)) (snaps_isteps s) (gens s) (io s)).

Definition log (file : string) (mode : parse_mode) : M unit := fun s =>
  (Ok tt,
   mk_sdat (heap s) (steps s) (snaps_isteps s) (gens s) ((file, mode) :: io s)).

(** [int(x)] *)
Definition py_int (v : pyval) : result Z :=
  match v with
  | PyInt z => Ok z
  | PyFloat (FFin q) => Ok (Qtrunc q)
  | PyFloat FNan => Raise (ValueError "cannot convert float NaN to integer")
  | PyFloat (FInf _) => Raise OverflowError
  | PyStr s =>
      match int_of_str s with
      | Some z => Ok z
      | None => Raise (ValueError "invalid literal for int() with base 10")
      end
  | _ => Raise TypeError
  end.

(** [_Step.__init__(istep, sdat)], also run by [_EmptyStep()] with
    [None]. *)
Definition fresh_step (c : step_class) (i : pyval) : Step_t :=
  mk_step c i (mk_fields ∅ HeaderUndetermined)
          UNDETERMINED UNDETERMINED UNDETERMINED.

Definition Step___init__ (c : step_class) (i : pyval) : M nat :=
  alloc (fresh_step c i).

(** *** [_Steps] *)

(** [__setitem__]: [pass]. *)
Definition Steps___setitem__ (key : pyval) (value : pyobj) : M unit :=
  mret tt.

(** [__missing__] *)
Definition Steps___missing__ (i : pyval) : M nat :=
  match i with
  | PyNone => Step___init__ _EmptyStep PyNone
  | _ =>
      match py_int i with
      | Raise (ValueError _) =>
          se_raise (ValueError "Time step should be an integer value")
      | Raise e => se_raise e
      | Ok k =>
          if k <? 0 then se_raise (ValueError "Time step should be positive")
          else
            s ← se_get;
            match steps s !! k with
            | Some _ => mret tt
            | None => l ← Step___init__ _Step (PyInt k); set_steps k l
            end;;
            s ← se_get;
            match steps s !! k with
            | Some l => mret l
            | None => se_raise SystemError
            end
      end
  end.

(** [dict.__getitem__] of the subclass: a hit, or [__missing__]. A
    slice cannot be hashed. *)
Definition Steps_dict_getitem (key : pyval) : M nat :=
  match key with
  | PySlice _ _ _ => se_raise TypeError
  | _ =>
      s ← se_get;
      match int_key key ≫= (steps s !!.) with
      | Some l => mret l
      | None => Steps___missing__ key
      end
  end.

(** The slice branch of both [__getitem__]: a generator over
    [range(start, stop, step)], the range being built at once. *)
Definition new_generator (r : registry) (start stop step : option Z) : M pyobj :=
  let start := default 0 start in
  let step := match step with Some 0 | None => 1 | Some z => z end in
  match stop with
  | None => se_raise TypeError
  | Some stop => fun s =>
      (Ok (ObjGen (length (gens s))),
       mk_sdat (heap s) (steps s) (snaps_isteps s)
               (gens s ++ [mk_gen r start step (range_len start stop step)])
               (io s))
  end.

(** [__getitem__] *)
Definition Steps___getitem__ (key : pyval) : M pyobj :=
  match key with
  | PySlice start stop step => new_generator TheSteps start stop step
  | _ => l ← Steps_dict_getitem key; mret (ObjStep l)
  end.

(** What [_Steps] inherits from [dict] and does not override goes
    past [__setitem__] and [__missing__]. [pop(key)] removes the entry
    of [key] and returns its object, with [KeyError] if there is none;
    [update({k: step})] binds [k] to the step object given. *)
Definition del_steps (k : Z) : M unit := fun s =>
  (Ok tt,
   mk_sdat (heap s) (delete k (steps s)) (snaps_isteps s) (gens s) (io s)).

Definition Steps_pop (key : pyval) : M pyobj :=
  match key with
  | PySlice _ _ _ => se_raise TypeError
  | _ =>
      s ← se_get;
      match int_key key with
      | Some k =>
          match steps s !! k with
          | Some l => del_steps k;; mret (ObjStep l)
          | None => se_raise KeyError
          end
      | None => se_raise KeyError
      end
  end.

Definition Steps_update (k : Z) (l : nat) : M unit := set_steps k l.

(** *** Attribute access on what a registry returned *)

(** [_EmptyStep.__getattribute__]: [None], whatever the name. *)
Definition EmptyStep___getattribute__ (self : nat) (name : string) : pyval :=
  PyNone.

(** [x[key]] for a string [key], on the values of [pyval]: none of
    them can be subscripted so. *)
Definition py_subscript {A} (x : pyval) (key : string) : result A :=
  Raise TypeError.

(** [o.istep] *)
Definition getattr_istep (o : pyobj) : M pyval :=
  match o with
  | ObjGen _ => se_raise AttributeError
  | ObjStep l =>
      self ← deref l;
      match cls self with
      | _EmptyStep => mret (EmptyStep___getattribute__ l "istep")
      | _Step => mret (istep self)
      end
  end.

(** [o.isnap = isnap]: the setter of the property, [int(isnap)] of an
    [int]. *)
Definition setattr_isnap (o : pyobj) (isnap : Z) : M unit :=
  match o with
  | ObjGen _ => se_raise AttributeError
  | ObjStep l =>
      update l (fun self => mk_step (cls self) (istep self) (fields self)
                                    (PyInt isnap) (_irsnap self) (_itsnap self))
  end.

(** *** [_Snaps] *)

Definition index_insert (isnap : Z) (i : pyval) : M unit := fun s =>
  match Indexes.insert (snaps_isteps s) isnap i with
  | Ok ix => (Ok tt, mk_sdat (heap s) (steps s) ix (gens s) (io s))
  | Raise e => (Raise e, s)
  end.

(** [bind] *)
Definition Snaps_bind (isnap : Z) (i : pyval) : M unit :=
  index_insert isnap i;;
  o ← Steps___getitem__ i;
  setattr_isnap o isnap.

(** The [for par in self.sdat.scan] loop of [__missing__] and what
    follows it; [i] is the loop's [istep] so far. *)
Fixpoint Snaps_probe (pars : list string) (isnap : Z) (i : pyval) : M pyobj :=
  match pars with
  | [] =>
      index_insert isnap PyNone;;
      Steps___getitem__ i
  | par :: pars' =>
      fieldfile ← se_lift (filename par (PyInt isnap));
      log fieldfile OnlyIstep;;
      match stagyyparsers_fields_only_istep fieldfile with
      | Some k =>
          Snaps_bind isnap (PyInt k);;
          Steps___getitem__ (PyInt k)
      | None => Snaps_probe pars' isnap PyNone
      end
  end.

(** [__missing__] *)
Definition Snaps___missing__ (isnap : Z) : M pyobj :=
  s ← se_get;
  i ← se_lift (Indexes.get_istep (snaps_isteps s) isnap);
  match i with
  | UNDETERMINED => Snaps_probe scan isnap UNDETERMINED
  | _ => Steps___getitem__ i
  end.

(** [__getitem__]: only an [int] gets through [isnap // 250] and the
    list indexing that follows. *)
Definition Snaps___getitem__ (key : pyval) : M pyobj :=
  match key with
  | PySlice start stop step => new_generator TheSnaps start stop step
  | PyInt isnap => Snaps___missing__ isnap
  | _ => se_raise TypeError
  end.

Definition Snaps___setitem__ (key : pyval) (value : pyobj) : M unit :=
  Steps___setitem__ key value.

(** *** Generators *)

Definition set_gen (g : nat) (x : generator) : M unit := fun s =>
  (Ok tt,
   mk_sdat (heap s) (steps s) (snaps_isteps s) (<[g := x]> (gens s)) (io s)).

Definition close_gen (g : nat) : M unit := fun s =>
  (Ok tt,
   mk_sdat (heap s) (steps s) (snaps_isteps s)
           (alter (fun x => mk_gen (g_reg x) (g_next x) (g_stride x) 0) g (gens s))
           (io s)).

(** The element expression of the generator. *)
Definition gen_body (r : registry) (k : Z) : M pyobj :=
  match r with
  | TheSteps => l ← Steps_dict_getitem (PyInt k); mret (ObjStep l)
  | TheSnaps => Snaps___missing__ k
  end.

(** [next(g)]: [None] is [StopIteration]. A generator whose body
    raised is finished. *)
Definition gen_next (g : nat) : M (option pyobj) := fun s =>
  match gens s !! g with
  | None => (Raise SystemError, s)
  | Some x =>
      match g_left x with
      | O => (Ok None, s)
      | S n =>
          let k := g_next x in
          match (set_gen g (mk_gen (g_reg x) (k + g_stride x) (g_stride x) n);;
                 gen_body (g_reg x) k) s with
          | (Ok o, s') => (Ok (Some o), s')
          | (Raise e, s') => (Raise e, snd (close_gen g s'))
          end
      end
  end.

(** [list(g)], or a [for] loop run to its end. *)
Fixpoint gen_drain (n : nat) (g : nat) : M (list pyobj) :=
  match n with
  | O => mret []
  | S n' =>
      r ← gen_next g;
      match r with
      | None => mret []
      | Some o => os ← gen_drain n' g; mret (o :: os)
      end
  end.

Definition py_list (g : nat) : M (list pyobj) := fun s =>
  match gens s !! g with
  | None => (Raise SystemError, s)
  | Some x => gen_drain (g_left x) g s
  end.

(** *** [_Step.isnap] *)

(** The [while] loop of the getter. [todo] is [99999 - isnap]. *)
Fixpoint isnap_search (todo : nat) (self_istep : pyval) (i : pyval) : M pyval :=
  c ← se_lift (match i with PyNone => Ok true | _ => py_lt i self_istep end);
  if c : bool then
    match todo with
    | O => mret i
    | S todo' =>
        let isnap := 99999 - Z.of_nat todo' in
        o ← Snaps___getitem__ (PyInt isnap);
        i ← getattr_istep o;
        Snaps_bind isnap i;;
        isnap_search todo' self_istep i
    end
  else mret i.

(** The getter of the [isnap] property of [_Step]. *)
Definition Step_isnap (l : nat) : M pyval :=
  self ← deref l;
  match _isnap self with
  | UNDETERMINED =>
      i ← isnap_search (Z.to_nat 100000) (istep self) PyNone;
      self ← deref l;
      (if negb (py_eq i (istep self))
       then update l (fun self => mk_step (cls self) (istep self) (fields self)
                                          PyNone (_irsnap self) (_itsnap self))
       else mret tt);;
      self ← deref l;
      mret (_isnap self)
  | v => mret v
  end.

(** [step.isnap], by the class of [step]. *)
Definition getattr_isnap (l : nat) : M pyval :=
  self ← deref l;
  match cls self with
  | _EmptyStep => mret (EmptyStep___getattribute__ l "isnap")
  | _Step => Step_isnap l
  end.

(** *** [_Fields] *)

Definition fld_names (par_type name : string) : list string :=
  if bool_decide (par_type = "vp") then ["u"; "v"; "w"; "p"]
  else if bool_decide (par_type = "sx") then ["sx"; "sy"; "sz"; "x"]
  else [name].

Definition set_header (l : nat) (h : gmap string Geometry.hval) : M unit :=
  update l (fun self =>
    mk_step (cls self) (istep self)
            (mk_fields (f_items (fields self)) (HeaderOf h))
            (_isnap self) (_irsnap self) (_itsnap self)).

(** [self[fld_name] = fld], the plain [dict] assignment. *)
Definition Fields___setitem__ (l : nat) (name : string) (a : ndarray) : M unit :=
  update l (fun self =>
    mk_step (cls self) (istep self)
            (mk_fields (<[name := a]> (f_items (fields self)))
                       (f_header (fields self)))
            (_isnap self) (_irsnap self) (_itsnap self)).

Fixpoint Fields_store (l : nat) (kvs : list (string * ndarray)) : M unit :=
  match kvs with
  | [] => mret tt
  | (k, a) :: kvs' => Fields___setitem__ l k a;; Fields_store l kvs'
  end.

(** [fields[name]] on the [_Fields] of step [l]: a hit, or
    [__missing__], whose last line indexes again. [depth] is the
    number of nested [__missing__] calls the interpreter allows. *)
Fixpoint Fields___getitem__ (depth : nat) (l : nat) (name : string) : M ndarray :=
  self ← deref l;
  match f_items (fields self) !! name with
  | Some a => mret a
  | None =>
      match depth with
      | O => se_raise RecursionError
      | S depth' =>
          match FIELD_VAR_LIST !! name with
          | None =>
              se_raise (ValueError ("Unknown field variable: '" +:+ name +:+ "'"))
          | Some par_type =>
              isnap ← getattr_isnap l;
              fieldfile ← se_lift (filename par_type isnap);
              log fieldfile Full;;
              match stagyyparsers_fields fieldfile with
              | None => se_raise TypeError
              | Some (header, flds) =>
                  set_header l header;;
                  Fields_store l (zip (fld_names par_type name) flds);;
                  Fields___getitem__ depth' l name
              end
          end
      end
  end.

(** [step.fields[name]]: on an [_EmptyStep], [step.fields] is
    [None]. *)
Definition step_fields_getitem (depth : nat) (l : nat) (name : string) : M ndarray :=
  self ← deref l;
  match cls self with
  | _EmptyStep =>
      se_lift (py_subscript (EmptyStep___getattribute__ l "fields") name)
  | _Step => Fields___getitem__ depth l name
  end.

(** *** What a caller can ask of a dataset *)

Inductive request : Type :=
| GetStep (key : pyval)
| SetStep (key : pyval) (value : pyobj)
| GetSnap (key : pyval)
| SetSnap (key : pyval) (value : pyobj)
| Bind (isnap : Z) (i : pyval)
| Next (g : nat)
| GetIsnap (l : nat)
| GetField (depth : nat) (l : nat) (name : string).

(** The two requests that assign through a registry. *)
Definition is_assignment (r : request) : bool :=
  match r with
  | SetStep _ _ | SetSnap _ _ => true
  | _ => false
  end.

Definition exec (r : request) (s : StagyyData) : StagyyData :=
  match r with
  | GetStep key => snd (Steps___getitem__ key s)
  | SetStep key value => snd (Steps___setitem__ key value s)
  | GetSnap key => snd (Snaps___getitem__ key s)
  | SetSnap key value => snd (Snaps___setitem__ key value s)
  | Bind isnap i => snd (Snaps_bind isnap i s)
  | Next g => snd (gen_next g s)
  | GetIsnap l => snd (getattr_isnap l s)
  | GetField depth l name => snd (step_fields_getitem depth l name s)
  end.

Definition run (rs : list request) (s : StagyyData) : StagyyData :=
  foldl (fun s r => exec r s) s rs.

(** The states a dataset can be in: those a run of requests leads to
    from a fresh one. *)
Inductive reachable : StagyyData → Prop :=
| reachable_init : reachable StagyyData___init__
| reachable_exec r s : reachable s → reachable (exec r s).

(** *** What holds of every such state, and from one to the next *)

(** The calls to the parser that decoded fields. *)
Fixpoint count_full (log : list (string * parse_mode)) : nat :=
  match log with
  | [] => 0
  | (_, Full) :: log' => S (count_full log')
  | (_, OnlyIstep) :: log' => count_full log'
  end.

(** The registry and the store agree: an entry of [steps] under [k]
    is a [_Step] whose [istep] is [k], with [0 <= k]; every [_Step]
    in the store is the entry of its own [istep]; and the index has
    its shape. *)
Record inv (s : StagyyData) : Prop := mk_inv {
  inv_steps : ∀ k l, steps s !! k = Some l →
    0 ≤ k ∧ ∃ o, heap s !! l = Some o ∧ cls o = _Step ∧ istep o = PyInt k;
  inv_heap : ∀ l o, heap s !! l = Some o → cls o = _Step →
    ∃ k, istep o = PyInt k ∧ steps s !! k = Some l;
  inv_index : Indexes.wf (snaps_isteps s)
}.

(** Entries stay, objects stay what they are, and a new entry is an
    object that was not there before. *)
Definition grows (s s' : StagyyData) : Prop :=
  (∀ k l, steps s !! k = Some l → steps s' !! k = Some l) ∧
  (∀ l o, heap s !! l = Some o →
     ∃ o', heap s' !! l = Some o' ∧ cls o' = cls o ∧ istep o' = istep o) ∧
  (∀ k l, steps s !! k = None → steps s' !! k = Some l → heap s !! l = None).

(** No field cache was touched, and the parser was only asked for
    step numbers. *)
Definition quiet (s s' : StagyyData) : Prop :=
  (∀ l o, heap s !! l = Some o →
     ∃ o', heap s' !! l = Some o' ∧ fields o' = fields o) ∧
  (∃ probes, io s' = probes ++ io s ∧ Forall (fun c => c.2 = OnlyIstep) probes).

Definition evolves (s s' : StagyyData) : Prop :=
  (inv s → inv s') ∧ grows s s'.

Definition evolves_quietly (s s' : StagyyData) : Prop :=
  evolves s s' ∧ quiet s s'.

End WithEnv.
End Sdat.

(** ** A small dataset, to run the definitions on *)

Module Sample.

(** Arrays as lists of numbers. The trigonometry is of no concern
    here: [cos] and [sin] are stand-ins. *)
Definition numpy : Numpy := {|
  ndarray := list Q;
  np_meshgrid := fun a b c => (a, b, c);
  np_add_scalar := fun a x => (fun y => (y + x)%Q) <$> a;
  np_mul := fun a b => zip_with Qmult a b;
  np_cos := fun a => a;
  np_sin := fun a => a
|}.
#[local] Existing Instance numpy.

(** A header with the given [rcmb] and cell counts. *)
Definition header (rcmb : @Geometry.hval numpy) (nts : list Z)
  : gmap string (@Geometry.hval numpy) :=
  list_to_map
    [("nts", Geometry.HInts nts); ("ntb", Geometry.HInt 1);
     ("aspect", Geometry.HNums [(8 # 1)%Q; (1 # 1)%Q]); ("rcmb", rcmb);
     ("e1_coord", Geometry.HArr ([(0 # 1)%Q; (1 # 1)%Q] : list Q));
     ("e2_coord", Geometry.HArr ([(0 # 1)%Q] : list Q));
     ("e3_coord", Geometry.HArr ([(0 # 1)%Q; (1 # 2)%Q] : list Q))].

(** A run directory with temperature files for snapshots 0, 1 and 2
    (steps 0, 10 and 30) and a velocity-pressure file for snapshot 2
    only. *)
Definition env : @Env numpy := {|
  args_path := "out";
  args_name := "run";
  args_scan := "t,vp,zz";
  FIELD_VAR_LIST :=
    list_to_map [("t", "t"); ("u", "vp"); ("v", "vp"); ("w", "vp");
                 ("p", "vp"); ("c", "c")];
  os_path_join := fun a b => a +:+ "/" +:+ b;
  stagyyparsers_fields := fun f =>
    if bool_decide (f = "out/run_vp00002")
    then Some (header (Geometry.HNum (-1 # 1)%Q) [64; 1; 32],
               ([[(1 # 1)%Q]; [(2 # 1)%Q]; [(3 # 1)%Q]; [(4 # 1)%Q]]
                : list (list Q)))
    else None;
  stagyyparsers_fields_only_istep := fun f =>
    if bool_decide (f = "out/run_t00000") then Some 0
    else if bool_decide (f = "out/run_t00001") then Some 10
    else if bool_decide (f = "out/run_t00002") then Some 30
    else if bool_decide (f = "out/run_vp00002") then Some 30
    else None;
  int_of_str := fun s =>
    if bool_decide (s = "7") then Some 7
    else if bool_decide (s = "-7") then Some (-7)
    else None
|}.

End Sample.

(** The value a run of inserts leaves under [k]: that of the first
    insert of [k], [UNDETERMINED] when there is none. *)
Fixpoint first_binding (ops : list (Z * pyval)) (k : Z) : pyval :=
  match ops with
  | [] => UNDETERMINED
  | (k', v) :: ops' => if bool_decide (k' = k) then v else first_binding ops' k
  end.

(** The names [__getattr__] answers from the instance rather than from
    the header: those its four regular expressions match. *)
Definition geometry_derived_names : list string :=
  ["nxtot"; "nytot"; "nztot"; "nttot"; "nptot"; "nrtot"; "nbtot";
   "x_coord"; "y_coord"; "z_coord"; "t_coord"; "p_coord"; "r_coord";
   "x_mesh"; "y_mesh"; "z_mesh"; "t_mesh"; "p_mesh"; "r_mesh"].

(** The expressions end in [$], so each of these names is matched
    with a newline after it as well. *)
Definition geometry_matched_names : list string :=
  geometry_derived_names
  ++ ((fun name => name +:+ Geometry.newline) <$> geometry_derived_names).

(** ** What the forward search relies on, and what it leaves behind *)

Module Search.
Section WithEnv.
Context {np : Numpy} {env : Env}.
Import Sdat.

(** What the index records is [None] or a step number that [steps]
    accepts: what [__missing__] and the forward search put there. *)
Definition tidy (s : StagyyData) : Prop :=
  ∀ n, Indexes.in_range n → n ∈ Indexes.keys (snaps_isteps s) →
    ∃ w, Indexes.get_istep (snaps_isteps s) n = Ok w ∧
         (w = PyNone ∨ ∃ k, w = PyInt k ∧ 0 ≤ k).

(** The parsing service reports no negative step number. *)
Definition steps_from_zero : Prop :=
  ∀ f k, stagyyparsers_fields_only_istep f = Some k → 0 ≤ k.

(** [o2] is [o], but for its [_isnap]. *)
Definition same_but_isnap (o o2 : Step_t) : Prop :=
  cls o2 = cls o ∧ istep o2 = istep o ∧ fields o2 = fields o ∧
  _irsnap o2 = _irsnap o ∧ _itsnap o2 = _itsnap o.

(** A snapshot that is absent, or whose step number is below [k0]. *)
Definition before (k0 : Z) (w : pyval) : Prop :=
  w = PyNone ∨ ∃ k, w = PyInt k ∧ 0 ≤ k < k0.

(** The step number the files give for snapshot [n]: that of the first
    kind, in the order of [pars], whose file yields one. *)
Fixpoint first_istep (pars : list string) (n : Z) : option Z :=
  match pars with
  | [] => None
  | par :: pars' =>
      match filename par (PyInt n) with
      | Ok f =>
          match stagyyparsers_fields_only_istep f with
          | Some k => Some k
          | None => first_istep pars' n
          end
      | Raise _ => None
      end
  end.

(** What [snaps[n]] leaves behind when it returns the object at [l'],
    whose step number reads [i], after at most [b] calls to the
    parsing service: the index records [i] under [n] and is otherwise
    as it was; the objects that were there are as they were, but
    possibly for the snapshot number of the step that [i] names. *)
Record resolved (b : nat) (s : StagyyData) (n : Z) (l' : nat) (i : pyval)
    (s' : StagyyData) : Prop := mk_resolved {
  res_inv : inv s';
  res_tidy : tidy s';
  res_istep : getattr_istep (ObjStep l') s' = (Ok i, s');
  res_value : i = PyNone ∨ ∃ k, i = PyInt k ∧ 0 ≤ k ∧ steps s' !! k = Some l';
  res_index : Indexes.get_istep (snaps_isteps s') n = Ok i;
  res_key : n ∈ Indexes.keys (snaps_isteps s');
  res_others : ∀ m, m ≠ n → Indexes.in_range m →
    Indexes.get_istep (snaps_isteps s') m = Indexes.get_istep (snaps_isteps s) m ∧
    (m ∈ Indexes.keys (snaps_isteps s') ↔ m ∈ Indexes.keys (snaps_isteps s));
  res_heap : ∀ l o, heap s !! l = Some o →
    ∃ o2, heap s' !! l = Some o2 ∧ same_but_isnap o o2 ∧
          (¬ (cls o = _Step ∧ istep o = i) → o2 = o);
  res_steps : ∀ k l, steps s !! k = Some l → steps s' !! k = Some l;
  res_bound : n ∉ Indexes.keys (snaps_isteps s) → i ≠ PyNone →
    ∃ o, heap s' !! l' = Some o ∧ _isnap o = PyInt n;
  res_io : ∃ probes,
    io s' = probes ++ io s ∧ Forall (fun c => c.2 = OnlyIstep) probes ∧
    (length probes ≤ b)%nat ∧
    (n ∈ Indexes.keys (snaps_isteps s) → probes = [])
}.

End WithEnv.
End Search.

(** ** The small dataset again, with a temperature record and an empty
    composition record for snapshot 2 *)

Module SampleMore.
#[local] Existing Instance Sample.numpy.

Definition env : @Env Sample.numpy := {|
  args_path := "out";
  args_name := "run";
  args_scan := "t,vp,zz";
  FIELD_VAR_LIST :=
    list_to_map [("t", "t"); ("u", "vp"); ("v", "vp"); ("w", "vp");
                 ("p", "vp"); ("c", "c")];
  os_path_join := fun a b => a +:+ "/" +:+ b;
  stagyyparsers_fields := fun f =>
    if bool_decide (f = "out/run_vp00002")
    then Some (Sample.header (Geometry.HNum (-1 # 1)%Q) [64; 1; 32],
               ([[(1 # 1)%Q]; [(2 # 1)%Q]; [(3 # 1)%Q]; [(4 # 1)%Q]]
                : list (list Q)))
    else if bool_decide (f = "out/run_t00002")
    then Some (Sample.header (Geometry.HNum (-1 # 1)%Q) [64; 1; 32],
               ([[(7 # 1)%Q]; [(8 # 1)%Q]] : list (list Q)))
    else if bool_decide (f = "out/run_c00002")
    then Some (Sample.header (Geometry.HNum (-1 # 1)%Q) [64; 1; 32],
               ([] : list (list Q)))
    else None;
  stagyyparsers_fields_only_istep := fun f =>
    if bool_decide (f = "out/run_t00000") then Some 0
    else if bool_decide (f = "out/run_t00001") then Some 10
    else if bool_decide (f = "out/run_t00002") then Some 30
    else if bool_decide (f = "out/run_vp00002") then Some 30
    else None;
  int_of_str := fun s =>
    if bool_decide (s = "7") then Some 7
    else if bool_decide (s = "-7") then Some (-7)
    else None
|}.

End SampleMore.

(** * Properties *)

(** ** Code in [SE] *)

Lemma keeps_bind {S A B} (R : relation S) `{!PreOrder R}
    (m : SE S A) (f : A → SE S B) :
  keeps R m → (∀ a, keeps R (f a)) → keeps R (m ≫= f).
Proof.
  intros Hm Hf s. unfold mbind, se_bind.
  specialize (Hm s). destruct (m s) as [[a|e] s']; simpl in *; [|done].
  etrans; [done|]. apply Hf.
Qed.

Lemma keeps_ret {S A} (R : relation S) `{!Reflexive R} (a : A) : keeps R (mret a).
Proof. intros s. done. Qed.

Lemma keeps_get {S} (R : relation S) `{!Reflexive R} : keeps R se_get.
Proof. intros s. done. Qed.

Lemma keeps_lift {S A} (R : relation S) `{!Reflexive R} (r : result A) :
  keeps R (se_lift r).
Proof. intros s. done. Qed.

Lemma keeps_raise {S A} (R : relation S) `{!Reflexive R} e :
  keeps R (se_raise (A:=A) e).
Proof. intros s. done. Qed.

Lemma keeps_weaken {S A} (R R' : relation S) (m : SE S A) :
  (∀ s s', R s s' → R' s s') → keeps R m → keeps R' m.
Proof. intros HR Hm s. apply HR, Hm. Qed.


(** ** Python lists and [bisect_left] *)

Lemma norm_index_Some len i j :
  norm_index len i = Some j → (j < len)%nat.
Proof.
  unfold norm_index. destruct (i <? 0) eqn:Hi;
    case_match; intros; simplify_eq; lia.
Qed.

Lemma list_getitem_Ok {A} (l : list A) i x :
  list_getitem l i = Ok x ↔ ∃ j, norm_index (length l) i = Some j ∧ l !! j = Some x.
Proof.
  unfold list_getitem. split.
  - destruct (norm_index _ _) as [j|]; [|done].
    destruct (l !! j) eqn:E; [|done]. intros [= <-]. eauto.
  - intros (j & -> & ->). done.
Qed.

Lemma list_getitem_Raise {A} (l : list A) i :
  norm_index (length l) i = None → list_getitem l i = Raise IndexError.
Proof. unfold list_getitem. by intros ->. Qed.

Lemma list_getitem_nat {A} (l : list A) (j : nat) x :
  l !! j = Some x → list_getitem l (Z.of_nat j) = Ok x.
Proof.
  intros Hj. apply list_getitem_Ok. exists j. split; [|done].
  apply lookup_lt_Some in Hj. unfold norm_index.
  destruct (Z.of_nat j <? 0) eqn:E; [lia|].
  rewrite (proj2 (Z.leb_le _ _)) by lia. rewrite (proj2 (Z.ltb_lt _ _)) by lia.
  simpl. by rewrite Nat2Z.id.
Qed.

Lemma sorted_lookup_lt (a : list Z) i j x y :
  StronglySorted Z.lt a → a !! i = Some x → a !! j = Some y → (i < j)%nat → x < y.
Proof.
  intros Hs. revert i j. induction Hs as [|z a Hs IH Hz]; intros i j Hi Hj Hij.
  - done.
  - destruct j as [|j]; [lia|]. destruct i as [|i]; simpl in *.
    + simplify_eq. rewrite Forall_forall in Hz. apply Hz.
      by eapply list_elem_of_lookup_2.
    + eapply (IH i j); [done..|lia].
Qed.

Lemma sorted_lookup_le (a : list Z) i j x y :
  StronglySorted Z.lt a → a !! i = Some x → a !! j = Some y → (i ≤ j)%nat → x ≤ y.
Proof.
  intros Hs Hi Hj Hij. destruct (decide (i = j)) as [->|].
  - simplify_eq. lia.
  - assert (x < y); [|lia]. eapply sorted_lookup_lt; [done..|lia].
Qed.

Section bisect.
Variables (a : list Z) (x : Z).
Hypothesis a_sorted : StronglySorted Z.lt a.

Lemma bisect_loop_splits turns lo hi :
  (lo ≤ hi ≤ length a)%nat → (hi - lo ≤ turns)%nat →
  (∀ j y, a !! j = Some y → (j < lo)%nat → y < x) →
  (∀ j y, a !! j = Some y → (hi ≤ j)%nat → x ≤ y) →
  (bisect_loop turns a x lo hi ≤ length a)%nat ∧
  splits a x (bisect_loop turns a x lo hi).
Proof.
  revert lo hi. induction turns as [|turns IH]; intros lo hi Hb Ht Hlo Hhi;
    cbn [bisect_loop].
  - assert (lo = hi) as -> by lia. split; [lia|]. by split.
  - destruct (lo <? hi)%nat eqn:Hlt.
    + apply Nat.ltb_lt in Hlt.
      pose proof (Nat.div_mod_eq (lo + hi) 2) as Hd.
      pose proof (Nat.mod_upper_bound (lo + hi) 2 ltac:(lia)) as Hm.
      set (mid := ((lo + hi) / 2)%nat) in *.
      assert (lo ≤ mid < hi)%nat as Hmid by lia.
      destruct (lookup_lt_is_Some_2 a mid ltac:(lia)) as [m Hmv].
      rewrite (nth_lookup_Some _ _ _ _ Hmv).
      destruct (m <? x) eqn:Hcmp.
      * apply Z.ltb_lt in Hcmp. apply IH; [lia|lia| |done].
        intros j y Hj Hjm.
        pose proof (sorted_lookup_le a j mid y m a_sorted Hj Hmv ltac:(lia)). lia.
      * apply Z.ltb_ge in Hcmp. apply IH; [lia|lia|done|].
        intros j y Hj Hjm.
        pose proof (sorted_lookup_le a mid j m y a_sorted Hmv Hj ltac:(lia)). lia.
    + apply Nat.ltb_ge in Hlt. assert (lo = hi) as -> by lia.
      split; [lia|]. by split.
Qed.

(** Turns beyond the width of the interval are never used: the loop
    has ended by then, as the [while] of the library does. *)
Lemma bisect_loop_enough turns extra lo hi :
  (hi - lo ≤ turns)%nat →
  bisect_loop (turns + extra) a x lo hi = bisect_loop turns a x lo hi.
Proof.
  revert lo hi. induction turns as [|turns IH]; intros lo hi Ht.
  - destruct extra as [|extra]; [done|]. cbn [Nat.add bisect_loop].
    by rewrite (proj2 (Nat.ltb_ge _ _)) by lia.
  - cbn [Nat.add bisect_loop]. destruct (lo <? hi)%nat eqn:Hlt; [|done].
    apply Nat.ltb_lt in Hlt.
    pose proof (Nat.div_mod_eq (lo + hi) 2) as Hd.
    pose proof (Nat.mod_upper_bound (lo + hi) 2 ltac:(lia)) as Hm.
    destruct (nth _ a 0 <? x); apply IH; lia.
Qed.

Lemma bisect_left_splits :
  (bisect_left a x ≤ length a)%nat ∧ splits a x (bisect_left a x).
Proof.
  apply bisect_loop_splits; [lia|lia| |].
  - intros; lia.
  - intros j y Hj ?. apply lookup_lt_Some in Hj. lia.
Qed.

(** Only one position splits a sorted list. *)
Lemma splits_unique i j :
  (i ≤ length a)%nat → (j ≤ length a)%nat → splits a x i → splits a x j → i = j.
Proof.
  intros Hi Hj [Hi1 Hi2] [Hj1 Hj2].
  destruct (decide (i < j)%nat) as [Hlt|Hge].
  - destruct (lookup_lt_is_Some_2 a i ltac:(lia)) as [y Hy].
    pose proof (Hi2 i y Hy ltac:(lia)). pose proof (Hj1 i y Hy Hlt). lia.
  - destruct (decide (j < i)%nat) as [Hlt|]; [|lia].
    destruct (lookup_lt_is_Some_2 a j ltac:(lia)) as [y Hy].
    pose proof (Hj2 j y Hy ltac:(lia)). pose proof (Hi1 j y Hy Hlt). lia.
Qed.

(** The test of [_isnap_idx] answers whether [x] is in the list. *)
Lemma bisect_left_present :
  a !! bisect_left a x = Some x ↔ x ∈ a.
Proof.
  destruct bisect_left_splits as [Hlen [H1 H2]]. split.
  - intros Hx. by eapply list_elem_of_lookup_2.
  - intros [j Hj]%list_elem_of_lookup_1.
    destruct (decide (j < bisect_left a x)%nat) as [Hlt|Hge].
    { pose proof (H1 j x Hj Hlt). lia. }
    destruct (lookup_lt_is_Some_2 a (bisect_left a x)) as [y Hy].
    { apply lookup_lt_Some in Hj. lia. }
    pose proof (H2 _ y Hy ltac:(lia)).
    pose proof (sorted_lookup_le a _ j y x a_sorted Hy Hj ltac:(lia)).
    assert (y = x) as -> by lia. done.
Qed.
End bisect.

(** ** [list.insert] at the position found by [bisect_left] *)

Lemma length_list_insert_at {A} i (x : A) l :
  length (list_insert_at i x l) = S (length l).
Proof.
  unfold list_insert_at. rewrite length_app. simpl.
  rewrite length_take, length_drop. lia.
Qed.

Lemma elem_of_list_insert_at {A} i (x y : A) l :
  y ∈ list_insert_at i x l ↔ y = x ∨ y ∈ l.
Proof.
  assert (y ∈ l ↔ y ∈ take i l ∨ y ∈ drop i l) as Hl
    by (by rewrite <- elem_of_app, take_drop).
  unfold list_insert_at. rewrite elem_of_app, elem_of_cons. tauto.
Qed.

Lemma lookup_list_insert_at {A} i (x : A) l :
  (i ≤ length l)%nat → list_insert_at i x l !! i = Some x.
Proof.
  intros Hi. unfold list_insert_at.
  rewrite lookup_app_r by (rewrite length_take; lia).
  rewrite length_take_le by done. by rewrite Nat.sub_diag.
Qed.

Lemma splits_insert_at (a : list Z) x i :
  (i ≤ length a)%nat → splits a x i → splits (list_insert_at i x a) x i.
Proof.
  intros Hi [H1 H2]. unfold list_insert_at. split; intros j y Hj Hij.
  - rewrite lookup_app_l in Hj by (rewrite length_take; lia).
    apply lookup_take_Some in Hj as [Hj _]. eauto.
  - rewrite lookup_app_r in Hj by (rewrite length_take; lia).
    rewrite length_take_le in Hj by done.
    destruct (j - i)%nat as [|n] eqn:E; simpl in Hj.
    + simplify_eq. lia.
    + rewrite lookup_drop in Hj. apply (H2 _ _ Hj). lia.
Qed.

Lemma sorted_insert_at (a : list Z) x i :
  StronglySorted Z.lt a → splits a x i → x ∉ a →
  StronglySorted Z.lt (list_insert_at i x a).
Proof.
  intros Hs [H1 H2] Hx. unfold list_insert_at.
  rewrite <- (take_drop i a) in Hs.
  apply StronglySorted_app in Hs as (Hcross & Hl & Hr).
  assert (∀ y, y ∈ drop i a → x < y) as Hgt.
  { intros y Hy. apply list_elem_of_lookup_1 in Hy as [j Hj].
    rewrite lookup_drop in Hj.
    pose proof (H2 _ _ Hj ltac:(lia)).
    assert (y ≠ x); [|lia]. intros ->. apply Hx.
    by eapply list_elem_of_lookup_2. }
  assert (∀ y, y ∈ take i a → y < x) as Hlt.
  { intros y Hy. apply elem_of_take in Hy as (j & Hj & Hji). eauto. }
  apply StronglySorted_app. split_and!; [|done|].
  - intros x1 x2 Hx1 [->|Hx2]%elem_of_cons; [by apply Hlt|].
    pose proof (Hlt _ Hx1). pose proof (Hgt _ Hx2). lia.
  - apply StronglySorted_cons. split; [|done].
    apply Forall_forall. exact Hgt.
Qed.

Lemma elem_of_concat_lookup {A} (x : A) (ls : list (list A)) :
  x ∈ concat ls ↔ ∃ b l, ls !! b = Some l ∧ x ∈ l.
Proof.
  rewrite list_elem_of_In, in_concat. split.
  - intros (l & Hl & Hx). apply list_elem_of_In, list_elem_of_lookup_1 in Hl as [b Hb].
    exists b, l. by rewrite list_elem_of_In.
  - intros (b & l & Hb & Hx). exists l. rewrite <- !list_elem_of_In.
    split; [by eapply list_elem_of_lookup_2|done].
Qed.

(** ** The index *)

Module IndexesFacts.
Import Indexes.

Lemma norm_index_in_range k :
  in_range k → norm_index 400 (k / 250) = Some (bucket_of k).
Proof.
  unfold in_range, norm_index, bucket_of. intros Hk.
  assert (-400 ≤ k / 250 < 400) as Hq by (Z.div_mod_to_equations; lia).
  destruct (k / 250 <? 0) eqn:E.
  - apply Z.ltb_lt in E.
    rewrite (proj2 (Z.leb_le _ _)) by lia. rewrite (proj2 (Z.ltb_lt _ _)) by lia.
    simpl. f_equal. f_equal. Z.div_mod_to_equations; lia.
  - apply Z.ltb_ge in E.
    rewrite (proj2 (Z.leb_le _ _)) by lia. rewrite (proj2 (Z.ltb_lt _ _)) by lia.
    simpl. f_equal. f_equal. Z.div_mod_to_equations; lia.
Qed.

Lemma norm_index_out_of_range k :
  ¬ in_range k → norm_index 400 (k / 250) = None.
Proof.
  unfold in_range, norm_index. intros Hk.
  assert (k / 250 < -400 ∨ 400 ≤ k / 250) as Hq by (Z.div_mod_to_equations; lia).
  destruct (k / 250 <? 0) eqn:E.
  - apply Z.ltb_lt in E. rewrite (proj2 (Z.leb_gt _ _)) by lia. done.
  - apply Z.ltb_ge in E. rewrite (proj2 (Z.ltb_ge _ _)) by lia.
    by rewrite andb_false_r.
Qed.

Lemma bucket_of_lt k : (bucket_of k < 400)%nat.
Proof. unfold bucket_of. Z.div_mod_to_equations; lia. Qed.

Lemma wf_bucket ix b :
  wf ix → (b < 400)%nat →
  ∃ ks vs, isnap ix !! b = Some ks ∧ istep ix !! b = Some vs ∧
           length vs = length ks ∧ StronglySorted Z.lt ks.
Proof.
  intros Hwf Hb.
  destruct (lookup_lt_is_Some_2 (isnap ix) b) as [ks Hks];
    [by rewrite (wf_isnap_len _ Hwf)|].
  destruct (lookup_lt_is_Some_2 (istep ix) b) as [vs Hvs];
    [by rewrite (wf_istep_len _ Hwf)|].
  exists ks, vs. split_and!; [done|done|by eapply wf_parallel|by eapply wf_sorted].
Qed.

Lemma bucket_getitem {A} (l : list (list A)) k x :
  length l = 400%nat → in_range k → l !! bucket_of k = Some x →
  list_getitem l (k / 250) = Ok x.
Proof.
  intros Hl Hk Hx. apply list_getitem_Ok. exists (bucket_of k).
  by rewrite Hl, norm_index_in_range.
Qed.

Lemma keys_bucket ix k ks :
  wf ix → isnap ix !! bucket_of k = Some ks → k ∈ keys ix ↔ k ∈ ks.
Proof.
  intros Hwf Hks. unfold keys. rewrite elem_of_concat_lookup. split.
  - intros (b & l & Hb & Hx).
    destruct (wf_home _ Hwf _ _ _ Hb Hx) as [_ <-]. by simplify_eq.
  - intros Hx. eauto.
Qed.

Lemma _isnap_idx_eval ix k ks :
  wf ix → in_range k → isnap ix !! bucket_of k = Some ks →
  _isnap_idx ix k = Ok (k / 250, bisect_left ks k, bool_decide (k ∈ ks)).
Proof.
  intros Hwf Hk Hks. unfold _isnap_idx.
  change (100000 / _nlst) with 250.
  rewrite (bucket_getitem _ _ ks (wf_isnap_len _ Hwf) Hk Hks). simpl.
  do 2 f_equal.
  pose proof (wf_sorted _ Hwf _ _ Hks) as Hs.
  pose proof (bisect_left_present ks k Hs) as Hp.
  destruct (decide (k ∈ ks)) as [Hin|Hnin].
  - rewrite bool_decide_eq_true_2 by done.
    apply Hp in Hin. rewrite Hin, Z.eqb_refl, andb_true_r.
    apply Nat.ltb_lt. by eapply lookup_lt_Some.
  - rewrite bool_decide_eq_false_2 by done. clear Hp.
    destruct (ks !! bisect_left ks k) as [k'|] eqn:E; [|by rewrite andb_false_r].
    destruct (k' =? k) eqn:Ek; [|by rewrite andb_false_r].
    apply Z.eqb_eq in Ek as ->. by apply (bisect_left_present ks k Hs) in E.
Qed.

Lemma _isnap_idx_out ix k :
  length (isnap ix) = 400%nat → ¬ in_range k → _isnap_idx ix k = Raise IndexError.
Proof.
  intros Hl Hk. unfold _isnap_idx. change (100000 / _nlst) with 250.
  rewrite list_getitem_Raise; [done|]. rewrite Hl. by apply norm_index_out_of_range.
Qed.

Lemma get_istep_out ix k :
  length (isnap ix) = 400%nat → ¬ in_range k → get_istep ix k = Raise IndexError.
Proof. intros Hl Hk. unfold get_istep. by rewrite _isnap_idx_out. Qed.

Lemma insert_out ix k v :
  length (isnap ix) = 400%nat → ¬ in_range k → insert ix k v = Raise IndexError.
Proof. intros Hl Hk. unfold insert. by rewrite _isnap_idx_out. Qed.

Lemma get_istep_absent ix k :
  wf ix → in_range k → k ∉ keys ix → get_istep ix k = Ok UNDETERMINED.
Proof.
  intros Hwf Hk Hnin.
  destruct (wf_bucket ix (bucket_of k) Hwf (bucket_of_lt k))
    as (ks & vs & Hks & Hvs & Hlen & Hs).
  unfold get_istep. rewrite (_isnap_idx_eval _ _ ks) by done. simpl.
  rewrite bool_decide_eq_false_2; [done|]. by rewrite <- keys_bucket.
Qed.

Lemma get_istep_known ix k :
  wf ix → in_range k → k ∈ keys ix →
  ∃ ks vs v, isnap ix !! bucket_of k = Some ks ∧ istep ix !! bucket_of k = Some vs ∧
             vs !! bisect_left ks k = Some v ∧ get_istep ix k = Ok v.
Proof.
  intros Hwf Hk Hin.
  destruct (wf_bucket ix (bucket_of k) Hwf (bucket_of_lt k))
    as (ks & vs & Hks & Hvs & Hlen & Hs).
  rewrite (keys_bucket _ _ ks) in Hin by done.
  pose proof (proj2 (bisect_left_present ks k Hs) Hin) as Hp.
  destruct (lookup_lt_is_Some_2 vs (bisect_left ks k)) as [v Hv].
  { rewrite Hlen. by eapply lookup_lt_Some. }
  exists ks, vs, v. split_and!; [done..|].
  unfold get_istep. rewrite (_isnap_idx_eval _ _ ks) by done. simpl.
  rewrite bool_decide_eq_true_2 by done.
  rewrite (bucket_getitem _ _ vs (wf_istep_len _ Hwf) Hk Hvs). simpl.
  by apply list_getitem_nat.
Qed.

(** A known snapshot number: [insert] does nothing. *)
Lemma insert_known ix k v :
  wf ix → in_range k → k ∈ keys ix → insert ix k v = Ok ix.
Proof.
  intros Hwf Hk Hin.
  destruct (wf_bucket ix (bucket_of k) Hwf (bucket_of_lt k))
    as (ks & vs & Hks & Hvs & Hlen & Hs).
  unfold insert. rewrite (_isnap_idx_eval _ _ ks) by done. simpl.
  rewrite bool_decide_eq_true_2; [done|]. by rewrite <- keys_bucket.
Qed.

(** A new snapshot number: [insert] records it, and keeps the shape. *)
Lemma insert_fresh ix k v :
  wf ix → in_range k → k ∉ keys ix →
  ∃ ix', insert ix k v = Ok ix' ∧ wf ix' ∧ get_istep ix' k = Ok v ∧
         (∀ k', k' ∈ keys ix' ↔ k' = k ∨ k' ∈ keys ix).
Proof.
  intros Hwf Hk Hnin.
  destruct (wf_bucket ix (bucket_of k) Hwf (bucket_of_lt k))
    as (ks & vs & Hks & Hvs & Hlen & Hs).
  pose proof (wf_isnap_len _ Hwf) as Hl1. pose proof (wf_istep_len _ Hwf) as Hl2.
  assert (k ∉ ks) as Hnin' by (by rewrite <- keys_bucket).
  destruct (bisect_left_splits ks k Hs) as [Hi Hsp].
  set (i := bisect_left ks k) in *.
  set (ix' := {| isnap := <[bucket_of k := list_insert_at i k ks]> (isnap ix);
                 istep := <[bucket_of k := list_insert_at i v vs]> (istep ix) |}).
  assert (insert ix k v = Ok ix') as Hins.
  { unfold insert. rewrite (_isnap_idx_eval _ _ ks) by done. simpl.
    rewrite bool_decide_eq_false_2 by done.
    rewrite (bucket_getitem _ _ ks Hl1 Hk Hks). simpl.
    rewrite (bucket_getitem _ _ vs Hl2 Hk Hvs). simpl.
    rewrite Hl1, Hl2, norm_index_in_range by done. done. }
  assert (wf ix') as Hwf'.
  { split; simpl.
    - by rewrite length_insert.
    - by rewrite length_insert.
    - intros b l Hb. apply list_lookup_insert_Some in Hb as [(<- & <- & _)|[Hne Hb]].
      + by apply sorted_insert_at.
      + by eapply wf_sorted.
    - intros b l k' Hb Hk'.
      apply list_lookup_insert_Some in Hb as [(<- & <- & _)|[Hne Hb]].
      + apply elem_of_list_insert_at in Hk' as [->|Hk']; [done|].
        by eapply wf_home.
      + by eapply wf_home.
    - intros b l1 l2 Hb1 Hb2.
      apply list_lookup_insert_Some in Hb1 as [(<- & <- & _)|[Hne Hb1]].
      + rewrite list_lookup_insert_eq in Hb2 by (rewrite Hl2; apply bucket_of_lt).
        simplify_eq. rewrite !length_list_insert_at. by rewrite Hlen.
      + rewrite list_lookup_insert_ne in Hb2 by done. by eapply wf_parallel. }
  assert (∀ k', k' ∈ keys ix' ↔ k' = k ∨ k' ∈ keys ix) as Hkeys.
  { intros k'. unfold keys. rewrite !elem_of_concat_lookup. simpl. split.
    - intros (b & l & Hb & Hx).
      apply list_lookup_insert_Some in Hb as [(<- & <- & _)|[Hne Hb]].
      + apply elem_of_list_insert_at in Hx as [->|Hx]; eauto.
      + eauto.
    - intros [->|(b & l & Hb & Hx)].
      + exists (bucket_of k), (list_insert_at i k ks). split.
        * apply list_lookup_insert_eq. rewrite Hl1. apply bucket_of_lt.
        * apply elem_of_list_insert_at. by left.
      + destruct (decide (b = bucket_of k)) as [->|Hne].
        * exists (bucket_of k), (list_insert_at i k ks). split.
          -- apply list_lookup_insert_eq. rewrite Hl1. apply bucket_of_lt.
          -- simplify_eq. apply elem_of_list_insert_at. by right.
        * exists b, l. by rewrite list_lookup_insert_ne. }
  exists ix'. split_and!; [done..| |done].
  assert (isnap ix' !! bucket_of k = Some (list_insert_at i k ks)) as Hks'.
  { simpl. apply list_lookup_insert_eq. rewrite Hl1. apply bucket_of_lt. }
  assert (istep ix' !! bucket_of k = Some (list_insert_at i v vs)) as Hvs'.
  { simpl. apply list_lookup_insert_eq. rewrite Hl2. apply bucket_of_lt. }
  assert (bisect_left (list_insert_at i k ks) k = i) as Hbis.
  { pose proof (wf_sorted _ Hwf' _ _ Hks') as Hs'.
    destruct (bisect_left_splits _ k Hs') as [Hi' Hsp'].
    apply (splits_unique (list_insert_at i k ks) k); [done| |done|].
    - rewrite length_list_insert_at. lia.
    - by apply splits_insert_at. }
  destruct (get_istep_known ix' k Hwf' Hk) as (ks0 & vs0 & v0 & Hks0 & Hvs0 & Hv0 & ->).
  { apply Hkeys. by left. }
  rewrite Hks' in Hks0. rewrite Hvs' in Hvs0. simplify_eq.
  rewrite Hbis, lookup_list_insert_at in Hv0 by lia. by simplify_eq.
Qed.

Lemma wf_init : wf init.
Proof.
  split; unfold init; cbn [isnap istep].
  - by rewrite length_replicate.
  - by rewrite length_replicate.
  - intros b ks [-> _]%lookup_replicate. constructor.
  - intros b ks k [-> _]%lookup_replicate Hk. by apply elem_of_nil in Hk.
  - intros b ks vs [-> _]%lookup_replicate [-> _]%lookup_replicate. done.
Qed.

Lemma keys_init k : k ∉ keys init.
Proof.
  unfold keys, init; cbn [isnap]. rewrite elem_of_concat_lookup.
  intros (b & l & [-> _]%lookup_replicate & Hk). by apply elem_of_nil in Hk.
Qed.

(** Whatever [insert] is given, it either raises and leaves the
    index alone, or returns a well-shaped index that holds the old
    numbers and the new one. *)
Lemma insert_wf ix k v ix' :
  wf ix → insert ix k v = Ok ix' →
  wf ix' ∧ in_range k ∧ (∀ k', k' ∈ keys ix' ↔ k' = k ∨ k' ∈ keys ix).
Proof.
  intros Hwf Hins.
  destruct (decide (in_range k)) as [Hk|Hk].
  - destruct (decide (k ∈ keys ix)) as [Hin|Hnin].
    + rewrite insert_known in Hins by done. simplify_eq.
      split_and!; [done..|]. intros k'. split; [auto|]. by intros [->|].
    + destruct (insert_fresh ix k v Hwf Hk Hnin) as (ix'' & Hins' & ? & ? & ?).
      rewrite Hins' in Hins. by simplify_eq.
  - rewrite insert_out in Hins; [done|by apply wf_isnap_len|done].
Qed.

Lemma inserts_wf ops ix ix' :
  wf ix → inserts ops ix = Ok ix' →
  wf ix' ∧ ∀ k, k ∈ keys ix' ↔ k ∈ ops.*1 ∨ k ∈ keys ix.
Proof.
  revert ix. induction ops as [|[k v] ops IH]; intros ix Hwf Hrun; simpl in *.
  - simplify_eq. split; [done|]. intros k. rewrite elem_of_nil. tauto.
  - destruct (insert ix k v) as [ix1|] eqn:Hins; simpl in Hrun; [|done].
    destruct (insert_wf _ _ _ _ Hwf Hins) as (Hwf1 & _ & Hk1).
    destruct (IH _ Hwf1 Hrun) as [Hwf' Hk'].
    split; [done|]. intros k'. rewrite Hk', Hk1, elem_of_cons. tauto.
Qed.

End IndexesFacts.

(** C2, as amended. On an index built by any run of inserts and for a
    snapshot number [0 <= isnap]: when [isnap < 100000], lookup and
    insertion succeed, reading list [isnap // 250], one of the 400;
    from 100000 on both raise [IndexError]. *)
Theorem index_defined_below_100000 ops ix isnap v :
  Indexes.inserts ops Indexes.init = Ok ix → 0 ≤ isnap →
  (isnap < 100000 →
     0 ≤ isnap / (100000 / Indexes._nlst) < Indexes._nlst ∧
     (∃ bucket,
        list_getitem (Indexes.isnap ix) (isnap / (100000 / Indexes._nlst))
        = Ok bucket) ∧
     (∃ r, Indexes.get_istep ix isnap = Ok r) ∧
     (∃ ix', Indexes.insert ix isnap v = Ok ix')) ∧
  (100000 ≤ isnap →
     Indexes.get_istep ix isnap = Raise IndexError ∧
     Indexes.insert ix isnap v = Raise IndexError).
Proof.
  intros Hrun Hk.
  destruct (IndexesFacts.inserts_wf _ _ _ IndexesFacts.wf_init Hrun) as [Hwf _].
  split.
  - intros Hlt. assert (Indexes.in_range isnap) as Hr by (unfold Indexes.in_range; lia).
    change (100000 / Indexes._nlst) with 250. change Indexes._nlst with 400.
    split; [Z.div_mod_to_equations; lia|]. split.
    { destruct (IndexesFacts.wf_bucket ix _ Hwf (IndexesFacts.bucket_of_lt isnap))
        as (ks & _ & Hks & _).
      exists ks. by apply IndexesFacts.bucket_getitem; [apply Indexes.wf_isnap_len|..]. }
    destruct (decide (isnap ∈ Indexes.keys ix)) as [Hin|Hnin].
    + destruct (IndexesFacts.get_istep_known _ _ Hwf Hr Hin) as (? & ? & r & _ & _ & _ & Hg).
      split; [by exists r|]. exists ix. by apply IndexesFacts.insert_known.
    + split; [exists UNDETERMINED; by apply IndexesFacts.get_istep_absent|].
      destruct (IndexesFacts.insert_fresh _ _ v Hwf Hr Hnin) as (ix' & ? & _). by exists ix'.
  - intros Hge. assert (¬ Indexes.in_range isnap) as Hr by (unfold Indexes.in_range; lia).
    pose proof (Indexes.wf_isnap_len _ Hwf).
    split; [by apply IndexesFacts.get_istep_out|by apply IndexesFacts.insert_out].
Qed.

Lemma index_defined_below_100000_witness :
  ∃ ix, Indexes.inserts [(5, PyInt 2); (7000, PyNone)] Indexes.init = Ok ix ∧
        (∃ r, Indexes.get_istep ix 99999 = Ok r) ∧
        Indexes.insert ix 100000 PyNone = Raise IndexError.
Proof.
  destruct (Indexes.inserts [(5, PyInt 2); (7000, PyNone)] Indexes.init)
    as [ix|e] eqn:E; [|vm_compute in E; discriminate E].
  exists ix. split; [reflexivity|]. split.
  - apply (index_defined_below_100000 _ ix 99999 PyNone E); lia.
  - apply (index_defined_below_100000 _ ix 100000 PyNone E); lia.
Defined.

(** C2 as stated fails: snapshot number 100000 is non-negative, and
    both operations raise on a fresh index. *)
Lemma index_raises_at_100000 :
  Indexes.get_istep Indexes.init 100000 = Raise IndexError ∧
  Indexes.insert Indexes.init 100000 (PyInt 0) = Raise IndexError.
Proof. split; vm_compute; reflexivity. Qed.

(** C3, as amended. On an index built by any run of inserts, for a
    snapshot number [-100000 <= isnap < 100000] that was not inserted:
    lookup answers [UNDETERMINED]; after [insert(isnap, v)] lookup
    answers [v]; and a further [insert(isnap, v')] returns the index
    as it is. *)
Theorem index_first_writer_wins ops ix isnap v v' :
  Indexes.inserts ops Indexes.init = Ok ix →
  -100000 ≤ isnap < 100000 → isnap ∉ ops.*1 →
  Indexes.get_istep ix isnap = Ok UNDETERMINED ∧
  ∃ ix', Indexes.insert ix isnap v = Ok ix' ∧
         Indexes.get_istep ix' isnap = Ok v ∧
         Indexes.insert ix' isnap v' = Ok ix' ∧
         Indexes.get_istep ix' isnap = Ok v.
Proof.
  intros Hrun Hr Hnew.
  destruct (IndexesFacts.inserts_wf _ _ _ IndexesFacts.wf_init Hrun) as [Hwf Hkeys].
  assert (isnap ∉ Indexes.keys ix) as Hnin.
  { rewrite Hkeys. intros [?|Hk]; [done|]. by apply IndexesFacts.keys_init in Hk. }
  split; [by apply IndexesFacts.get_istep_absent|].
  destruct (IndexesFacts.insert_fresh _ _ v Hwf Hr Hnin) as (ix' & Hins & Hwf' & Hget & Hk').
  exists ix'. split_and!; [done..| |done].
  apply IndexesFacts.insert_known; [done..|]. apply Hk'. by left.
Qed.

Lemma index_first_writer_wins_witness :
  ∃ ix, Indexes.inserts [(5, PyInt 2); (7000, PyNone)] Indexes.init = Ok ix ∧
        Indexes.get_istep ix 7 = Ok UNDETERMINED ∧
        ∃ ix', Indexes.insert ix 7 (PyInt 3) = Ok ix' ∧
               Indexes.get_istep ix' 7 = Ok (PyInt 3) ∧
               Indexes.insert ix' 7 (PyInt 9) = Ok ix' ∧
               Indexes.get_istep ix' 7 = Ok (PyInt 3).
Proof.
  destruct (Indexes.inserts [(5, PyInt 2); (7000, PyNone)] Indexes.init)
    as [ix|e] eqn:E; [|vm_compute in E; discriminate E].
  exists ix. split; [reflexivity|].
  apply (index_first_writer_wins _ ix 7 (PyInt 3) (PyInt 9) E).
  - lia.
  - intros Hin. apply list_elem_of_In in Hin. simpl in Hin. intuition lia.
Defined.

(** C3 as stated fails for a snapshot number past the lists: on a
    fresh index, lookup of 100000 raises instead of answering
    [UNDETERMINED], and so does its insertion. *)
Lemma index_contract_fails_at_100000 :
  Indexes.get_istep Indexes.init 100000 ≠ Ok UNDETERMINED ∧
  Indexes.insert Indexes.init 100000 (PyInt 1) = Raise IndexError.
Proof. split; vm_compute; [discriminate|reflexivity]. Qed.

(** ** Geometry *)

Module GeometryFacts.
Section WithNumpy.
Context `{Numpy}.
Import Geometry.

Implicit Types (h : gmap string hval) (self : t).

Lemma rcmb_eval self h :
  rcmb self h =
  match h !! "rcmb" with
  | None => Raise KeyError
  | Some HNone => Ok None
  | Some (HNum q) => Ok (Some q)
  | Some (HInt z) => Ok (Some (inject_Z z))
  | Some _ => Raise TypeError
  end.
Proof.
  unfold rcmb. change (__getattr__ self h "rcmb") with (GHeader <$> hget h "rcmb").
  unfold hget. by destruct (h !! "rcmb") as [[]|].
Qed.

Lemma twod_xz_eval self h nx ny nz b :
  ntot (_shape self) = [nx; ny; nz; b] → twod_xz self h = Ok (ny =? 1).
Proof.
  intros Hn. unfold twod_xz.
  change (__getattr__ self h "nytot")
    with (GInt <$> list_getitem (ntot (_shape self)) 1).
  by rewrite Hn.
Qed.

Lemma twod_yz_eval self h nx ny nz b :
  ntot (_shape self) = [nx; ny; nz; b] → twod_yz self h = Ok (nx =? 1).
Proof.
  intros Hn. unfold twod_yz.
  change (__getattr__ self h "nxtot")
    with (GInt <$> list_getitem (ntot (_shape self)) 0).
  by rewrite Hn.
Qed.


(** *** What [__init__] does to the header *)

#[local] Instance fills_rcmb_preorder r : PreOrder (fills_rcmb r).
Proof.
  split.
  - intros h. by left.
  - intros h1 h2 h3 [->|[H1 ->]] [->|[H2 ->]].
    + by left.
    + by right.
    + by right.
    + by rewrite lookup_insert_eq in H2.
Qed.

Lemma classify_header self shape aspect :
  keeps (fills_rcmb (par_r_cmb (_par self))) (classify self shape aspect).
Proof.
  intros h.
  unfold classify, mbind, se_bind, se_get, se_lift, se_modify, se_raise, mret, se_ret.
  rewrite rcmb_eval. destruct (h !! "rcmb") as [[]|] eqn:Hr; simpl;
    try (by left); repeat (case_match; simplify_eq/=; try (by left));
    by right.
Qed.

Lemma flag_axi_header self shape : keeps eq (flag_axi self shape).
Proof.
  intros h. unfold flag_axi, mbind, se_bind, se_get, se_lift, mret, se_ret. simpl.
  repeat (case_match; simplify_eq/=; try done).
Qed.

Lemma build_meshes_header self : keeps eq (build_meshes self).
Proof.
  intros h.
  unfold build_meshes, mbind, se_bind, se_get, se_lift, se_raise, mret, se_ret. simpl.
  repeat (case_match; simplify_eq/=; try done).
Qed.

Lemma init_header par : keeps (fills_rcmb (par_r_cmb par)) (__init__ par).
Proof.
  unfold __init__.
  apply keeps_bind; [apply _|apply keeps_get, _|intros h].
  apply keeps_bind; [apply _|apply keeps_lift, _|intros nt].
  apply keeps_bind; [apply _|apply keeps_lift, _|intros aspect].
  apply keeps_bind; [apply _|apply classify_header|intros self].
  apply keeps_bind; [apply _| |intros self'].
  - eapply keeps_weaken; [|apply flag_axi_header]. intros ?? ->. by left.
  - eapply keeps_weaken; [|apply build_meshes_header]. intros ?? ->. by left.
Qed.

(** When [__init__] returns, an [rcmb] that was [None] has been
    filled in. *)
Lemma init_fills par h g h' :
  __init__ par h = (Ok g, h') → h !! "rcmb" = Some HNone →
  h' = <["rcmb" := HNum (par_r_cmb par)]> h.
Proof.
  intros Hinit Hr. unfold __init__ in Hinit.
  unfold mbind at 1 2 3 4, se_bind, se_get, se_lift in Hinit.
  destruct (read_ntot h) as [nt|]; [|done].
  destruct (read_aspect h) as [aspect|]; [|done].
  set (self := mk par None None None _) in Hinit.
  assert (snd (classify self (str_lower (par_shape par)) aspect h)
          = <["rcmb" := HNum (par_r_cmb par)]> h) as Hc.
  { unfold classify, mbind, se_bind, se_get, se_lift, se_modify, se_raise, mret, se_ret.
    rewrite rcmb_eval, Hr. simpl. repeat (case_match; simplify_eq/=; try done). }
  destruct (classify self _ aspect h) as [[self1|] h1]; [|done]. simpl in Hc. subst h1.
  pose proof (flag_axi_header self1 (str_lower (par_shape par))
                (<["rcmb" := HNum (par_r_cmb par)]> h)) as Hf.
  unfold mbind, se_bind in Hinit.
  destruct (flag_axi self1 _ _) as [[self2|] h2]; [|done]. simpl in Hf. subst h2.
  pose proof (build_meshes_header self2 (<["rcmb" := HNum (par_r_cmb par)]> h)) as Hb.
  rewrite Hinit in Hb. done.
Qed.

(** *** The classification when the header carries a number *)

Lemma flag_axi_eval self shape h nx ny nz b :
  ntot (_shape self) = [nx; ny; nz; b] →
  ∃ ax, flag_axi self shape h = (Ok (set_shape (set_axi ax) self), h).
Proof.
  intros Hn. unfold flag_axi, mbind, se_bind, se_get, se_lift. simpl.
  destruct (cartesian self); simpl; [|by eexists].
  rewrite (twod_xz_eval _ _ _ _ _ _ Hn). by eexists.
Qed.

Lemma getattr_coord_eval self h e1 e2 e3 :
  _coords self = Some [e1; e2; e3] →
  __getattr__ self h "x_coord" = Ok (GArr e1) ∧
  __getattr__ self h "y_coord" = Ok (GArr e2) ∧
  __getattr__ self h "z_coord" = Ok (GArr e3).
Proof.
  intros Hc.
  change (__getattr__ self h "x_coord")
    with (match _coords self with
          | Some dat => GArr <$> list_getitem dat 0
          | None => Raise TypeError
          end).
  change (__getattr__ self h "y_coord")
    with (match _coords self with
          | Some dat => GArr <$> list_getitem dat 1
          | None => Raise TypeError
          end).
  change (__getattr__ self h "z_coord")
    with (match _coords self with
          | Some dat => GArr <$> list_getitem dat 2
          | None => Raise TypeError
          end).
  by rewrite Hc.
Qed.

Lemma build_meshes_eval self h nx ny nz q :
  complete h nx ny nz → h !! "rcmb" = Some (HNum q) →
  ∃ g, build_meshes self h = (Ok g, h) ∧ _shape g = _shape self.
Proof.
  intros [_ _ _ [e1 He1] [e2 He2] [e3 He3]] Hr.
  unfold build_meshes, mbind, se_bind, se_get, se_lift, se_raise, mret, se_ret.
  unfold read_coord, hget, mbind. rewrite He1, He2, He3. cbn.
  set (self' := mk _ _ _ _ _).
  destruct (getattr_coord_eval self' h e1 e2 e3 eq_refl) as (-> & -> & ->). cbn.
  destruct (cartesian self').
  - destruct (np_meshgrid e1 e2 e3) as [[mx my] mz]. by eexists.
  - rewrite rcmb_eval, Hr.
    destruct (np_meshgrid e1 e2 (np_add_scalar e3 q)) as [[mt mp] mr]. by eexists.
Qed.

(** [__init__] on a complete header whose [rcmb] is a number: the
    header is left as it is, and the flags are those [classify]
    set. *)
Lemma init_eval par h nx ny nz q out :
  complete h nx ny nz → h !! "rcmb" = Some (HNum q) →
  (∀ b a,
     classify (mk par None None None (mk_shape false false false [nx; ny; nz; b]))
              (str_lower (par_shape par)) a h = (Ok (out b), h) ∧
     ntot (_shape (out b)) = [nx; ny; nz; b]) →
  ∃ g b, __init__ par h = (Ok g, h) ∧
         sph (_shape g) = sph (_shape (out b)) ∧
         cyl (_shape g) = cyl (_shape (out b)) ∧
         ntot (_shape g) = [nx; ny; nz; b].
Proof.
  intros Hc Hr Hcl. pose proof Hc as [Hnts [b Hb] [a Ha] _ _ _].
  destruct (Hcl b a) as [Hcl1 Hn1].
  destruct (flag_axi_eval (out b) (str_lower (par_shape par)) h _ _ _ _ Hn1)
    as [ax Hax].
  destruct (build_meshes_eval (set_shape (set_axi ax) (out b)) h _ _ _ _ Hc Hr)
    as (g & Hg & Hsg).
  exists g, b. split.
  - unfold __init__, mbind, se_bind, se_get, se_lift.
    unfold read_ntot, read_aspect, hget. rewrite Hnts, Hb, Ha. simpl.
    rewrite Hcl1, Hax. exact Hg.
  - by rewrite Hsg.
Qed.



Lemma classify_sph par h q shape a nx ny nz b :
  h !! "rcmb" = Some (HNum q) → Qle_bool 0 q = true → ny ≠ 1 →
  let self := mk par None None None (mk_shape false false false [nx; ny; nz; b]) in
  classify self shape a h
  = (Ok (set_shape (set_sph true) (set_shape (set_cyl false) self)), h).
Proof.
  intros Hr Hq Hny. unfold classify, mbind, se_bind, se_get, se_lift. simpl.
  rewrite rcmb_eval, Hr, Hq.
  by rewrite (proj2 (Z.eqb_neq _ _) Hny).
Qed.

End WithNumpy.
End GeometryFacts.




(** A grid confined to the other plane, YZ ([nxtot = 1]), is not taken
    for cylindrical, even with shape "cylindrical": it comes out
    spherical. *)
Lemma geometry_yz_plane_is_spherical `{Numpy}
    (header : gmap string Geometry.hval) (par : Geometry.par_t) (ny nz : Z) :
  Geometry.complete header 1 ny nz →
  header !! "rcmb" = Some (Geometry.HNum (1 # 2)%Q) → ny ≠ 1 →
  ∃ g, Geometry.__init__ par header = (Ok g, header) ∧
       Geometry.twod g header = Ok true ∧
       Geometry.cylindrical g = false ∧
       Geometry.spherical g = true.
Proof.
  intros Hc Hr Hny.
  destruct (GeometryFacts.init_eval par header 1 ny nz _
              (fun b => Geometry.set_shape (Geometry.set_sph true)
                          (Geometry.set_shape (Geometry.set_cyl false)
                             (Geometry.mk par None None None
                                (Geometry.mk_shape false false false [1; ny; nz; b]))))
              Hc Hr) as (g & b & Hg & Hs & Hy & Hn).
  { intros b a. split; [|done].
    by apply (GeometryFacts.classify_sph par header (1 # 2)%Q). }
  exists g. split; [done|]. split_and!.
  - unfold Geometry.twod.
    rewrite (GeometryFacts.twod_xz_eval _ _ _ _ _ _ Hn),
      (GeometryFacts.twod_yz_eval _ _ _ _ _ _ Hn).
    by rewrite (proj2 (Z.eqb_neq _ _) Hny).
  - unfold Geometry.cylindrical. by rewrite Hy.
  - unfold Geometry.spherical. by rewrite Hs.
Qed.

(** C9, as amended. Resolving a geometry leaves every entry of the
    header other than [rcmb] as it was, and [rcmb] too unless it is
    [None]; when it is [None] and [__init__] returns, the header holds
    the configuration's [r_cmb] under [rcmb] from then on. *)
Theorem geometry_header_effect `{Numpy}
    (par : Geometry.par_t) (header : gmap string Geometry.hval) :
  (header !! "rcmb" ≠ Some Geometry.HNone →
   snd (Geometry.__init__ par header) = header) ∧
  (∀ k, k ≠ "rcmb" → snd (Geometry.__init__ par header) !! k = header !! k) ∧
  (∀ g header',
     Geometry.__init__ par header = (Ok g, header') →
     header !! "rcmb" = Some Geometry.HNone →
     header' = <["rcmb" := Geometry.HNum (Geometry.par_r_cmb par)]> header).
Proof.
  pose proof (GeometryFacts.init_header par header) as Hk.
  split_and!.
  - intros Hr. by destruct Hk as [?|[? _]].
  - intros k Hne. destruct Hk as [->|[_ ->]]; [done|]. by rewrite lookup_insert_ne.
  - intros g header' Hinit Hr. by eapply GeometryFacts.init_fills.
Qed.

Lemma geometry_header_effect_witness :
  snd (Geometry.__init__ (Geometry.mk_par "Spherical" (1 # 2)%Q)
         (Sample.header (Geometry.HNum (1 # 2)%Q) [64; 32; 16]))
  = Sample.header (Geometry.HNum (1 # 2)%Q) [64; 32; 16].
Proof.
  apply (geometry_header_effect (Geometry.mk_par "Spherical" (1 # 2)%Q)
           (Sample.header (Geometry.HNum (1 # 2)%Q) [64; 32; 16])).
  vm_compute. discriminate.
Defined.

(** C9 as stated fails. On a header whose [rcmb] is [None], resolution
    overwrites that entry with the configuration's [r_cmb]; resolving
    again from the same header then reads 0.5 there and calls
    spherical what the first resolution called Cartesian. *)
Lemma geometry_resolution_overwrites_rcmb :
  let header := Sample.header Geometry.HNone [64; 32; 16] in
  let r1 := Geometry.__init__ (Geometry.mk_par "cartesian" (1 # 2)%Q) header in
  let r2 := Geometry.__init__ (Geometry.mk_par "cartesian" (1 # 2)%Q) (snd r1) in
  header !! "rcmb" = Some Geometry.HNone ∧
  snd r1 !! "rcmb" = Some (Geometry.HNum (1 # 2)%Q) ∧
  snd r1 ≠ header ∧
  Geometry.cartesian <$> fst r1 = Ok true ∧
  Geometry.spherical <$> fst r2 = Ok true.
Proof.
  split_and!; [reflexivity|reflexivity| |reflexivity|reflexivity].
  intros Heq. apply (f_equal (fun h => h !! "rcmb")) in Heq. discriminate Heq.
Qed.

(** ** The dataset *)

Module SdatFacts.
Section WithEnv.
Context `{Env}.
Import Sdat.

Implicit Types (s : StagyyData) (l : nat) (k : Z).

(** *** The relations between states *)

#[local] Instance grows_preorder : PreOrder grows.
Proof.
  split.
  - intros s. split_and!; [done|eauto|]. intros k l H1 H2. congruence.
  - intros s1 s2 s3 (Ha1 & Ha2 & Ha3) (Hb1 & Hb2 & Hb3). split_and!.
    + eauto.
    + intros l o Ho. destruct (Ha2 _ _ Ho) as (o' & Ho' & Hc & Hi).
      destruct (Hb2 _ _ Ho') as (o'' & Ho'' & Hc' & Hi').
      exists o''. split_and!; [done|congruence..].
    + intros k l Hk1 Hk3. destruct (steps s2 !! k) as [l'|] eqn:Hk2.
      * rewrite (Hb1 _ _ Hk2) in Hk3. simplify_eq. eauto.
      * pose proof (Hb3 _ _ Hk2 Hk3) as Hl2.
        destruct (heap s1 !! l) as [o|] eqn:Hl1; [|done].
        destruct (Ha2 _ _ Hl1) as (o' & Ho' & _). congruence.
Qed.

#[local] Instance quiet_preorder : PreOrder quiet.
Proof.
  split.
  - intros s. split; [eauto|]. by exists [].
  - intros s1 s2 s3 [Ha1 (pa & Ha2 & Ha3)] [Hb1 (pb & Hb2 & Hb3)]. split.
    + intros l o Ho. destruct (Ha1 _ _ Ho) as (o' & Ho' & Hf).
      destruct (Hb1 _ _ Ho') as (o'' & Ho'' & Hf').
      exists o''. split; [done|congruence].
    + exists (pb ++ pa). split; [by rewrite Hb2, Ha2, app_assoc|].
      by apply Forall_app.
Qed.

#[local] Instance evolves_preorder : PreOrder evolves.
Proof.
  split.
  - intros s. split; [done|reflexivity].
  - intros s1 s2 s3 [Ha1 Ha2] [Hb1 Hb2]. split; [auto|by etrans].
Qed.

#[local] Instance evolves_quietly_preorder : PreOrder evolves_quietly.
Proof.
  split.
  - intros s. split; reflexivity.
  - intros s1 s2 s3 [Ha1 Ha2] [Hb1 Hb2]. split; by etrans.
Qed.

(** *** The primitive steps *)

Lemma grows_same s s' : heap s' = heap s → steps s' = steps s → grows s s'.
Proof.
  intros Hh Hs. split_and!; rewrite ?Hh, ?Hs; [done|eauto|].
  intros k l H1 H2. congruence.
Qed.

Lemma quiet_same s s' : heap s' = heap s → io s' = io s → quiet s s'.
Proof. intros Hh Hio. split; rewrite ?Hh, ?Hio; [eauto|by exists []]. Qed.

(** A step that leaves the store, the registry and the index alone,
    and logs at most requests for step numbers. *)
Lemma same_core s s' :
  heap s' = heap s → steps s' = steps s → snaps_isteps s' = snaps_isteps s →
  (∃ probes, io s' = probes ++ io s ∧ Forall (fun c => c.2 = OnlyIstep) probes) →
  evolves_quietly s s'.
Proof.
  destruct s, s'; simpl. intros -> -> -> Hio. split; [split|split].
  - intros [I1 I2 I3]. by split.
  - split_and!; simpl; [done|eauto|]. intros k l H1 H2. congruence.
  - simpl. eauto.
  - done.
Qed.

Lemma deref_keeps (R : relation StagyyData) `{!Reflexive R} l : keeps R (deref l).
Proof. intros s. unfold deref. by destruct (heap s !! l). Qed.

Lemma log_probe_keeps file : keeps evolves_quietly (log file OnlyIstep).
Proof.
  intros s. apply same_core; [done..|]. exists [(file, OnlyIstep)].
  split; [done|]. by constructor.
Qed.

Lemma new_generator_keeps r start stop step :
  keeps evolves_quietly (new_generator r start stop step).
Proof.
  intros s. unfold new_generator. destruct stop; [|reflexivity].
  apply same_core; [done..|]. by exists [].
Qed.

Lemma set_gen_keeps g x : keeps evolves_quietly (set_gen g x).
Proof. intros s. apply same_core; [done..|]. by exists []. Qed.

Lemma close_gen_keeps g : keeps evolves_quietly (close_gen g).
Proof. intros s. apply same_core; [done..|]. by exists []. Qed.

(** Changing attributes of an object other than its class and its
    step number. *)
Lemma update_evolves l (f : Step_t → Step_t) :
  (∀ o, cls (f o) = cls o ∧ istep (f o) = istep o) →
  keeps evolves (update l f).
Proof.
  intros Hf s. unfold update. simpl.
  assert (∀ l' o', alter f l (heap s) !! l' = Some o' →
            ∃ o, heap s !! l' = Some o ∧ cls o' = cls o ∧ istep o' = istep o) as Hback.
  { intros l' o'. rewrite list_lookup_alter. case_decide; simplify_eq.
    - intros [o [Ho ->]]%fmap_Some. exists o. destruct (Hf o). by simplify_eq.
    - intros Ho. by exists o'. }
  assert (∀ l' o, heap s !! l' = Some o →
            ∃ o', alter f l (heap s) !! l' = Some o' ∧ cls o' = cls o ∧
                  istep o' = istep o) as Hforth.
  { intros l' o Ho. rewrite list_lookup_alter. case_decide; simplify_eq.
    - exists (f o). rewrite Ho. destruct (Hf o). by simplify_eq.
    - by exists o. }
  split; [|split_and!]; simpl.
  - intros [I1 I2 I3]. split; simpl; [| |done].
    + intros k l' Hk. destruct (I1 _ _ Hk) as (Hk0 & o & Ho & Hc & Hi).
      split; [done|]. destruct (Hforth _ _ Ho) as (o' & Ho' & Hc' & Hi').
      exists o'. split_and!; congruence.
    + intros l' o' Ho' Hc'. destruct (Hback _ _ Ho') as (o & Ho & Hc & Hi).
      destruct (I2 _ _ Ho ltac:(congruence)) as (k & Hk & Hs).
      exists k. split; congruence.
  - done.
  - done.
  - intros k l' Hn Hs. congruence.
Qed.

Lemma update_quiet l (f : Step_t → Step_t) :
  (∀ o, fields (f o) = fields o) → keeps quiet (update l f).
Proof.
  intros Hf s. unfold update. split; simpl; [|by exists []].
  intros l' o Ho. rewrite list_lookup_alter. case_decide; simplify_eq.
  - exists (f o). by rewrite Ho.
  - by exists o.
Qed.

Lemma setattr_isnap_keeps o isnap : keeps evolves_quietly (setattr_isnap o isnap).
Proof.
  destruct o as [l|g]; [|by apply keeps_raise, _].
  intros s. split.
  - by apply update_evolves.
  - by apply update_quiet.
Qed.

Lemma index_insert_keeps isnap i : keeps evolves_quietly (index_insert isnap i).
Proof.
  intros s. unfold index_insert.
  destruct (Indexes.insert (snaps_isteps s) isnap i) as [ix|] eqn:Hins;
    [|reflexivity].
  split; [split|]; simpl.
  - intros [I1 I2 I3]. split; simpl; [done..|].
    by destruct (IndexesFacts.insert_wf _ _ _ _ I3 Hins).
  - by apply grows_same.
  - by apply quiet_same.
Qed.

(** *** [_Steps.__missing__], case by case *)

Lemma Steps___missing___None s :
  Steps___missing__ PyNone s =
  (Ok (length (heap s)),
   mk_sdat (heap s ++ [fresh_step _EmptyStep PyNone]) (steps s) (snaps_isteps s)
           (gens s) (io s)).
Proof. done. Qed.

Lemma Steps___missing___new s i k :
  i ≠ PyNone → py_int i = Ok k → 0 ≤ k → steps s !! k = None →
  Steps___missing__ i s =
  (Ok (length (heap s)),
   mk_sdat (heap s ++ [fresh_step _Step (PyInt k)]) (<[k := length (heap s)]> (steps s))
           (snaps_isteps s) (gens s) (io s)).
Proof.
  intros Hi Hint Hk Hs. unfold Steps___missing__.
  destruct i; try done; rewrite Hint;
    rewrite (proj2 (Z.ltb_ge _ _) Hk);
    unfold mbind, se_bind, se_get, set_steps, Step___init__, alloc; simpl;
    rewrite Hs; simpl; by rewrite lookup_insert_eq.
Qed.

Lemma Steps___missing___old s i k l :
  i ≠ PyNone → py_int i = Ok k → 0 ≤ k → steps s !! k = Some l →
  Steps___missing__ i s = (Ok l, s).
Proof.
  intros Hi Hint Hk Hs. unfold Steps___missing__.
  destruct i; try done; rewrite Hint;
    rewrite (proj2 (Z.ltb_ge _ _) Hk);
    unfold mbind, se_bind, se_get; simpl; rewrite Hs; simpl; by rewrite Hs.
Qed.

Lemma Steps___missing___negative s i k :
  i ≠ PyNone → py_int i = Ok k → k < 0 →
  Steps___missing__ i s = (Raise (ValueError "Time step should be positive"), s).
Proof.
  intros Hi Hint Hk. unfold Steps___missing__.
  destruct i; try done; rewrite Hint; by rewrite (proj2 (Z.ltb_lt _ _) Hk).
Qed.

Lemma Steps___missing___raise s i e :
  i ≠ PyNone → py_int i = Raise e →
  Steps___missing__ i s =
  (Raise (match e with
          | ValueError _ => ValueError "Time step should be an integer value"
          | _ => e
          end), s).
Proof.
  intros Hi Hint. unfold Steps___missing__.
  destruct i; try done; rewrite Hint; by destruct e.
Qed.

(** Adding an object to the store, and registering it if it is a
    [_Step]. *)
Lemma alloc_empty_evolves s :
  evolves_quietly s
    (mk_sdat (heap s ++ [fresh_step _EmptyStep PyNone]) (steps s) (snaps_isteps s)
             (gens s) (io s)).
Proof.
  split; [split; [|split_and!]|split]; simpl.
  - intros [I1 I2 I3]. split; simpl; [| |done].
    + intros k l Hk. destruct (I1 _ _ Hk) as (Hk0 & o & Ho & Hc & Hi).
      split; [done|]. exists o. split; [|done]. by apply lookup_app_l_Some.
    + intros l o Ho Hc. apply lookup_app_Some in Ho as [Ho|[_ Ho]]; [eauto|].
      apply list_lookup_singleton_Some in Ho as [_ <-]. done.
  - done.
  - intros l o Ho. exists o. split; [|done]. by apply lookup_app_l_Some.
  - intros k l Hn Hs. congruence.
  - intros l o Ho. exists o. split; [|done]. by apply lookup_app_l_Some.
  - by exists [].
Qed.

Lemma alloc_step_evolves s k :
  0 ≤ k → steps s !! k = None →
  evolves_quietly s
    (mk_sdat (heap s ++ [fresh_step _Step (PyInt k)]) (<[k := length (heap s)]> (steps s))
             (snaps_isteps s) (gens s) (io s)).
Proof.
  intros Hk Hnew. split; [split; [|split_and!]|split]; simpl.
  - intros [I1 I2 I3]. split; simpl; [| |done].
    + intros k' l Hk'. apply lookup_insert_Some in Hk' as [[<- <-]|[Hne Hk']].
      * split; [done|]. exists (fresh_step _Step (PyInt k)). split; [|done].
        rewrite lookup_app_r by done. by rewrite Nat.sub_diag.
      * destruct (I1 _ _ Hk') as (Hk0 & o & Ho & Hc & Hi).
        split; [done|]. exists o. split; [|done]. by apply lookup_app_l_Some.
    + intros l o Ho Hc. apply lookup_app_Some in Ho as [Ho|[Hl Ho]].
      * destruct (I2 _ _ Ho Hc) as (k' & Hi & Hs). exists k'. split; [done|].
        rewrite lookup_insert_ne; [done|]. intros <-. congruence.
      * apply list_lookup_singleton_Some in Ho as [Hl0 <-].
        exists k. split; [done|]. replace l with (length (heap s)) by lia.
        by rewrite lookup_insert_eq.
  - intros k' l Hk'. rewrite lookup_insert_ne; [done|]. intros <-. congruence.
  - intros l o Ho. exists o. split; [|done]. by apply lookup_app_l_Some.
  - intros k' l Hn Hs. apply lookup_insert_Some in Hs as [[<- <-]|[Hne Hs]].
    + apply lookup_ge_None. lia.
    + congruence.
  - intros l o Ho. exists o. split; [|done]. by apply lookup_app_l_Some.
  - by exists [].
Qed.

Lemma Steps___missing___keeps i : keeps evolves_quietly (Steps___missing__ i).
Proof.
  intros s.
  assert (i = PyNone ∨ i ≠ PyNone) as [->|Hi] by (destruct i; (by left) || (by right)).
  - rewrite Steps___missing___None. apply alloc_empty_evolves.
  - destruct (py_int i) as [k|e] eqn:Hint.
    + destruct (decide (k < 0)) as [Hk|Hk].
      * rewrite (Steps___missing___negative s i k) by done. reflexivity.
      * destruct (steps s !! k) as [l|] eqn:Hs.
        -- rewrite (Steps___missing___old s i k l) by (done || lia). reflexivity.
        -- rewrite (Steps___missing___new s i k) by (done || lia).
           apply alloc_step_evolves; [lia|done].
    + rewrite (Steps___missing___raise s i e) by done. reflexivity.
Qed.

(** *** The operations built from them *)

Lemma evolves_quietly_evolves {A} (m : SE StagyyData A) :
  keeps evolves_quietly m → keeps evolves m.
Proof. apply keeps_weaken. by intros s s' [? _]. Qed.

Lemma update_keeps l (f : Step_t → Step_t) :
  (∀ o, cls (f o) = cls o ∧ istep (f o) = istep o) →
  (∀ o, fields (f o) = fields o) →
  keeps evolves_quietly (update l f).
Proof.
  intros Hf1 Hf2 s. split; [by apply update_evolves|by apply update_quiet].
Qed.

Create HintDb keeps.
Hint Resolve log_probe_keeps new_generator_keeps set_gen_keeps close_gen_keeps
  setattr_isnap_keeps index_insert_keeps Steps___missing___keeps : keeps.

Ltac keeps_go :=
  repeat first
    [ solve [eauto with keeps]
    | apply keeps_ret; apply _
    | apply keeps_get; apply _
    | apply keeps_lift; apply _
    | apply keeps_raise; apply _
    | apply deref_keeps; apply _
    | apply keeps_bind; [apply _| |intros ?]
    | match goal with
      | |- keeps _ (match ?x with _ => _ end) => destruct x
      | |- keeps _ (if ?x then _ else _) => destruct x
      end ].

Lemma Steps_dict_getitem_keeps key : keeps evolves_quietly (Steps_dict_getitem key).
Proof. unfold Steps_dict_getitem. keeps_go. Qed.
Hint Resolve Steps_dict_getitem_keeps : keeps.

Lemma Steps___getitem___keeps key : keeps evolves_quietly (Steps___getitem__ key).
Proof. unfold Steps___getitem__. keeps_go. Qed.
Hint Resolve Steps___getitem___keeps : keeps.

Lemma getattr_istep_keeps o : keeps evolves_quietly (getattr_istep o).
Proof. unfold getattr_istep. keeps_go. Qed.
Hint Resolve getattr_istep_keeps : keeps.

Lemma Snaps_bind_keeps isnap i : keeps evolves_quietly (Snaps_bind isnap i).
Proof. unfold Snaps_bind. keeps_go. Qed.
Hint Resolve Snaps_bind_keeps : keeps.

Lemma Snaps_probe_keeps pars isnap i : keeps evolves_quietly (Snaps_probe pars isnap i).
Proof.
  revert i. induction pars as [|par pars IH]; intros i; cbn [Snaps_probe]; keeps_go.
Qed.
Hint Resolve Snaps_probe_keeps : keeps.

Lemma Snaps___missing___keeps isnap : keeps evolves_quietly (Snaps___missing__ isnap).
Proof. unfold Snaps___missing__. keeps_go. Qed.
Hint Resolve Snaps___missing___keeps : keeps.

Lemma Snaps___getitem___keeps key : keeps evolves_quietly (Snaps___getitem__ key).
Proof. unfold Snaps___getitem__. keeps_go. Qed.
Hint Resolve Snaps___getitem___keeps : keeps.

Lemma gen_body_keeps r k : keeps evolves_quietly (gen_body r k).
Proof. unfold gen_body. keeps_go. Qed.
Hint Resolve gen_body_keeps : keeps.

Lemma gen_next_keeps g : keeps evolves_quietly (gen_next g).
Proof.
  intros s. unfold gen_next.
  destruct (gens s !! g) as [x|]; [|reflexivity].
  destruct (g_left x) as [|n]; [reflexivity|].
  set (m := (set_gen g _;; gen_body (g_reg x) (g_next x))).
  assert (keeps evolves_quietly m) as Hm by (unfold m; keeps_go).
  specialize (Hm s). destruct (m s) as [[o|e] s']; simpl in *; [done|].
  etrans; [done|]. apply close_gen_keeps.
Qed.
Hint Resolve gen_next_keeps : keeps.

Lemma gen_drain_keeps n g : keeps evolves_quietly (gen_drain n g).
Proof. induction n as [|n IH]; cbn [gen_drain]; keeps_go. Qed.
Hint Resolve gen_drain_keeps : keeps.

Lemma py_list_keeps g : keeps evolves_quietly (py_list g).
Proof.
  intros s. unfold py_list. destruct (gens s !! g); [|reflexivity].
  apply gen_drain_keeps.
Qed.

Lemma isnap_search_keeps todo self_istep i :
  keeps evolves_quietly (isnap_search todo self_istep i).
Proof.
  revert i. induction todo as [|todo IH]; intros i; cbn [isnap_search]; keeps_go.
Qed.
Hint Resolve isnap_search_keeps : keeps.

Lemma Step_isnap_keeps l : keeps evolves_quietly (Step_isnap l).
Proof.
  unfold Step_isnap.
  assert (keeps evolves_quietly
            (update l (fun self => mk_step (cls self) (istep self) (fields self)
                                           PyNone (_irsnap self) (_itsnap self))))
    by (by apply update_keeps).
  generalize (Z.to_nat 100000). intros todo. keeps_go.
Qed.
Hint Resolve Step_isnap_keeps : keeps.

Lemma getattr_isnap_keeps l : keeps evolves_quietly (getattr_isnap l).
Proof. unfold getattr_isnap. keeps_go. Qed.

(** *** The field cache *)

Lemma evolves_same s s' :
  heap s' = heap s → steps s' = steps s → snaps_isteps s' = snaps_isteps s →
  evolves s s'.
Proof.
  intros Hh Hs Hi. split; [|by apply grows_same].
  intros [I1 I2 I3]. split; rewrite ?Hh, ?Hs, ?Hi; done.
Qed.

Lemma log_keeps file mode : keeps evolves (log file mode).
Proof. intros s. by apply evolves_same. Qed.

Lemma set_header_keeps l h : keeps evolves (set_header l h).
Proof. by apply update_evolves. Qed.

Lemma Fields___setitem___keeps l name a : keeps evolves (Fields___setitem__ l name a).
Proof. by apply update_evolves. Qed.

Lemma Fields_store_keeps l kvs : keeps evolves (Fields_store l kvs).
Proof.
  induction kvs as [|[k a] kvs IH]; cbn [Fields_store].
  - apply keeps_ret, _.
  - apply keeps_bind; [apply _|apply Fields___setitem___keeps|done].
Qed.

Lemma Fields___getitem___keeps depth l name :
  keeps evolves (Fields___getitem__ depth l name).
Proof.
  pose proof log_keeps. pose proof set_header_keeps. pose proof Fields_store_keeps.
  pose proof (fun l => evolves_quietly_evolves _ (getattr_isnap_keeps l)).
  induction depth as [|depth IH]; cbn [Fields___getitem__]; keeps_go.
Qed.

Lemma step_fields_getitem_keeps depth l name :
  keeps evolves (step_fields_getitem depth l name).
Proof.
  pose proof Fields___getitem___keeps.
  unfold step_fields_getitem. keeps_go.
Qed.

(** *** Every request, and every state *)

Lemma exec_evolves r s : evolves s (exec r s).
Proof.
  destruct r; simpl.
  - by apply evolves_quietly_evolves, Steps___getitem___keeps.
  - reflexivity.
  - by apply evolves_quietly_evolves, Snaps___getitem___keeps.
  - reflexivity.
  - by apply evolves_quietly_evolves, Snaps_bind_keeps.
  - by apply evolves_quietly_evolves, gen_next_keeps.
  - by apply evolves_quietly_evolves, getattr_isnap_keeps.
  - apply step_fields_getitem_keeps.
Qed.

Lemma run_evolves rs s : evolves s (run rs s).
Proof.
  revert s. induction rs as [|r rs IH]; intros s; simpl.
  - reflexivity.
  - etrans; [apply exec_evolves|apply IH].
Qed.

(** A run goes as it does without its assignments. *)
Lemma run_without_assignments rs s :
  run rs s = run (filter (fun r => is_assignment r = false) rs) s.
Proof.
  revert s. induction rs as [|r rs IH]; intros s; [done|].
  destruct (is_assignment r) eqn:Hr.
  - rewrite filter_cons_False by (rewrite Hr; discriminate).
    destruct r; try discriminate Hr; apply IH.
  - rewrite filter_cons_True by done. apply IH.
Qed.

Lemma inv_init : inv StagyyData___init__.
Proof.
  split; simpl.
  - intros k l Hk. by rewrite lookup_empty in Hk.
  - intros l o Ho. by rewrite lookup_nil in Ho.
  - apply IndexesFacts.wf_init.
Qed.

Lemma reachable_inv s : reachable s → inv s.
Proof.
  induction 1 as [|r s _ IH]; [apply inv_init|].
  by apply (exec_evolves r s).
Qed.

(** At most one [_Step] per step number. *)
Lemma inv_unique s l1 l2 o1 o2 :
  inv s → heap s !! l1 = Some o1 → heap s !! l2 = Some o2 →
  cls o1 = _Step → cls o2 = _Step → istep o1 = istep o2 → l1 = l2.
Proof.
  intros [_ I2 _] H1 H2 Hc1 Hc2 Hi.
  destruct (I2 _ _ H1 Hc1) as (k1 & Hk1 & Hs1).
  destruct (I2 _ _ H2 Hc2) as (k2 & Hk2 & Hs2).
  assert (k1 = k2) as -> by congruence. congruence.
Qed.


(** *** [steps[key]], case by case *)

Lemma Steps___getitem___old s key k l :
  int_key key = Some k → steps s !! k = Some l →
  Steps___getitem__ key s = (Ok (ObjStep l), s).
Proof.
  intros Hkey Hs. unfold Steps___getitem__, Steps_dict_getitem.
  destruct key; try done; unfold mbind at 1 2, se_bind, se_get;
    rewrite Hkey; simpl; by rewrite Hs.
Qed.

Lemma Steps___getitem___miss s key :
  (∀ a b c, key ≠ PySlice a b c) →
  (∀ k, int_key key = Some k → steps s !! k = None) →
  Steps___getitem__ key s =
  (l ← Steps___missing__ key; mret (ObjStep l)) s.
Proof.
  intros Hslice Hkey. unfold Steps___getitem__, Steps_dict_getitem.
  destruct key; try (by edestruct Hslice);
    unfold mbind at 1 2, se_bind, se_get;
    (destruct (int_key _) as [k|] eqn:Hk; simpl;
     [by rewrite (Hkey k eq_refl)|done]).
Qed.

Lemma Steps___getitem___new s k :
  0 ≤ k → steps s !! k = None →
  Steps___getitem__ (PyInt k) s =
  (Ok (ObjStep (length (heap s))),
   mk_sdat (heap s ++ [fresh_step _Step (PyInt k)]) (<[k := length (heap s)]> (steps s))
           (snaps_isteps s) (gens s) (io s)).
Proof.
  intros Hk Hs. rewrite Steps___getitem___miss; [|done|by intros ? [= <-]].
  unfold mbind, se_bind. by rewrite (Steps___missing___new s _ k).
Qed.

Lemma Steps___getitem___None s :
  Steps___getitem__ PyNone s =
  (Ok (ObjStep (length (heap s))),
   mk_sdat (heap s ++ [fresh_step _EmptyStep PyNone]) (steps s) (snaps_isteps s)
           (gens s) (io s)).
Proof. done. Qed.

(** Asking for the step of a non-negative number: the entry is
    there afterwards, and was made only if it was not. *)
Lemma Steps___getitem___int s k :
  0 ≤ k →
  ∃ l s1, Steps___getitem__ (PyInt k) s = (Ok (ObjStep l), s1) ∧
          steps s1 !! k = Some l ∧
          gens s1 = gens s ∧
          match steps s !! k with
          | Some l0 => l = l0 ∧ s1 = s
          | None =>
              l = length (heap s) ∧
              heap s1 = heap s ++ [fresh_step _Step (PyInt k)] ∧
              steps s1 = <[k := l]> (steps s)
          end.
Proof.
  intros Hk. destruct (steps s !! k) as [l0|] eqn:Hs.
  - exists l0, s. by rewrite (Steps___getitem___old s _ k l0).
  - eexists _, _. rewrite Steps___getitem___new by done.
    split; [done|]. simpl. by rewrite lookup_insert_eq.
Qed.

Lemma count_full_probes probes log :
  Forall (fun c => c.2 = OnlyIstep) probes →
  count_full (probes ++ log) = count_full log.
Proof.
  induction 1 as [|[f m] probes Hm _ IH]; [done|].
  simpl in *. by subst m.
Qed.


(** *** Slices of the step registry *)

Lemma range_from_S k stride n :
  range_from k stride (S n) = k :: range_from (k + stride) stride n.
Proof.
  unfold range_from. simpl. f_equal; [lia|].
  rewrite <- fmap_S_seq, <- list_fmap_compose.
  apply list_fmap_ext. intros i x _. simpl. lia.
Qed.

Lemma Steps___getitem___slice s start stop stride :
  stride ≠ 0 →
  Steps___getitem__ (PySlice (Some start) (Some stop) (Some stride)) s =
  (Ok (ObjGen (length (gens s))),
   mk_sdat (heap s) (steps s) (snaps_isteps s)
           (gens s ++ [mk_gen TheSteps start stride (range_len start stop stride)])
           (io s)).
Proof. intros Hs. by destruct stride. Qed.

(** One turn of a generator over the step registry, at a
    non-negative number. *)
Lemma gen_next_steps s g k stride n :
  gens s !! g = Some (mk_gen TheSteps k stride (S n)) → 0 ≤ k →
  ∃ l s', gen_next g s = (Ok (Some (ObjStep l)), s') ∧
          gens s' !! g = Some (mk_gen TheSteps (k + stride) stride n) ∧
          steps s' !! k = Some l ∧
          evolves s s'.
Proof.
  intros Hg Hk.
  set (s0 := mk_sdat (heap s) (steps s) (snaps_isteps s)
                     (<[g := mk_gen TheSteps (k + stride) stride n]> (gens s)) (io s)).
  assert (gens s0 !! g = Some (mk_gen TheSteps (k + stride) stride n)) as Hg0.
  { apply list_lookup_insert_eq. by eapply lookup_lt_Some. }
  assert (evolves s s0) as Hev0 by (by apply evolves_same).
  destruct (Steps___getitem___int s0 k Hk) as (l & s' & Hget & Hl & Hgens & _).
  pose proof (evolves_quietly_evolves _ (Steps___getitem___keeps (PyInt k)) s0) as Hev.
  rewrite Hget in Hev. simpl in Hev.
  exists l, s'. split_and!; [|congruence|done|by etrans].
  unfold gen_next. rewrite Hg. cbn [g_left g_reg g_next g_stride].
  change ((set_gen g (mk_gen TheSteps (k + stride) stride n);;
           gen_body TheSteps k) s)
    with (Steps___getitem__ (PyInt k) s0).
  by rewrite Hget.
Qed.


(** Running such a generator to its end: one step per number, in
    order, each of them the registry's entry for that number; the
    generator is left with nothing more to give. *)
Lemma gen_drain_steps n : ∀ s g k stride,
  gens s !! g = Some (mk_gen TheSteps k stride n) →
  Forall (fun k' => 0 ≤ k') (range_from k stride n) →
  ∃ ls s', gen_drain n g s = (Ok (ObjStep <$> ls), s') ∧
           gens s' !! g = Some (mk_gen TheSteps (k + Z.of_nat n * stride) stride 0) ∧
           Forall2 (fun k' l => steps s' !! k' = Some l) (range_from k stride n) ls ∧
           evolves s s'.
Proof.
  induction n as [|n IH]; intros s g k stride Hg Hpos.
  - exists [], s. split_and!; [done| |constructor|reflexivity].
    rewrite Hg. do 2 f_equal. lia.
  - rewrite range_from_S in Hpos. apply Forall_cons in Hpos as [Hk Hpos].
    destruct (gen_next_steps s g k stride n Hg Hk) as (l & s1 & Hnext & Hg1 & Hl & Hev1).
    destruct (IH s1 g (k + stride) stride Hg1 Hpos) as (ls & s' & Hdrain & Hg' & Hall & Hev).
    exists (l :: ls), s'. split_and!.
    + cbn [gen_drain]. unfold mbind, se_bind. rewrite Hnext, Hdrain. done.
    + rewrite Hg'. do 2 f_equal. lia.
    + rewrite range_from_S. constructor; [|done].
      destruct Hev as [_ (Hsteps & _)]. by apply Hsteps.
    + by etrans.
Qed.

Lemma py_list_exhausted s g x :
  gens s !! g = Some x → g_left x = 0%nat → py_list g s = (Ok [], s).
Proof. intros Hg Hx. unfold py_list. by rewrite Hg, Hx. Qed.


(** *** A snapshot number that no file answers for *)

Lemma Snaps_probe_absent pars : ∀ isnap i s,
  (∀ par f, par ∈ pars → filename par (PyInt isnap) = Ok f →
            stagyyparsers_fields_only_istep f = None) →
  ∃ probes,
    Forall (fun c => c.2 = OnlyIstep) probes ∧
    Snaps_probe pars isnap i s =
    (index_insert isnap PyNone;;
     Steps___getitem__ (match pars with [] => i | _ => PyNone end))
      (mk_sdat (heap s) (steps s) (snaps_isteps s) (gens s) (probes ++ io s)).
Proof.
  induction pars as [|par pars IH]; intros isnap i s Hnone.
  - exists []. split; [done|]. by destruct s.
  - destruct (filename par (PyInt isnap)) as [f|] eqn:Hf; [|done].
    pose proof (Hnone par f ltac:(left) Hf) as Hp.
    destruct (IH isnap PyNone
                (mk_sdat (heap s) (steps s) (snaps_isteps s) (gens s)
                         ((f, OnlyIstep) :: io s))) as (probes & Hprobes & Hrun).
    { intros par' f' Hin. apply Hnone. by right. }
    exists (probes ++ [(f, OnlyIstep)]). split.
    { apply Forall_app. split; [done|]. by constructor. }
    cbn [Snaps_probe]. unfold mbind at 1 2, se_bind at 1 2, se_lift, log.
    rewrite Hf, Hp, Hrun. simpl. rewrite <- app_assoc. simpl.
    by destruct pars.
Qed.

Lemma Snaps___getitem___absent s isnap :
  inv s → Indexes.in_range isnap → isnap ∉ Indexes.keys (snaps_isteps s) →
  scan ≠ [] →
  (∀ par f, par ∈ scan → filename par (PyInt isnap) = Ok f →
            stagyyparsers_fields_only_istep f = None) →
  ∃ probes ix',
    Forall (fun c => c.2 = OnlyIstep) probes ∧
    Indexes.get_istep ix' isnap = Ok PyNone ∧
    Snaps___getitem__ (PyInt isnap) s =
    (Ok (ObjStep (length (heap s))),
     mk_sdat (heap s ++ [fresh_step _EmptyStep PyNone]) (steps s) ix' (gens s)
             (probes ++ io s)).
Proof.
  intros [_ _ Hwf] Hr Hnew Hscan Hnone.
  destruct (Snaps_probe_absent scan isnap UNDETERMINED s Hnone) as (probes & Hp & Hrun).
  destruct (IndexesFacts.insert_fresh _ _ PyNone Hwf Hr Hnew) as (ix' & Hins & _ & Hget & _).
  exists probes, ix'. split_and!; [done..|].
  cbn [Snaps___getitem__]. unfold Snaps___missing__.
  unfold mbind at 1 2, se_bind at 1 2, se_get, se_lift.
  rewrite (IndexesFacts.get_istep_absent _ _ Hwf Hr Hnew), Hrun.
  destruct scan; [done|].
  unfold mbind, se_bind, index_insert. simpl. by rewrite Hins.
Qed.

Lemma Snaps___getitem___cached s isnap :
  Indexes.get_istep (snaps_isteps s) isnap = Ok PyNone →
  Snaps___getitem__ (PyInt isnap) s =
  (Ok (ObjStep (length (heap s))),
   mk_sdat (heap s ++ [fresh_step _EmptyStep PyNone]) (steps s) (snaps_isteps s)
           (gens s) (io s)).
Proof.
  intros Hget. cbn [Snaps___getitem__]. unfold Snaps___missing__.
  unfold mbind, se_bind, se_get, se_lift. by rewrite Hget.
Qed.


(** *** The field cache of a step *)

Lemma list_alter_insert {A} (f : A → A) (xs : list A) i x :
  xs !! i = Some x → alter f i xs = <[i := f x]> xs.
Proof.
  intros Hx. apply list_eq. intros j.
  rewrite list_lookup_alter, list_lookup_insert.
  pose proof (lookup_lt_Some _ _ _ Hx).
  repeat case_decide; simplify_eq; try done; try lia. by rewrite Hx.
Qed.

Lemma store_lookup_other (kvs : list (string * ndarray)) :
  ∀ (m : gmap string ndarray) (key : string),
  key ∉ kvs.*1 →
  foldl (fun m kv => <[kv.1 := kv.2]> m) m kvs !! key = m !! key.
Proof.
  induction kvs as [|[key' a] kvs IH]; intros m key Hk; [done|].
  simpl in *. apply not_elem_of_cons in Hk as [Hne Hk].
  rewrite IH by done. by rewrite lookup_insert_ne.
Qed.

Lemma store_lookup (kvs : list (string * ndarray)) :
  ∀ (m : gmap string ndarray) (key : string) (a : ndarray),
  NoDup kvs.*1 → (key, a) ∈ kvs →
  foldl (fun m kv => <[kv.1 := kv.2]> m) m kvs !! key = Some a.
Proof.
  induction kvs as [|[key' a'] kvs IH]; intros m key a Hnd Hin.
  - by apply elem_of_nil in Hin.
  - simpl in *. apply NoDup_cons in Hnd as [Hk' Hnd].
    apply elem_of_cons in Hin as [[= -> ->]|Hin].
    + rewrite store_lookup_other by done. by rewrite lookup_insert_eq.
    + by apply IH.
Qed.

Lemma Fields_store_eval kvs : ∀ s l o,
  heap s !! l = Some o →
  Fields_store l kvs s =
  (Ok tt,
   mk_sdat (<[l := mk_step (cls o) (istep o)
                     (mk_fields (foldl (fun m kv => <[kv.1 := kv.2]> m)
                                       (f_items (fields o)) kvs)
                                (f_header (fields o)))
                     (_isnap o) (_irsnap o) (_itsnap o)]> (heap s))
           (steps s) (snaps_isteps s) (gens s) (io s)).
Proof.
  induction kvs as [|[key a] kvs IH]; intros s l o Ho.
  - simpl. unfold mret, se_ret. f_equal.
    destruct s as [hp ? ? ? ?], o as [? ? [? ?] ? ? ?]. simpl in *.
    by rewrite list_insert_id.
  - cbn [Fields_store]. unfold mbind, se_bind, Fields___setitem__, update.
    cbn [heap steps snaps_isteps gens io].
    rewrite (list_alter_insert _ _ _ _ Ho).
    erewrite IH;
      [|cbn [heap]; apply list_lookup_insert_eq; by eapply lookup_lt_Some].
    cbn. by rewrite list_insert_insert_eq.
Qed.

Lemma Fields___getitem___hit depth s l o name a :
  heap s !! l = Some o → f_items (fields o) !! name = Some a →
  Fields___getitem__ depth l name s = (Ok a, s).
Proof.
  intros Ho Ha.
  destruct depth; cbn [Fields___getitem__];
    unfold mbind, se_bind, deref; by rewrite Ho, Ha.
Qed.

Lemma fld_names_bundled par name :
  par = "vp" ∨ par = "sx" →
  NoDup (fld_names par name) ∧ length (fld_names par name) = 4%nat.
Proof.
  intros [-> | ->]; (split; [|done]);
    change (NoDup ["u"; "v"; "w"; "p"]) || change (NoDup ["sx"; "sy"; "sz"; "x"]);
    by apply (bool_decide_unpack _).
Qed.

(** A miss on a field of a bundled record: the snapshot number is
    resolved, the file is parsed once, and every field of the record
    is in the cache afterwards. *)
Lemma Fields___getitem___miss depth s l o name par v s1 file hdr arrs :
  heap s !! l = Some o →
  f_items (fields o) !! name = None →
  FIELD_VAR_LIST !! name = Some par →
  getattr_isnap l s = (Ok v, s1) →
  filename par v = Ok file →
  stagyyparsers_fields file = Some (hdr, arrs) →
  ∃ o1,
    heap s1 !! l = Some o1 ∧ cls o1 = cls o ∧
    Fields___getitem__ (S depth) l name s =
    Fields___getitem__ depth l name
      (mk_sdat
         (<[l := mk_step (cls o1) (istep o1)
                   (mk_fields (foldl (fun m kv => <[kv.1 := kv.2]> m)
                                     (f_items (fields o))
                                     (zip (fld_names par name) arrs))
                              (HeaderOf hdr))
                   (_isnap o1) (_irsnap o1) (_itsnap o1)]> (heap s1))
         (steps s1) (snaps_isteps s1) (gens s1) ((file, Full) :: io s1)).
Proof.
  intros Ho Hmiss Hpar Hisnap Hfile Hparse.
  pose proof (getattr_isnap_keeps l s) as [[_ (_ & Hobj & _)] [Hfld _]].
  rewrite Hisnap in Hobj, Hfld. simpl in Hobj, Hfld.
  destruct (Hobj _ _ Ho) as (o1 & Ho1 & Hcls & _).
  destruct (Hfld _ _ Ho) as (o1' & Ho1' & Hfields).
  assert (o1' = o1) as -> by congruence.
  exists o1. split_and!; [done..|].
  cbn [Fields___getitem__].
  unfold mbind at 1, se_bind at 1, deref at 1. rewrite Ho, Hmiss, Hpar.
  unfold mbind at 1, se_bind at 1. rewrite Hisnap.
  unfold mbind at 1, se_bind at 1, se_lift. rewrite Hfile.
  unfold mbind at 1, se_bind at 1, log. rewrite Hparse.
  unfold mbind at 1, se_bind at 1, set_header, update.
  cbn [heap steps snaps_isteps gens io].
  rewrite (list_alter_insert _ _ _ _ Ho1).
  unfold mbind at 1, se_bind at 1.
  erewrite Fields_store_eval;
    [|cbn [heap]; apply list_lookup_insert_eq; by eapply lookup_lt_Some].
  cbn. by rewrite list_insert_insert_eq, Hfields.
Qed.


Lemma Step_isnap_resolved s l o :
  heap s !! l = Some o → _isnap o ≠ UNDETERMINED →
  Step_isnap l s = (Ok (_isnap o), s).
Proof.
  intros Ho Hres. unfold Step_isnap, mbind, se_bind, deref. rewrite Ho.
  destruct (_isnap o) eqn:E; [congruence|reflexivity..].
Qed.

Lemma step_fields_getitem_Step depth s l o name :
  heap s !! l = Some o → cls o = _Step →
  step_fields_getitem depth l name s = Fields___getitem__ depth l name s.
Proof.
  intros Ho Hcls. unfold step_fields_getitem, mbind, se_bind, deref.
  by rewrite Ho, Hcls.
Qed.

End WithEnv.
End SdatFacts.


(** C10, as amended. Assigning through either registry changes
    nothing at all, so that the assignments can be struck from any run
    of requests without a difference to the state it ends in. Through
    any run of requests, assignments included, an entry of the step
    registry stays bound to the same object, which keeps its class and
    its step number; and an entry that appears during a request is an
    object that did not exist before it. *)
Theorem registry_assignment_ignored `{Env} (s : Sdat.StagyyData) :
  (∀ key value,
     Sdat.Steps___setitem__ key value s = (Ok tt, s) ∧
     Sdat.Snaps___setitem__ key value s = (Ok tt, s)) ∧
  (∀ rs,
     Sdat.run rs s
     = Sdat.run (filter (fun r => Sdat.is_assignment r = false) rs) s) ∧
  (∀ rs k l,
     Sdat.steps s !! k = Some l → Sdat.steps (Sdat.run rs s) !! k = Some l) ∧
  (∀ rs l o,
     Sdat.heap s !! l = Some o →
     ∃ o', Sdat.heap (Sdat.run rs s) !! l = Some o' ∧
           Sdat.cls o' = Sdat.cls o ∧ Sdat.istep o' = Sdat.istep o) ∧
  (∀ r k l,
     Sdat.steps s !! k = None → Sdat.steps (Sdat.exec r s) !! k = Some l →
     Sdat.heap s !! l = None).
Proof.
  split; [done|]. split; [|split; [|split]].
  - intros rs. apply SdatFacts.run_without_assignments.
  - intros rs k l. destruct (SdatFacts.run_evolves rs s) as [_ (Hsteps & _)].
    apply Hsteps.
  - intros rs l o. destruct (SdatFacts.run_evolves rs s) as [_ (_ & Hobj & _)].
    apply Hobj.
  - intros r k l. destruct (SdatFacts.exec_evolves r s) as [_ (_ & _ & Hnew)].
    apply Hnew.
Qed.

(** C8, as amended. In any state of a dataset: [steps[k]] raises
    [ValueError] and leaves the dataset as it was for a negative
    integer [k] and for a string that [int] rejects or turns into a
    negative number; [steps[None]] raises nothing and returns a fresh
    placeholder that is not cached; and [steps[k]] for an integer
    [0 <= k] returns the entry of [k], which it creates and caches if
    there was none. *)
Theorem invalid_step_number `{Env} (s : Sdat.StagyyData) :
  Sdat.reachable s →
  (∀ k, k < 0 →
     Sdat.Steps___getitem__ (PyInt k) s
     = (Raise (ValueError "Time step should be positive"), s)) ∧
  (∀ str,
     int_of_str str = None →
     Sdat.Steps___getitem__ (PyStr str) s
     = (Raise (ValueError "Time step should be an integer value"), s)) ∧
  (∀ str k,
     int_of_str str = Some k → k < 0 →
     Sdat.Steps___getitem__ (PyStr str) s
     = (Raise (ValueError "Time step should be positive"), s)) ∧
  (∃ s1,
     Sdat.Steps___getitem__ PyNone s = (Ok (Sdat.ObjStep (length (Sdat.heap s))), s1) ∧
     Sdat.heap s1 = Sdat.heap s ++ [Sdat.fresh_step Sdat._EmptyStep PyNone] ∧
     Sdat.steps s1 = Sdat.steps s) ∧
  (∀ k, 0 ≤ k →
     ∃ l s1,
       Sdat.Steps___getitem__ (PyInt k) s = (Ok (Sdat.ObjStep l), s1) ∧
       Sdat.steps s1 !! k = Some l ∧
       match Sdat.steps s !! k with
       | Some l0 => l = l0 ∧ s1 = s
       | None =>
           l = length (Sdat.heap s) ∧
           Sdat.heap s1 = Sdat.heap s ++ [Sdat.fresh_step Sdat._Step (PyInt k)] ∧
           Sdat.steps s1 = <[k := l]> (Sdat.steps s)
       end).
Proof.
  intros Hs. pose proof (SdatFacts.reachable_inv s Hs) as [I1 _ _].
  split_and!.
  - intros k Hk.
    rewrite SdatFacts.Steps___getitem___miss; [|done|].
    + unfold mbind, se_bind.
      by rewrite (SdatFacts.Steps___missing___negative s _ k).
    + intros k' [= <-]. destruct (Sdat.steps s !! k) as [l|] eqn:E; [|done].
      destruct (I1 _ _ E). lia.
  - intros str Hstr.
    rewrite SdatFacts.Steps___getitem___miss; [|done|done].
    unfold mbind, se_bind.
    rewrite (SdatFacts.Steps___missing___raise s _
               (ValueError "invalid literal for int() with base 10")); [done..|].
    simpl. by rewrite Hstr.
  - intros str k Hstr Hk.
    rewrite SdatFacts.Steps___getitem___miss; [|done|done].
    unfold mbind, se_bind.
    rewrite (SdatFacts.Steps___missing___negative s _ k); [done..| |done].
    simpl. by rewrite Hstr.
  - eexists. by rewrite SdatFacts.Steps___getitem___None.
  - intros k Hk.
    destruct (SdatFacts.Steps___getitem___int s k Hk) as (l & s1 & ? & ? & _ & ?).
    by exists l, s1.
Qed.

(** C7, as amended. In any state of a dataset, for a slice with
    integer start, stop and non-zero stride whose range holds no
    negative number: [steps[start:stop:stride]] creates no step yet and
    returns a generator; run to its end, it yields exactly the step
    objects of the numbers of [range(start, stop, stride)], in that
    order; and it yields them once: run again, it yields nothing. *)
Theorem steps_slice_yields_range_once `{Env} (s : Sdat.StagyyData) (start stop stride : Z) :
  Sdat.reachable s → stride ≠ 0 →
  Forall (fun k => 0 ≤ k) (range_list start stop stride) →
  ∃ g s0,
    Sdat.Steps___getitem__ (PySlice (Some start) (Some stop) (Some stride)) s
    = (Ok (Sdat.ObjGen g), s0) ∧
    Sdat.heap s0 = Sdat.heap s ∧ Sdat.steps s0 = Sdat.steps s ∧
    ∃ ls s1,
      Sdat.py_list g s0 = (Ok (Sdat.ObjStep <$> ls), s1) ∧
      Forall2 (fun k l =>
                 Sdat.steps s1 !! k = Some l ∧
                 ∃ o, Sdat.heap s1 !! l = Some o ∧ Sdat.cls o = Sdat._Step ∧
                      Sdat.istep o = PyInt k)
              (range_list start stop stride) ls ∧
      Sdat.py_list g s1 = (Ok [], s1).
Proof.
  intros Hs Hstride Hpos. pose proof (SdatFacts.reachable_inv s Hs) as Hinv.
  rewrite SdatFacts.Steps___getitem___slice by done.
  set (n := range_len start stop stride) in *.
  set (s0 := Sdat.mk_sdat _ _ _ _ _).
  assert (Sdat.gens s0 !! length (Sdat.gens s)
          = Some (Sdat.mk_gen Sdat.TheSteps start stride n)) as Hg.
  { simpl. rewrite lookup_app_r by done. by rewrite Nat.sub_diag. }
  assert (Sdat.inv s0) as Hinv0 by (by destruct Hinv).
  destruct (SdatFacts.gen_drain_steps n s0 _ start stride Hg Hpos)
    as (ls & s1 & Hdrain & Hg1 & Hall & Hev).
  exists (length (Sdat.gens s)), s0. split_and!; [done..|].
  exists ls, s1. split_and!.
  - unfold Sdat.py_list. by rewrite Hg.
  - destruct Hev as [Hinv1 _]. destruct (Hinv1 Hinv0) as [I1 _ _].
    eapply Forall2_impl; [done|]. intros k l Hl. split; [done|].
    by destruct (I1 _ _ Hl).
  - by eapply SdatFacts.py_list_exhausted.
Qed.

(** C1, as amended. In any state of a dataset, for a snapshot number
    [-100000 <= isnap < 100000] of which the index records nothing,
    when at least one record kind is configured and none of them
    yields a step number: [snaps[isnap]] returns a placeholder, an
    object of class [_EmptyStep], every attribute of which reads as
    [None]; [fields] being [None] too, [fields[name]] on it raises
    [TypeError]; the index then maps [isnap] to [None];
    and asking again returns a placeholder again without one more call
    to the parser. *)
Theorem missing_snapshot_placeholder `{Env} (s : Sdat.StagyyData) (isnap : Z) :
  Sdat.reachable s →
  -100000 ≤ isnap < 100000 →
  isnap ∉ Indexes.keys (Sdat.snaps_isteps s) →
  Sdat.scan ≠ [] →
  (∀ par f, par ∈ Sdat.scan → Sdat.filename par (PyInt isnap) = Ok f →
            stagyyparsers_fields_only_istep f = None) →
  ∃ l s1,
    Sdat.Snaps___getitem__ (PyInt isnap) s = (Ok (Sdat.ObjStep l), s1) ∧
    (∃ o, Sdat.heap s1 !! l = Some o ∧ Sdat.cls o = Sdat._EmptyStep) ∧
    (∀ name, Sdat.EmptyStep___getattribute__ l name = PyNone) ∧
    Sdat.getattr_istep (Sdat.ObjStep l) s1 = (Ok PyNone, s1) ∧
    Sdat.getattr_isnap l s1 = (Ok PyNone, s1) ∧
    (∀ depth name,
       Sdat.step_fields_getitem depth l name s1 = (Raise TypeError, s1)) ∧
    Indexes.get_istep (Sdat.snaps_isteps s1) isnap = Ok PyNone ∧
    ∃ l2 s2,
      Sdat.Snaps___getitem__ (PyInt isnap) s1 = (Ok (Sdat.ObjStep l2), s2) ∧
      Sdat.io s2 = Sdat.io s1 ∧
      Sdat.snaps_isteps s2 = Sdat.snaps_isteps s1 ∧
      (∃ o, Sdat.heap s2 !! l2 = Some o ∧ Sdat.cls o = Sdat._EmptyStep).
Proof.
  intros Hs Hr Hnew Hscan Hnone. pose proof (SdatFacts.reachable_inv s Hs) as Hinv.
  destruct (SdatFacts.Snaps___getitem___absent s isnap Hinv Hr Hnew Hscan Hnone)
    as (probes & ix' & _ & Hget & Hrun).
  eexists _, _. split; [exact Hrun|].
  assert ((Sdat.heap s ++ [Sdat.fresh_step Sdat._EmptyStep PyNone]) !! length (Sdat.heap s)
          = Some (Sdat.fresh_step Sdat._EmptyStep PyNone)) as Hl.
  { rewrite lookup_app_r by done. by rewrite Nat.sub_diag. }
  split_and!.
  - eexists. split; [exact Hl|done].
  - done.
  - unfold Sdat.getattr_istep, mbind, se_bind, Sdat.deref. cbn [Sdat.heap]. by rewrite Hl.
  - unfold Sdat.getattr_isnap, mbind, se_bind, Sdat.deref. cbn [Sdat.heap]. by rewrite Hl.
  - intros depth name.
    unfold Sdat.step_fields_getitem, mbind, se_bind, Sdat.deref. cbn [Sdat.heap].
    by rewrite Hl.
  - exact Hget.
  - eexists _, _. split; [by apply SdatFacts.Snaps___getitem___cached|].
    split_and!; [done..|]. exists (Sdat.fresh_step Sdat._EmptyStep PyNone).
    split; [|done].
    cbn [Sdat.heap]. rewrite lookup_app_r by done. by rewrite Nat.sub_diag.
Qed.

(** C5, as amended. Take a step and a name of the velocity-pressure
    record (or of the stress record) that its cache does not hold,
    and let the parser return the record's four arrays for the file
    of the step's snapshot. The calls [fields[name]] makes to the
    parser are these: first those of the getter of [isnap], all of
    them for a step number only, and none at all if the snapshot
    number was known already; then one, the last, that parses the
    fields of the owning file. Afterwards every name of the record is
    cached with its own array, and [fields[sibling]] returns that
    array and leaves the whole dataset, the log of parser calls
    included, as it is. *)
Theorem bundled_record_fan_out `{Env} (s : Sdat.StagyyData) (l : nat) (o : Sdat.Step_t)
    (name par : string) (depth : nat) (v : pyval) (s1 : Sdat.StagyyData)
    (file : string) (hdr : gmap string Geometry.hval) (arrs : list ndarray) :
  Sdat.heap s !! l = Some o → Sdat.cls o = Sdat._Step →
  FIELD_VAR_LIST !! name = Some par → par = "vp" ∨ par = "sx" →
  name ∈ Sdat.fld_names par name →
  Sdat.f_items (Sdat.fields o) !! name = None →
  Sdat.getattr_isnap l s = (Ok v, s1) →
  Sdat.filename par v = Ok file →
  stagyyparsers_fields file = Some (hdr, arrs) → (4 ≤ length arrs)%nat →
  ∃ a s2,
    Sdat.step_fields_getitem (S depth) l name s = (Ok a, s2) ∧
    Sdat.io s2 = (file, Sdat.Full) :: Sdat.io s1 ∧
    (∃ probes, Sdat.io s1 = probes ++ Sdat.io s ∧
               Forall (fun c => c.2 = Sdat.OnlyIstep) probes) ∧
    Sdat.count_full (Sdat.io s2) = S (Sdat.count_full (Sdat.io s)) ∧
    (Sdat._isnap o ≠ UNDETERMINED → Sdat.io s1 = Sdat.io s) ∧
    ∀ i sib, Sdat.fld_names par name !! i = Some sib →
      ∃ b, arrs !! i = Some b ∧ (sib = name → a = b) ∧
           ∀ d, Sdat.step_fields_getitem d l sib s2 = (Ok b, s2).
Proof.
  intros Ho Hcls Hpar Hbundle Hname Hmiss Hisnap Hfile Hparse Harrs.
  destruct (SdatFacts.fld_names_bundled par name Hbundle) as [Hnd Hlen].
  destruct (SdatFacts.Fields___getitem___miss depth s l o name par v s1 file hdr arrs
              Ho Hmiss Hpar Hisnap Hfile Hparse) as (o1 & Ho1 & Hcls1 & Hrun).
  set (items := foldl _ _ _) in Hrun.
  set (o3 := Sdat.mk_step _ _ _ _ _ _) in Hrun.
  set (s3 := Sdat.mk_sdat _ _ _ _ _) in Hrun.
  assert (Sdat.heap s3 !! l = Some o3) as Ho3.
  { apply list_lookup_insert_eq. by eapply lookup_lt_Some. }
  assert (Sdat.cls o3 = Sdat._Step) as Hcls3 by (simpl; congruence).
  assert (∀ i sib, Sdat.fld_names par name !! i = Some sib →
            ∃ b, arrs !! i = Some b ∧ items !! sib = Some b) as Hitems.
  { intros i sib Hi.
    destruct (lookup_lt_is_Some_2 arrs i) as [b Hb].
    { apply lookup_lt_Some in Hi. lia. }
    exists b. split; [done|]. apply SdatFacts.store_lookup.
    - rewrite fst_zip; [done|lia].
    - apply (list_elem_of_lookup_2 _ i), lookup_zip_with_Some. by exists sib, b. }
  apply list_elem_of_lookup_1 in Hname as [i0 Hi0].
  destruct (Hitems _ _ Hi0) as (a & Ha & Hcached).
  exists a, s3. split_and!.
  - rewrite (SdatFacts.step_fields_getitem_Step _ _ _ o) by done.
    rewrite Hrun. by apply (SdatFacts.Fields___getitem___hit _ _ _ o3).
  - done.
  - pose proof (SdatFacts.getattr_isnap_keeps l s) as [_ [_ (probes & Hio & Hprobes)]].
    rewrite Hisnap in Hio. simpl in Hio. by exists probes.
  - pose proof (SdatFacts.getattr_isnap_keeps l s) as [_ [_ (probes & Hio & Hprobes)]].
    rewrite Hisnap in Hio. simpl in Hio. cbn [Sdat.io s3 Sdat.count_full].
    by rewrite Hio, SdatFacts.count_full_probes.
  - intros Hres. unfold Sdat.getattr_isnap, mbind, se_bind, Sdat.deref in Hisnap.
    rewrite Ho, Hcls in Hisnap.
    rewrite (SdatFacts.Step_isnap_resolved s l o Ho Hres) in Hisnap. by simplify_eq.
  - intros i sib Hi. destruct (Hitems _ _ Hi) as (b & Hb & Hsib).
    exists b. split_and!; [done| |].
    + intros ->. congruence.
    + intros d. rewrite (SdatFacts.step_fields_getitem_Step _ _ _ o3) by done.
      by apply (SdatFacts.Fields___getitem___hit _ _ _ o3).
Qed.

(** ** The properties on the sample dataset *)

Section SampleRuns.
#[local] Existing Instance Sample.numpy.
#[local] Existing Instance Sample.env.


Lemma registry_assignment_ignored_witness :
let s := Sdat.exec (Sdat.GetStep (PyInt 3))
           Sdat.StagyyData___init__ in
Sdat.steps
  (Sdat.run [Sdat.SetStep (PyInt 3) (Sdat.ObjStep 7); Sdat.GetSnap (PyInt 1);
             Sdat.SetSnap (PyInt 1) (Sdat.ObjStep 0); Sdat.GetStep (PyInt 3)] s)
  !! 3 = Some 0%nat.
Proof.
intros s. apply (registry_assignment_ignored s). reflexivity.
Defined.

(** C10 as stated fails: [pop] and [update], which the registry
    inherits from [dict], are as public as indexing and go past
    [__setitem__]. With steps 3 and 7 in the registry, [steps.pop(3)]
    removes the entry of 3, and the next [steps[3]] makes a second
    object for that step; and [steps.update] with the object of step
    3 under 7 replaces the entry of 7. *)
Lemma registry_entry_removed_and_replaced :
  let s := Sdat.run [Sdat.GetStep (PyInt 3); Sdat.GetStep (PyInt 7)]
             Sdat.StagyyData___init__ in
  Sdat.steps s !! 3 = Some 0%nat ∧ Sdat.steps s !! 7 = Some 1%nat ∧
  (let r := Sdat.Steps_pop (PyInt 3) s in
   fst r = Ok (Sdat.ObjStep 0) ∧ Sdat.steps (snd r) !! 3 = None ∧
   fst (Sdat.Steps___getitem__ (PyInt 3) (snd r)) = Ok (Sdat.ObjStep 2)) ∧
  Sdat.steps (snd (Sdat.Steps_update 7 0 s)) !! 7 = Some 0%nat.
Proof. cbv zeta. split_and!; reflexivity. Qed.

Lemma invalid_step_number_witness :
Sdat.Steps___getitem__ (PyInt (-1)) Sdat.StagyyData___init__
= (Raise (ValueError "Time step should be positive"), Sdat.StagyyData___init__) ∧
Sdat.Steps___getitem__ (PyStr "abc") Sdat.StagyyData___init__
= (Raise (ValueError "Time step should be an integer value"),
   Sdat.StagyyData___init__) ∧
Sdat.Steps___getitem__ (PyStr "-7") Sdat.StagyyData___init__
= (Raise (ValueError "Time step should be positive"), Sdat.StagyyData___init__).
Proof.
destruct (invalid_step_number Sdat.StagyyData___init__
            Sdat.reachable_init) as (H1 & H2 & H3 & _).
split_and!.
- apply H1. lia.
- apply H2. reflexivity.
- apply (H3 _ (-7)); [reflexivity|lia].
Defined.

(** C8 as stated fails: [None] and 2.5 are not integers, yet
  [steps[None]] returns a placeholder and [steps[2.5]] returns the
  step of number 2, which it creates. *)
Lemma non_integral_keys_accepted :
fst (Sdat.Steps___getitem__ PyNone Sdat.StagyyData___init__)
= Ok (Sdat.ObjStep 0) ∧
(let r := Sdat.Steps___getitem__ (PyFloat (FFin (5 # 2)))
            Sdat.StagyyData___init__ in
 fst r = Ok (Sdat.ObjStep 0) ∧ Sdat.steps (snd r) !! 2 = Some 0%nat).
Proof. cbv zeta. split_and!; reflexivity. Qed.


Lemma steps_slice_yields_range_once_witness :
  ∃ g s0,
    Sdat.Steps___getitem__ (PySlice (Some 10) (Some 20) (Some 2))
      Sdat.StagyyData___init__ = (Ok (Sdat.ObjGen g), s0) ∧
    ∃ ls s1,
      Sdat.py_list g s0 = (Ok (Sdat.ObjStep <$> ls), s1) ∧
      Forall2 (fun k l => Sdat.steps s1 !! k = Some l) [10; 12; 14; 16; 18] ls ∧
      Sdat.py_list g s1 = (Ok [], s1).
Proof.
  destruct (steps_slice_yields_range_once Sdat.StagyyData___init__ 10 20 2
              Sdat.reachable_init ltac:(lia))
    as (g & s0 & Hg & _ & _ & ls & s1 & Hls & Hall & Hagain).
  { vm_compute. repeat constructor; discriminate. }
  exists g, s0. split; [exact Hg|]. exists ls, s1. split_and!; [exact Hls| |exact Hagain].
  eapply Forall2_impl; [exact Hall|]. by intros k l [? _].
Defined.

(** C7 as stated fails: the value returned for [steps[10:20:2]] yields
    the five steps the first time it is iterated and nothing the
    second time. *)
Lemma steps_slice_not_reiterable :
  let r0 := Sdat.Steps___getitem__ (PySlice (Some 10) (Some 20) (Some 2))
              Sdat.StagyyData___init__ in
  let r1 := Sdat.py_list 0 (snd r0) in
  let r2 := Sdat.py_list 0 (snd r1) in
  fst r0 = Ok (Sdat.ObjGen 0) ∧
  fst r1 = Ok [Sdat.ObjStep 0; Sdat.ObjStep 1; Sdat.ObjStep 2; Sdat.ObjStep 3;
               Sdat.ObjStep 4] ∧
  fst r2 = Ok [].
Proof. cbv zeta. split_and!; reflexivity. Qed.

(** Two more ways in which a slice departs from its range: a range
    that starts below zero makes the iteration raise, and a stride of
    0, for which [range] has no values to give, is taken for 1. *)
Lemma steps_slice_negative_and_zero_stride :
  fst (Sdat.py_list 0
         (snd (Sdat.Steps___getitem__ (PySlice (Some (-2)) (Some 1) (Some 1))
                 Sdat.StagyyData___init__)))
  = Raise (ValueError "Time step should be positive") ∧
  fst (Sdat.py_list 0
         (snd (Sdat.Steps___getitem__ (PySlice (Some 0) (Some 3) (Some 0))
                 Sdat.StagyyData___init__)))
  = Ok [Sdat.ObjStep 0; Sdat.ObjStep 1; Sdat.ObjStep 2].
Proof. split; reflexivity. Qed.


Lemma missing_snapshot_placeholder_witness :
  ∃ l s1,
    Sdat.Snaps___getitem__ (PyInt 5) Sdat.StagyyData___init__
    = (Ok (Sdat.ObjStep l), s1) ∧
    Indexes.get_istep (Sdat.snaps_isteps s1) 5 = Ok PyNone ∧
    ∃ l2 s2,
      Sdat.Snaps___getitem__ (PyInt 5) s1 = (Ok (Sdat.ObjStep l2), s2) ∧
      Sdat.io s2 = Sdat.io s1.
Proof.
  destruct (missing_snapshot_placeholder Sdat.StagyyData___init__ 5
              Sdat.reachable_init ltac:(lia))
    as (l & s1 & H1 & _ & _ & _ & _ & _ & H2 & l2 & s2 & H3 & H4 & _).
  - apply IndexesFacts.keys_init.
  - vm_compute. discriminate.
  - intros par f Hpar Hf.
    assert (par = "vp" ∨ par = "t") as [-> | ->].
    { revert Hpar. vm_compute. intros Hpar.
      repeat (apply elem_of_cons in Hpar as [->|Hpar]; [tauto|]).
      by apply elem_of_nil in Hpar. }
    + vm_compute in Hf. injection Hf as Hf. subst f. reflexivity.
    + vm_compute in Hf. injection Hf as Hf. subst f. reflexivity.
  - exists l, s1. split; [exact H1|]. split; [exact H2|].
    exists l2, s2. split; [exact H3|exact H4].
Defined.

(** C1 as stated fails twice over. Snapshot 999999 has no file, and
    [snaps[999999]] raises [IndexError]; snapshot 5 has no file either,
    [snaps[5]] is a placeholder, and [.fields['t']] on it raises
    [TypeError], [fields] being [None] there. *)
Lemma missing_snapshot_raises :
  fst (Sdat.Snaps___getitem__ (PyInt 999999) Sdat.StagyyData___init__)
  = Raise IndexError ∧
  (let r := Sdat.Snaps___getitem__ (PyInt 5) Sdat.StagyyData___init__ in
   fst r = Ok (Sdat.ObjStep 0) ∧
   Sdat.EmptyStep___getattribute__ 0 "fields" = PyNone ∧
   fst (Sdat.step_fields_getitem 1000 0 "t" (snd r)) = Raise TypeError).
Proof. cbv zeta. split_and!; reflexivity. Qed.


Lemma bundled_record_fan_out_witness :
  let s := snd (Sdat.Snaps___getitem__ (PyInt 2) Sdat.StagyyData___init__) in
  ∃ a s2,
    Sdat.step_fields_getitem 1 0 "u" s = (Ok a, s2) ∧
    Sdat.io s2 = ("out/run_vp00002", Sdat.Full) :: Sdat.io s ∧
    ∀ d, Sdat.step_fields_getitem d 0 "p" s2 = (Ok [(4 # 1)%Q], s2).
Proof.
  intros s.
  destruct (bundled_record_fan_out s 0 (Sdat.mk_step Sdat._Step (PyInt 30)
                (Sdat.mk_fields ∅ Sdat.HeaderUndetermined)
                (PyInt 2) UNDETERMINED UNDETERMINED)
              "u" "vp" 0 (PyInt 2) s "out/run_vp00002"
              (Sample.header (Geometry.HNum (-1 # 1)%Q) [64; 1; 32])
              [[(1 # 1)%Q]; [(2 # 1)%Q]; [(3 # 1)%Q]; [(4 # 1)%Q]])
    as (a & s2 & H1 & H2 & _ & _ & _ & H3);
    [reflexivity|reflexivity|reflexivity|by left| |reflexivity|reflexivity
    |reflexivity|reflexivity|simpl; lia|].
  - change (Sdat.fld_names "vp" "u") with ["u"; "v"; "w"; "p"]. by left.
  - exists a, s2. split; [exact H1|]. split; [exact H2|].
    destruct (H3 3%nat "p" eq_refl) as (b & Hb & _ & Hget).
    injection Hb as <-. exact Hget.
Defined.

(** C5 as stated fails: on a step whose snapshot number is not known
    yet, the first access to a field of the velocity-pressure record
    makes six calls to the parser, not one. The getter of [isnap]
    searches forward and asks every file of snapshots 0, 1 and 2 for
    its step number, the owning file among them; then the owning file
    is parsed. *)
Lemma first_access_makes_six_parser_calls :
  let s := snd (Sdat.Steps___getitem__ (PyInt 30) Sdat.StagyyData___init__) in
  let r := Sdat.step_fields_getitem 1 0 "u" s in
  Sdat.io s = [] ∧
  fst r = Ok [(1 # 1)%Q] ∧
  length (Sdat.io (snd r)) = 6%nat ∧
  Sdat.io (snd r)
  = [("out/run_vp00002", Sdat.Full); ("out/run_vp00002", Sdat.OnlyIstep);
     ("out/run_t00001", Sdat.OnlyIstep); ("out/run_vp00001", Sdat.OnlyIstep);
     ("out/run_t00000", Sdat.OnlyIstep); ("out/run_vp00000", Sdat.OnlyIstep)] ∧
  Sdat.step_fields_getitem 1 0 "w" (snd r) = (Ok [(3 # 1)%Q], snd r).
Proof. cbv zeta. split_and!; vm_compute; reflexivity. Qed.

End SampleRuns.

Lemma lookup_list_insert_at_lt {A} i j (x : A) l :
  (j < i)%nat → (i ≤ length l)%nat → list_insert_at i x l !! j = l !! j.
Proof.
  intros Hj Hi. unfold list_insert_at.
  rewrite lookup_app_l by (rewrite length_take; lia).
  by rewrite lookup_take_lt.
Qed.

Lemma lookup_list_insert_at_gt {A} i j (x : A) l :
  (i ≤ j)%nat → (i ≤ length l)%nat → list_insert_at i x l !! S j = l !! j.
Proof.
  intros Hj Hi. unfold list_insert_at.
  rewrite lookup_app_r by (rewrite length_take; lia).
  rewrite length_take_le by done.
  replace (S j - i)%nat with (S (j - i)) by lia. simpl.
  rewrite lookup_drop. f_equal. lia.
Qed.

Lemma sorted_lookup_inj (a : list Z) i j x :
  StronglySorted Z.lt a → a !! i = Some x → a !! j = Some x → i = j.
Proof.
  intros Hs Hi Hj.
  destruct (decide (i < j)%nat) as [Hlt|].
  { pose proof (sorted_lookup_lt a i j x x Hs Hi Hj Hlt). lia. }
  destruct (decide (j < i)%nat) as [Hlt|]; [|lia].
  pose proof (sorted_lookup_lt a j i x x Hs Hj Hi Hlt). lia.
Qed.

(** An increasing list of integers climbs by at least one at every
    position. *)
Lemma sorted_lookup_climb (a : list Z) i x y :
  StronglySorted Z.lt a → a !! 0%nat = Some x → a !! i = Some y → x + Z.of_nat i ≤ y.
Proof.
  intros Hs H0. revert y. induction i as [|i IH]; intros y Hi.
  - simplify_eq. lia.
  - destruct (lookup_lt_is_Some_2 a i) as [z Hz].
    { apply lookup_lt_Some in Hi. lia. }
    pose proof (IH z Hz).
    pose proof (sorted_lookup_lt a i (S i) z y Hs Hz Hi ltac:(lia)). lia.
Qed.

Lemma sorted_length_bound (a : list Z) lo n :
  StronglySorted Z.lt a → (∀ x, x ∈ a → lo ≤ x < lo + n) → Z.of_nat (length a) ≤ Z.max 0 n.
Proof.
  intros Hs Hb. destruct a as [|x a]; [simpl; lia|].
  destruct (lookup_lt_is_Some_2 (x :: a) (length a)) as [y Hy]; [simpl; lia|].
  pose proof (sorted_lookup_climb (x :: a) (length a) x y Hs eq_refl Hy).
  pose proof (Hb x ltac:(left)).
  pose proof (Hb y ltac:(by eapply list_elem_of_lookup_2)).
  simpl length. lia.
Qed.

Lemma StronglySorted_filter {A} (R : relation A) (P : A → Prop)
    `{!∀ x, Decision (P x)} (l : list A) :
  StronglySorted R l → StronglySorted R (filter P l).
Proof.
  induction 1 as [|x l Hs IH Hx]; [constructor|].
  rewrite filter_cons. case_decide; [|done].
  constructor; [done|]. rewrite Forall_forall in *.
  intros y [_ Hy]%list_elem_of_filter. by apply Hx.
Qed.

Module IndexesMore.
Import Indexes IndexesFacts.

(** [insert] leaves what is recorded under the other numbers as it
    is. *)
Lemma insert_other ix k v ix' k' :
  wf ix → insert ix k v = Ok ix' → k' ≠ k → in_range k' →
  get_istep ix' k' = get_istep ix k'.
Proof.
  intros Hwf Hins Hne Hk'.
  destruct (insert_wf _ _ _ _ Hwf Hins) as (Hwf' & Hk & Hkeys).
  destruct (decide (k ∈ keys ix)) as [Hin|Hnin].
  { rewrite insert_known in Hins by done. by simplify_eq. }
  destruct (decide (k' ∈ keys ix)) as [Hin'|Hnin']; last first.
  { rewrite !get_istep_absent; [done..| |done|done|].
    - done.
    - rewrite Hkeys. intros [?|?]; done. }
  (* [k'] is recorded: follow it through the bucket *)
  destruct (get_istep_known ix k' Hwf Hk' Hin') as (ks & vs & w & Hks & Hvs & Hw & ->).
  destruct (get_istep_known ix' k' Hwf' Hk') as (ks' & vs' & w' & Hks' & Hvs' & Hw' & ->).
  { apply Hkeys. by right. }
  f_equal.
  (* what [insert] did *)
  destruct (wf_bucket ix (bucket_of k) Hwf (bucket_of_lt k))
    as (ks0 & vs0 & Hks0 & Hvs0 & Hlen0 & Hs0).
  pose proof (wf_isnap_len _ Hwf) as Hl1. pose proof (wf_istep_len _ Hwf) as Hl2.
  assert (k ∉ ks0) as Hnin0 by (by rewrite <- keys_bucket).
  unfold insert in Hins. rewrite (_isnap_idx_eval _ _ ks0) in Hins by done.
  simpl in Hins. rewrite bool_decide_eq_false_2 in Hins by done.
  rewrite (bucket_getitem _ _ ks0 Hl1 Hk Hks0) in Hins. simpl in Hins.
  rewrite (bucket_getitem _ _ vs0 Hl2 Hk Hvs0) in Hins. simpl in Hins.
  rewrite Hl1, Hl2, norm_index_in_range in Hins by done.
  injection Hins as Hins. subst ix'. simpl in Hks', Hvs'.
  destruct (decide (bucket_of k' = bucket_of k)) as [Hb|Hb].
  - rewrite Hb in *. simplify_eq.
    rewrite list_lookup_insert_eq in Hks' by (rewrite Hl1; apply bucket_of_lt).
    rewrite list_lookup_insert_eq in Hvs' by (rewrite Hl2; apply bucket_of_lt).
    simplify_eq.
    destruct (bisect_left_splits ks k Hs0) as [Hi [Hsp1 Hsp2]].
    set (i := bisect_left ks k) in *.
    assert (StronglySorted Z.lt (list_insert_at i k ks)) as Hs'
      by (by apply sorted_insert_at).
    rewrite (keys_bucket _ _ ks) in Hin' by (done || by rewrite Hb).
    pose proof (proj2 (bisect_left_present ks k' Hs0) Hin') as Hp.
    set (j := bisect_left ks k') in *.
    assert (k' ∈ list_insert_at i k ks) as Hin'' by (apply elem_of_list_insert_at; by right).
    pose proof (proj2 (bisect_left_present _ k' Hs') Hin'') as Hp'.
    set (j' := bisect_left (list_insert_at i k ks) k') in *.
    destruct (decide (j < i)%nat) as [Hlt|Hge].
    + assert (j' = j) as ->.
      { eapply sorted_lookup_inj; [exact Hs'|exact Hp'|].
        by rewrite lookup_list_insert_at_lt. }
      rewrite lookup_list_insert_at_lt in Hw' by lia. by simplify_eq.
    + assert (j' = S j) as ->.
      { eapply sorted_lookup_inj; [exact Hs'|exact Hp'|].
        by rewrite lookup_list_insert_at_gt by lia. }
      rewrite lookup_list_insert_at_gt in Hw' by lia. by simplify_eq.
  - rewrite list_lookup_insert_ne in Hks' by done.
    rewrite list_lookup_insert_ne in Hvs' by done. by simplify_eq.
Qed.

Lemma inserts_first_binding ops : ∀ ix ix' k,
  wf ix → inserts ops ix = Ok ix' → in_range k →
  get_istep ix' k =
  if bool_decide (k ∈ keys ix) then get_istep ix k else Ok (first_binding ops k).
Proof.
  induction ops as [|[k0 v] ops IH]; intros ix ix' k Hwf Hrun Hk; simpl in *.
  - simplify_eq. case_bool_decide; [done|]. by apply get_istep_absent.
  - destruct (insert ix k0 v) as [ix1|] eqn:Hins; simpl in Hrun; [|done].
    destruct (insert_wf _ _ _ _ Hwf Hins) as (Hwf1 & Hk0 & Hkeys).
    rewrite (IH ix1 ix' k Hwf1 Hrun Hk).
    destruct (decide (k = k0)) as [->|Hne].
    + rewrite (bool_decide_eq_true_2 (k0 = k0)) by done.
      rewrite (bool_decide_eq_true_2 (k0 ∈ keys ix1)) by (apply Hkeys; by left).
      case_bool_decide as Hin.
      * rewrite insert_known in Hins by done. by simplify_eq.
      * destruct (insert_fresh ix k0 v Hwf Hk0 Hin) as (ix2 & Hins2 & _ & Hget & _).
        rewrite Hins2 in Hins. by simplify_eq.
    + rewrite (bool_decide_eq_false_2 (k0 = k)) by done.
      assert (k ∈ keys ix1 ↔ k ∈ keys ix) as Hiff.
      { rewrite Hkeys. intuition. }
      rewrite (bool_decide_ext _ _ Hiff).
      case_bool_decide; [|done]. by eapply insert_other.
Qed.

(** The lists hold at most 250 numbers from 0 up, and as many of the
    negative ones that Python's indexing folds into them. *)
Lemma bucket_length ix b ks :
  wf ix → isnap ix !! b = Some ks →
  (length ks ≤ 500)%nat ∧ (Forall (fun k => 0 ≤ k) ks → (length ks ≤ 250)%nat).
Proof.
  intros Hwf Hks. pose proof (wf_sorted _ Hwf _ _ Hks) as Hs.
  assert (b < 400)%nat as Hb.
  { apply lookup_lt_Some in Hks. by rewrite (wf_isnap_len _ Hwf) in Hks. }
  assert (∀ k, k ∈ ks → 0 ≤ k → 250 * Z.of_nat b ≤ k < 250 * Z.of_nat b + 250) as Hpos.
  { intros k Hk Hk0. destruct (wf_home _ Hwf _ _ _ Hks Hk) as [Hr <-].
    unfold in_range, bucket_of in *. rewrite Z2Nat.id by (Z.div_mod_to_equations; lia).
    Z.div_mod_to_equations; lia. }
  assert (∀ k, k ∈ ks → k < 0 →
            250 * Z.of_nat b - 100000 ≤ k < 250 * Z.of_nat b - 100000 + 250) as Hneg.
  { intros k Hk Hk0. destruct (wf_home _ Hwf _ _ _ Hks Hk) as [Hr <-].
    unfold in_range, bucket_of in *. rewrite Z2Nat.id by (Z.div_mod_to_equations; lia).
    Z.div_mod_to_equations; lia. }
  split.
  - (* the negative ones come first *)
    pose proof (filter_app_complement (fun k => k < 0) ks) as Hperm.
    apply Permutation_length in Hperm. rewrite length_app in Hperm. rewrite <- Hperm.
    assert (Z.of_nat (length (filter (λ k, k < 0) ks)) ≤ Z.max 0 250).
    { apply (sorted_length_bound _ (250 * Z.of_nat b - 100000)).
      - by apply StronglySorted_filter.
      - intros x [Hx0 Hx]%list_elem_of_filter. by apply Hneg. }
    assert (Z.of_nat (length (filter (λ k, ¬ k < 0) ks)) ≤ Z.max 0 250).
    { apply (sorted_length_bound _ (250 * Z.of_nat b)).
      - by apply StronglySorted_filter.
      - intros x [Hx0 Hx]%list_elem_of_filter. apply Hpos; [done|lia]. }
    lia.
  - intros Hall. rewrite Forall_forall in Hall.
    assert (Z.of_nat (length ks) ≤ Z.max 0 250); [|lia].
    apply (sorted_length_bound _ (250 * Z.of_nat b)); [done|].
    intros x Hx. apply Hpos; [done|]. by apply Hall.
Qed.

End IndexesMore.

(** X1. The index is a first-writer-wins map. A run of inserts goes
    through exactly when every snapshot number lies in
    [-100000, 100000); the index it builds then answers, for every
    number of that range, with the value of the first insert of that
    number, and with [UNDETERMINED] when there was none. *)
Theorem index_refines_first_binding (ops : list (Z * pyval)) :
  Forall (fun kv => -100000 ≤ kv.1 < 100000) ops →
  ∃ ix, Indexes.inserts ops Indexes.init = Ok ix ∧
        ∀ k, -100000 ≤ k < 100000 →
             Indexes.get_istep ix k = Ok (first_binding ops k).
Proof.
  intros Hops.
  assert (∀ ix, Indexes.wf ix → ∃ ix', Indexes.inserts ops ix = Ok ix') as Hrun.
  { induction Hops as [|[k v] ops Hk _ IH]; intros ix Hwf; simpl; [by eexists|].
    destruct (decide (k ∈ Indexes.keys ix)) as [Hin|Hnin].
    - rewrite IndexesFacts.insert_known by done. simpl. by apply IH.
    - destruct (IndexesFacts.insert_fresh ix k v Hwf Hk Hnin) as (ix1 & -> & Hwf1 & _).
      simpl. by apply IH. }
  destruct (Hrun _ IndexesFacts.wf_init) as [ix Hix]. exists ix. split; [done|].
  intros k Hk.
  rewrite (IndexesMore.inserts_first_binding ops Indexes.init ix k
             IndexesFacts.wf_init Hix Hk).
  rewrite bool_decide_eq_false_2; [done|]. apply IndexesFacts.keys_init.
Qed.

Lemma index_refines_first_binding_witness :
  ∃ ix, Indexes.inserts [(5, PyInt 2); (-1, PyNone); (5, PyInt 9)] Indexes.init = Ok ix ∧
        Indexes.get_istep ix 5 = Ok (PyInt 2) ∧
        Indexes.get_istep ix (-1) = Ok PyNone ∧
        Indexes.get_istep ix 6 = Ok UNDETERMINED.
Proof.
  destruct (index_refines_first_binding [(5, PyInt 2); (-1, PyNone); (5, PyInt 9)])
    as (ix & Hix & Hget).
  { repeat constructor; simpl; lia. }
  exists ix. split; [exact Hix|].
  split_and!; [apply (Hget 5)|apply (Hget (-1))|apply (Hget 6)]; lia.
Defined.

(** X2. The shape of the index, whatever was inserted: 400 lists on
    each side; the two lists of a pair have the same length; a list of
    snapshot numbers is strictly increasing and holds the inserted
    numbers [k] with [(k // 250) mod 400] equal to its position, each
    once; it has at most 500 entries, and at most 250, as the
    docstring of [__init__] says, when no negative number was
    inserted. *)
Theorem index_lists_sorted_and_bounded (ops : list (Z * pyval)) (ix : Indexes.t) :
  Indexes.inserts ops Indexes.init = Ok ix →
  length (Indexes.isnap ix) = 400%nat ∧ length (Indexes.istep ix) = 400%nat ∧
  ∀ b, (b < 400)%nat →
    ∃ ks vs,
      Indexes.isnap ix !! b = Some ks ∧ Indexes.istep ix !! b = Some vs ∧
      length vs = length ks ∧ StronglySorted Z.lt ks ∧
      (∀ k, k ∈ ks ↔ k ∈ ops.*1 ∧ (k / 250) `mod` 400 = Z.of_nat b) ∧
      (length ks ≤ 500)%nat ∧
      (Forall (fun kv => 0 ≤ kv.1) ops → (length ks ≤ 250)%nat).
Proof.
  intros Hrun.
  destruct (IndexesFacts.inserts_wf _ _ _ IndexesFacts.wf_init Hrun) as [Hwf Hkeys].
  split; [by apply Indexes.wf_isnap_len|]. split; [by apply Indexes.wf_istep_len|].
  intros b Hb.
  destruct (IndexesFacts.wf_bucket ix b Hwf Hb) as (ks & vs & Hks & Hvs & Hlen & Hs).
  exists ks, vs. split_and!; [done..| | |].
  - intros k. split.
    + intros Hk. destruct (Indexes.wf_home _ Hwf _ _ _ Hks Hk) as [Hr <-]. split.
      * assert (k ∈ Indexes.keys ix) as Hin.
        { apply elem_of_concat_lookup. eauto. }
        apply Hkeys in Hin as [?|Hin]; [done|]. by apply IndexesFacts.keys_init in Hin.
      * unfold Indexes.bucket_of. rewrite Z2Nat.id; [done|].
        Z.div_mod_to_equations; lia.
    + intros [Hk Hbk].
      assert (k ∈ Indexes.keys ix) as Hin by (apply Hkeys; by left).
      apply elem_of_concat_lookup in Hin as (b' & ks' & Hks' & Hin).
      destruct (Indexes.wf_home _ Hwf _ _ _ Hks' Hin) as [Hr Hb'].
      assert (b' = b) as ->.
      { rewrite <- Hb'. unfold Indexes.bucket_of. rewrite Hbk. apply Nat2Z.id. }
      by simplify_eq.
  - by destruct (IndexesMore.bucket_length ix b ks Hwf Hks).
  - intros Hpos. destruct (IndexesMore.bucket_length ix b ks Hwf Hks) as [_ Hl].
    apply Hl. apply Forall_forall. intros k Hk.
    assert (k ∈ Indexes.keys ix) as Hin.
    { apply elem_of_concat_lookup. eauto. }
    apply Hkeys in Hin as [Hin|Hin]; [|by apply IndexesFacts.keys_init in Hin].
    apply list_elem_of_fmap in Hin as ([k' v] & -> & Hin).
    rewrite Forall_forall in Hpos. by apply (Hpos _ Hin).
Qed.

Lemma index_lists_sorted_and_bounded_witness :
  ∃ ix, Indexes.inserts [(260, PyInt 2); (-1, PyNone); (251, PyInt 9)] Indexes.init = Ok ix ∧
        ∃ ks vs, Indexes.isnap ix !! 1%nat = Some ks ∧ Indexes.istep ix !! 1%nat = Some vs ∧
                 length vs = length ks ∧ StronglySorted Z.lt ks ∧ (length ks ≤ 500)%nat.
Proof.
  destruct (Indexes.inserts [(260, PyInt 2); (-1, PyNone); (251, PyInt 9)] Indexes.init)
    as [ix|e] eqn:E; [|vm_compute in E; discriminate E].
  exists ix. split; [reflexivity|].
  destruct (index_lists_sorted_and_bounded _ ix E) as (_ & _ & Hb).
  destruct (Hb 1%nat ltac:(lia)) as (ks & vs & ? & ? & ? & ? & _ & ? & _).
  by exists ks, vs.
Defined.

(** X3. [_isnap_idx] on an index built by inserts, for a snapshot
    number in range: it names list [isnap // 250], tells whether the
    number was inserted, and gives the position that keeps the list
    sorted: the numbers before it are smaller, those from it on are
    not. *)
Theorem isnap_idx_finds_the_position (ops : list (Z * pyval)) (ix : Indexes.t) (k : Z) :
  Indexes.inserts ops Indexes.init = Ok ix → -100000 ≤ k < 100000 →
  ∃ ks idx,
    list_getitem (Indexes.isnap ix) (k / 250) = Ok ks ∧
    Indexes._isnap_idx ix k = Ok (k / 250, idx, bool_decide (k ∈ ops.*1)) ∧
    (idx ≤ length ks)%nat ∧
    Forall (fun k' => k' < k) (take idx ks) ∧
    Forall (fun k' => k ≤ k') (drop idx ks) ∧
    (k ∈ ops.*1 → ks !! idx = Some k).
Proof.
  intros Hrun Hk.
  destruct (IndexesFacts.inserts_wf _ _ _ IndexesFacts.wf_init Hrun) as [Hwf Hkeys].
  destruct (IndexesFacts.wf_bucket ix _ Hwf (IndexesFacts.bucket_of_lt k))
    as (ks & vs & Hks & Hvs & Hlen & Hs).
  destruct (bisect_left_splits ks k Hs) as [Hi [Hsp1 Hsp2]].
  assert (k ∈ ks ↔ k ∈ ops.*1) as Hiff.
  { rewrite <- (IndexesFacts.keys_bucket ix k ks Hwf Hks), Hkeys.
    split; [|by left]. intros [?|Hin]; [done|]. by apply IndexesFacts.keys_init in Hin. }
  exists ks, (bisect_left ks k). split_and!.
  - apply IndexesFacts.bucket_getitem; [by apply Indexes.wf_isnap_len|done..].
  - rewrite (IndexesFacts._isnap_idx_eval ix k ks Hwf Hk Hks).
    by rewrite (bool_decide_ext _ _ Hiff).
  - done.
  - apply Forall_forall. intros k' (j & Hj & Hlt)%elem_of_take. eauto.
  - apply Forall_forall. intros k' [j Hj]%list_elem_of_lookup_1.
    rewrite lookup_drop in Hj. apply (Hsp2 _ _ Hj). lia.
  - intros Hin. apply bisect_left_present; [done|]. by apply Hiff.
Qed.

Lemma isnap_idx_finds_the_position_witness :
  ∃ ix, Indexes.inserts [(260, PyInt 2); (-1, PyNone); (251, PyInt 9)] Indexes.init = Ok ix ∧
        ∃ ks idx, list_getitem (Indexes.isnap ix) (255 / 250) = Ok ks ∧
                  Indexes._isnap_idx ix 255 = Ok (255 / 250, idx, false) ∧
                  Forall (fun k' => k' < 255) (take idx ks).
Proof.
  destruct (Indexes.inserts [(260, PyInt 2); (-1, PyNone); (251, PyInt 9)] Indexes.init)
    as [ix|e] eqn:E; [|vm_compute in E; discriminate E].
  exists ix. split; [reflexivity|].
  destruct (isnap_idx_finds_the_position _ ix 255 E ltac:(lia))
    as (ks & idx & ? & Hidx & _ & ? & _).
  exists ks, idx. split_and!; [done| |done].
  rewrite Hidx. do 2 f_equal.
Defined.

Module GeometryMore.
Section WithNumpy.
Context `{Numpy}.
Import Geometry GeometryFacts.

Implicit Types (h : gmap string hval) (self : t).

Lemma twod_xz_ntot self h :
  twod_xz self h = (n ← list_getitem (ntot (_shape self)) 1; Ok (n =? 1)).
Proof.
  unfold twod_xz.
  change (__getattr__ self h "nytot")
    with (GInt <$> list_getitem (ntot (_shape self)) 1).
  by destruct (list_getitem _ _).
Qed.

(** [__init__], when it returns, went through its three parts. *)
Lemma init_inv par h g h' :
  __init__ par h = (Ok g, h') →
  ∃ nt aspect self1 self2,
    read_ntot h = Ok nt ∧ read_aspect h = Ok aspect ∧
    classify (mk par None None None (mk_shape false false false nt))
             (str_lower (par_shape par)) aspect h = (Ok self1, h') ∧
    flag_axi self1 (str_lower (par_shape par)) h' = (Ok self2, h') ∧
    build_meshes self2 h' = (Ok g, h').
Proof.
  intros Hinit. unfold __init__ in Hinit.
  unfold mbind at 1 2 3 4, se_bind, se_get, se_lift in Hinit.
  destruct (read_ntot h) as [nt|]; [|done].
  destruct (read_aspect h) as [aspect|]; [|done].
  set (self := mk par None None None _) in Hinit.
  unfold mbind, se_bind in Hinit.
  destruct (classify self _ aspect h) as [[self1|] h1] eqn:Hc; [|done].
  pose proof (flag_axi_header self1 (str_lower (par_shape par)) h1) as Hf.
  destruct (flag_axi self1 _ _) as [[self2|] h2] eqn:Hfl; [|done].
  simpl in Hf. subst h2.
  pose proof (build_meshes_header self2 h1) as Hb.
  rewrite Hinit in Hb. simpl in Hb. subst h'.
  by exists nt, aspect, self1, self2.
Qed.

(** What [classify] decides, by what the header holds under
    [rcmb]. *)
Lemma classify_inv self shape aspect h self1 h' :
  classify self shape aspect h = (Ok self1, h') →
  sph (_shape self) = false → cyl (_shape self) = false →
  _par self1 = _par self ∧ ntot (_shape self1) = ntot (_shape self) ∧
  axi (_shape self1) = axi (_shape self) ∧
  ∃ q, rcmb self1 h' = Ok (Some q) ∧
    ((h !! "rcmb" ≠ Some HNone ∧ h' = h ∧ rcmb self h = Ok (Some q) ∧
      if Qle_bool 0 q then
        ∃ xz, twod_xz self h = Ok xz ∧ sph (_shape self1) = negb (cyl (_shape self1)) ∧
          (cyl (_shape self1) = true → xz = true) ∧
          (xz = true → shape = "cylindrical" → cyl (_shape self1) = true)
      else sph (_shape self1) = false ∧ cyl (_shape self1) = false) ∨
     (h !! "rcmb" = Some HNone ∧ h' = <["rcmb" := HNum (par_r_cmb (_par self))]> h ∧
      q = par_r_cmb (_par self) ∧
      if Qle_bool 0 q then
        ∃ xz, twod_xz self h = Ok xz ∧
          cyl (_shape self1) = xz && bool_decide (shape = "cylindrical") ∧
          sph (_shape self1) =
            negb (cyl (_shape self1)) && bool_decide (shape = "spherical")
      else sph (_shape self1) = false ∧ cyl (_shape self1) = false)).
Proof.
  intros Hc Hs Hcy. unfold classify in Hc.
  unfold mbind, se_bind, se_get, se_lift, se_modify, se_raise, mret, se_ret in Hc.
  rewrite rcmb_eval in Hc.
  destruct (h !! "rcmb") as [v|] eqn:Hr; [|done].
  assert (v = HNone ∨ ∃ q, rcmb self h = Ok (Some q) ∧ v ≠ HNone ∧
            match v with HNone => Ok None | HNum q0 => Ok (Some q0)
                       | HInt z => Ok (Some (inject_Z z)) | _ => Raise TypeError end
            = Ok (Some q)) as [-> | (q & Hq0 & Hv & Hq1)].
  { rewrite rcmb_eval, Hr. destruct v; eauto; done. }
  - (* [None] in the header *)
    simpl in Hc. rewrite rcmb_eval, lookup_insert_eq in Hc. simpl in Hc.
    assert (rcmb self1 (<["rcmb" := HNum (par_r_cmb (_par self))]> h)
            = Ok (Some (par_r_cmb (_par self)))) as Hr1
      by (by rewrite rcmb_eval, lookup_insert_eq).
    destruct (Qle_bool 0 (par_r_cmb (_par self))) eqn:Hq.
    + rewrite !twod_xz_ntot in Hc. rewrite twod_xz_ntot.
      destruct (list_getitem (ntot (_shape self)) 1) as [n|] eqn:Hn; simpl in Hc; [|done].
      destruct (n =? 1) eqn:En; simpl in Hc;
        repeat (case_bool_decide; simplify_eq/=);
        (split_and!; [done..|]; eexists; split; [exact Hr1|]; right;
         split_and!; [done..|]; rewrite Hq; eexists; split; [done|];
         rewrite ?Hs, ?Hcy; simpl;
         rewrite ?bool_decide_eq_true_2, ?bool_decide_eq_false_2 by done;
         rewrite ?En; by rewrite ?andb_false_r).
    + simplify_eq/=. split_and!; [done..|]. eexists. split; [exact Hr1|]. right.
      split_and!; [done..|]. by rewrite Hq.
  - (* a number in the header *)
    rewrite Hq1 in Hc. simpl in Hc.
    assert (rcmb self1 h = Ok (Some q)) as Hr1.
    { by rewrite rcmb_eval, Hr. }
    destruct (Qle_bool 0 q) eqn:Hq.
    + rewrite !twod_xz_ntot in Hc. rewrite twod_xz_ntot.
      destruct (list_getitem (ntot (_shape self)) 1) as [n|] eqn:Hn; simpl in Hc; [|done].
      destruct (n =? 1) eqn:En; simpl in Hc;
        repeat (case_bool_decide; simplify_eq/=);
        try (destruct (list_getitem aspect 0) as [a0|]; simplify_eq/=);
        (split_and!; [done..|]; eexists; split; [exact Hr1|]; left;
         split_and!; [congruence|done|done|]; rewrite Hq; eexists; split; [done|];
         rewrite ?En; simpl; split_and!; done).
    + simplify_eq/=. split_and!; [done..|]. eexists. split; [exact Hr1|]. left.
      split_and!; [congruence|done|done|]. by rewrite Hq.
Qed.


Lemma flag_axi_inv self shape h self2 h2 :
  flag_axi self shape h = (Ok self2, h2) →
  h2 = h ∧ _par self2 = _par self ∧
  sph (_shape self2) = sph (_shape self) ∧ cyl (_shape self2) = cyl (_shape self) ∧
  ntot (_shape self2) = ntot (_shape self) ∧
  (axi (_shape self2) = true →
   cartesian self = true ∧ twod_xz self h = Ok true ∧ shape = "axisymmetric") ∧
  (cartesian self = true → twod_xz self h = Ok true → shape = "axisymmetric" →
   axi (_shape self2) = true) ∧
  (cartesian self = true → ∃ xz, twod_xz self h = Ok xz).
Proof.
  unfold flag_axi, mbind, se_bind, se_get, se_lift, mret, se_ret. simpl.
  destruct (cartesian self); simpl.
  - destruct (twod_xz self h) as [xz|]; simpl; [|done].
    intros [= <- <-]. simpl. split_and!; try done.
    + intros [-> Hsh%bool_decide_eq_true]%andb_true_iff. done.
    + intros _ [= ->] ->. done.
    + intros _. by exists xz.
  - intros [= <- <-]. simpl. split_and!; done.
Qed.

Lemma build_meshes_inv self h g h' :
  build_meshes self h = (Ok g, h') →
  h' = h ∧ _par g = _par self ∧ _shape g = _shape self ∧
  ∃ e1 e2 e3,
    h !! "e1_coord" = Some (HArr e1) ∧ h !! "e2_coord" = Some (HArr e2) ∧
    h !! "e3_coord" = Some (HArr e3) ∧ _coords g = Some [e1; e2; e3] ∧
    if cartesian self then
      _cart_meshes g
      = Some (let '(mx, my, mz) := np_meshgrid e1 e2 e3 in [mx; my; mz]) ∧
      _curv_meshes g = Some [None; None; None]
    else
      ∃ q, rcmb self h = Ok (Some q) ∧
        let '(mt, mp, mr) := np_meshgrid e1 e2 (np_add_scalar e3 q) in
        _curv_meshes g = Some [Some mt; Some mp; Some mr] ∧
        _cart_meshes g
        = Some [np_mul (np_mul mr (np_cos mp)) (np_sin mt);
                np_mul (np_mul mr (np_sin mp)) (np_sin mt);
                np_mul mr (np_cos mt)].
Proof.
  unfold build_meshes, mbind, se_bind, se_get, se_lift, se_raise, mret, se_ret.
  unfold read_coord, hget, mbind.
  destruct (h !! "e1_coord") as [[| | | | |e1]|] eqn:He1; try done.
  destruct (h !! "e2_coord") as [[| | | | |e2]|] eqn:He2; try done.
  destruct (h !! "e3_coord") as [[| | | | |e3]|] eqn:He3; try done.
  cbn.
  set (self' := mk _ _ _ _ _).
  destruct (getattr_coord_eval self' h e1 e2 e3 eq_refl) as (-> & -> & ->). cbn.
  change (cartesian self') with (cartesian self).
  destruct (cartesian self).
  - destruct (np_meshgrid e1 e2 e3) as [[mx my] mz] eqn:Hm. intros [= <- <-].
    split_and!; try done. exists e1, e2, e3. split_and!; try done.
    simpl. by rewrite Hm.
  - change (rcmb self' h) with (rcmb self h).
    destruct (rcmb self h) as [[q|]|]; simpl; try done.
    destruct (np_meshgrid e1 e2 (np_add_scalar e3 q)) as [[mt mp] mr] eqn:Hm.
    intros [= <- <-]. split_and!; try done. exists e1, e2, e3.
    split_and!; try done. exists q. split; [done|]. by rewrite Hm.
Qed.

(** What a geometry that [__init__] returned is made of. *)
Lemma init_shape par h g h' :
  __init__ par h = (Ok g, h') →
  ∃ nt aspect self1,
    read_ntot h = Ok nt ∧ read_aspect h = Ok aspect ∧
    classify (mk par None None None (mk_shape false false false nt))
             (str_lower (par_shape par)) aspect h = (Ok self1, h') ∧
    _par g = par ∧ ntot (_shape g) = nt ∧
    sph (_shape g) = sph (_shape self1) ∧ cyl (_shape g) = cyl (_shape self1) ∧
    ntot (_shape self1) = nt ∧
    (axi (_shape g) = true →
     cartesian g = true ∧ twod_xz g h' = Ok true ∧
     str_lower (par_shape par) = "axisymmetric") ∧
    (cartesian g = true → twod_xz g h' = Ok true →
     str_lower (par_shape par) = "axisymmetric" → axi (_shape g) = true).
Proof.
  intros (nt & aspect & self1 & self2 & Hnt & Ha & Hc & Hf & Hb)%init_inv.
  destruct (classify_inv _ _ _ _ _ _ Hc eq_refl eq_refl) as (Hp1 & Hn1 & _).
  destruct (flag_axi_inv _ _ _ _ _ Hf) as (_ & Hp2 & Hs2 & Hc2 & Hn2 & Hax & Hax' & _).
  destruct (build_meshes_inv _ _ _ _ Hb) as (_ & Hp3 & Hs3 & _).
  exists nt, aspect, self1. rewrite Hs3, Hs2, Hc2, Hn2, Hp3, Hp2, Hp1, Hn1.
  split_and!; [done..| |].
  - intros Hx. destruct (Hax Hx) as (Hcart & Hxz & Hsh). split_and!; [|  |done].
    + unfold cartesian, curvilinear, spherical, cylindrical in *.
      by rewrite Hs3, Hs2, Hc2.
    + rewrite twod_xz_ntot in *. by rewrite Hs3, Hn2.
  - intros Hcart Hxz Hsh. apply Hax'; [| |done].
    + unfold cartesian, curvilinear, spherical, cylindrical in *.
      by rewrite Hs3, Hs2, Hc2 in Hcart.
    + rewrite twod_xz_ntot in *. by rewrite Hs3, Hn2 in Hxz.
Qed.

(** The decision [__init__] came to, by what the header held under
    [rcmb] when it was handed in. *)
Lemma init_kind par h g h' :
  __init__ par h = (Ok g, h') →
  ∃ q xz, rcmb g h' = Ok (Some q) ∧ twod_xz g h' = Ok xz ∧
    ((h !! "rcmb" ≠ Some HNone ∧ h' = h ∧
      if Qle_bool 0 q then
        spherical g = negb (cylindrical g) ∧
        (cylindrical g = true → xz = true) ∧
        (xz = true → str_lower (par_shape par) = "cylindrical" → cylindrical g = true)
      else spherical g = false ∧ cylindrical g = false) ∨
     (h !! "rcmb" = Some HNone ∧ h' = <["rcmb" := HNum (par_r_cmb par)]> h ∧
      q = par_r_cmb par ∧
      if Qle_bool 0 q then
        cylindrical g = xz && bool_decide (str_lower (par_shape par) = "cylindrical") ∧
        spherical g = negb (cylindrical g)
                      && bool_decide (str_lower (par_shape par) = "spherical")
      else spherical g = false ∧ cylindrical g = false)).
Proof.
  intros (nt & aspect & self1 & self2 & Hnt & Ha & Hc & Hf & Hb)%init_inv.
  destruct (classify_inv _ _ _ _ _ _ Hc eq_refl eq_refl)
    as (Hp1 & Hn1 & _ & q & Hr1 & Hcase).
  destruct (flag_axi_inv _ _ _ _ _ Hf) as (_ & Hp2 & Hs2 & Hc2 & Hn2 & _ & _ & Hxz).
  destruct (build_meshes_inv _ _ _ _ Hb) as (_ & Hp3 & Hs3 & _).
  assert (spherical g = sph (_shape self1)) as Hsg
    by (unfold spherical; by rewrite Hs3, Hs2).
  assert (cylindrical g = cyl (_shape self1)) as Hcg
    by (unfold cylindrical; by rewrite Hs3, Hc2).
  assert (∀ h0 h1, twod_xz g h0
            = twod_xz (mk par None None None (mk_shape false false false nt)) h1) as Hxg.
  { intros. rewrite !twod_xz_ntot. by rewrite Hs3, Hn2, Hn1. }
  assert (∀ h0 h1, twod_xz self1 h0 = twod_xz g h1) as Hx1.
  { intros. rewrite !twod_xz_ntot. by rewrite Hs3, Hn2. }
  assert (rcmb g h' = Ok (Some q)) as Hrg by (by rewrite rcmb_eval in *).
  rewrite Hsg, Hcg. exists q.
  destruct Hcase as [(Hne & -> & Hrq & Hif)|(Hnone & -> & -> & Hif)].
  - destruct (Qle_bool 0 q) eqn:Hq.
    + destruct Hif as (xz & Hxz' & Hif). exists xz. split; [done|].
      split; [by rewrite (Hxg _ h)|]. by left.
    + destruct Hif as [Hs Hcy]. destruct Hxz as [xz Hxz].
      { unfold cartesian, curvilinear, spherical, cylindrical. by rewrite Hs, Hcy. }
      exists xz. split; [done|]. split; [by rewrite <- (Hx1 h)|]. by left.
  - simpl in Hif |- *. destruct (Qle_bool 0 (par_r_cmb par)) eqn:Hq.
    + destruct Hif as (xz & Hxz' & Hif). exists xz. split; [done|].
      split; [by rewrite (Hxg _ h)|]. by right.
    + destruct Hif as [Hs Hcy]. destruct Hxz as [xz Hxz].
      { unfold cartesian, curvilinear, spherical, cylindrical. by rewrite Hs, Hcy. }
      exists xz. split; [done|].
      split; [by rewrite <- (Hx1 (<["rcmb" := HNum (par_r_cmb par)]> h))|]. by right.
Qed.

(** The names that the regular expressions match. *)
Ltac one_of_names :=
  repeat match goal with
         | Hc : _ ∈ _ :: _ |- _ => apply elem_of_cons in Hc as [-> | Hc]
         | Hc : _ ∈ [] |- _ => by apply elem_of_nil in Hc
         end;
  apply list_elem_of_In; simpl; tauto.

Lemma char_in_elem c cls :
  char_in c cls = true → c ∈ list_ascii_of_string cls.
Proof.
  unfold char_in. induction cls as [|c' cls IH]; simpl; [done|].
  case_bool_decide as Hc; [subst; intros _; by left|].
  destruct (str_index c cls); simpl; [|done]. intros _. right. by apply IH.
Qed.

Lemma ends_with_cases rest suffix :
  ends_with rest suffix = true → rest = suffix ∨ rest = suffix +:+ newline.
Proof.
  unfold ends_with. intros Hr. apply orb_true_iff in Hr as [Hr|Hr];
    apply bool_decide_eq_true in Hr; auto.
Qed.

Lemma regex_ntot_Some attr c :
  regex_ntot attr = Some c → attr ∈ geometry_matched_names.
Proof.
  destruct attr as [|n [|c' rest]]; simpl; try done.
  destruct (bool_decide (n = "n"%char)) eqn:Hn; simpl; [|done].
  destruct (ends_with rest "tot") eqn:Hr; simpl; [|done].
  destruct (char_in c' "xyztprb") eqn:Hc; [|done]. intros _.
  apply bool_decide_eq_true in Hn. apply ends_with_cases in Hr. subst n.
  apply char_in_elem in Hc. simpl in Hc.
  destruct Hr as [-> | ->]; one_of_names.
Qed.

Lemma regex_suffix_Some cls suffix attr c :
  regex_suffix cls suffix attr = Some c →
  ∃ c', c' ∈ list_ascii_of_string cls ∧
        (attr = String c' suffix ∨ attr = String c' (suffix +:+ newline)).
Proof.
  destruct attr as [|c' rest]; simpl; [done|].
  destruct (ends_with rest suffix) eqn:Hr; simpl; [|done].
  destruct (char_in c' cls) eqn:Hc; [|done]. intros _.
  apply ends_with_cases in Hr. apply char_in_elem in Hc.
  exists c'. split; [done|]. destruct Hr as [-> | ->]; auto.
Qed.

Lemma getattr_fallback self h attr :
  attr ∉ geometry_matched_names →
  __getattr__ self h attr = GHeader <$> hget h attr.
Proof.
  intros Hn. unfold __getattr__.
  destruct (regex_ntot attr) eqn:E1.
  { by apply regex_ntot_Some in E1. }
  destruct (regex_suffix "xyztpr" "_coord" attr) eqn:E2.
  { apply regex_suffix_Some in E2 as (c' & Hc & [-> | ->]); exfalso; apply Hn;
      simpl in Hc; one_of_names. }
  destruct (regex_suffix "xyz" "_mesh" attr) eqn:E3.
  { apply regex_suffix_Some in E3 as (c' & Hc & [-> | ->]); exfalso; apply Hn;
      simpl in Hc; one_of_names. }
  destruct (regex_suffix "tpr" "_mesh" attr) eqn:E4.
  { apply regex_suffix_Some in E4 as (c' & Hc & [-> | ->]); exfalso; apply Hn;
      simpl in Hc; one_of_names. }
  done.
Qed.

(** A newline after a derived name changes nothing. *)
Lemma getattr_newline self h attr :
  attr ∈ geometry_derived_names →
  __getattr__ self h (attr +:+ newline) = __getattr__ self h attr.
Proof.
  intros Hin. unfold geometry_derived_names in Hin.
  repeat (apply elem_of_cons in Hin as [-> | Hin]; [reflexivity|]).
  by apply elem_of_nil in Hin.
Qed.


(** The attributes [__getattr__] derives, one axis at a time. *)
Lemma getattr_ntot_axes self h :
  Forall (fun '(name, axis) =>
            __getattr__ self h name = GInt <$> list_getitem (ntot (_shape self)) axis)
         [("nxtot", 0); ("nttot", 0); ("nytot", 1); ("nptot", 1);
          ("nztot", 2); ("nrtot", 2); ("nbtot", 3)].
Proof. repeat constructor. Qed.

Lemma getattr_coord_axes self h :
  Forall (fun '(name, axis) =>
            __getattr__ self h name =
            match _coords self with
            | Some dat => GArr <$> list_getitem dat axis
            | None => Raise TypeError
            end)
         [("x_coord", 0); ("t_coord", 0); ("y_coord", 1); ("p_coord", 1);
          ("z_coord", 2); ("r_coord", 2)].
Proof. repeat constructor. Qed.

Lemma getattr_cart_mesh_axes self h :
  Forall (fun '(name, axis) =>
            __getattr__ self h name =
            match _cart_meshes self with
            | Some dat => GArr <$> list_getitem dat axis
            | None => Raise TypeError
            end)
         [("x_mesh", 0); ("y_mesh", 1); ("z_mesh", 2)].
Proof. repeat constructor. Qed.

Lemma getattr_curv_mesh_axes self h :
  Forall (fun '(name, axis) =>
            __getattr__ self h name =
            match _curv_meshes self with
            | Some dat =>
                m ← list_getitem dat axis;
                mret (match m with Some a => GArr a | None => GNone end)
            | None => Raise TypeError
            end)
         [("t_mesh", 0); ("p_mesh", 1); ("r_mesh", 2)].
Proof. repeat constructor. Qed.

Lemma read_ntot_inv h nt :
  read_ntot h = Ok nt →
  ∃ nts ntb, h !! "nts" = Some (HInts nts) ∧ h !! "ntb" = Some (HInt ntb) ∧
             nt = nts ++ [ntb].
Proof.
  unfold read_ntot, hget, mbind.
  destruct (h !! "nts") as [[| | |nts| |]|]; simpl; try done.
  destruct (h !! "ntb") as [[| |ntb| | |]|]; simpl; try done.
  intros [= <-]. eauto.
Qed.

End WithNumpy.
End GeometryMore.

(** X4. A geometry that [__init__] returned is of exactly one kind,
    Cartesian, cylindrical or spherical; a cylindrical one lies in the
    XZ plane ([nytot = 1]); and the axisymmetric flag is set exactly
    on a Cartesian geometry in the XZ plane whose configured shape is
    "axisymmetric". *)
Theorem geometry_exactly_one_kind `{Numpy}
    (par : Geometry.par_t) (header header' : gmap string Geometry.hval)
    (g : Geometry.t) :
  Geometry.__init__ par header = (Ok g, header') →
  (Geometry.cartesian g, Geometry.cylindrical g, Geometry.spherical g)
    ∈ [(true, false, false); (false, true, false); (false, false, true)] ∧
  (Geometry.cylindrical g = true → Geometry.twod_xz g header' = Ok true) ∧
  (Geometry.axi (Geometry._shape g) = true ↔
   Geometry.cartesian g = true ∧ Geometry.twod_xz g header' = Ok true ∧
   str_lower (Geometry.par_shape par) = "axisymmetric").
Proof.
  intros Hinit.
  destruct (GeometryMore.init_kind _ _ _ _ Hinit) as (q & xz & Hr & Hxz & Hcase).
  destruct (GeometryMore.init_shape _ _ _ _ Hinit)
    as (nt & a & self1 & _ & _ & _ & _ & _ & _ & _ & _ & Hax & Hax').
  unfold Geometry.cartesian, Geometry.curvilinear in *.
  split_and!.
  - destruct Hcase as [(_ & _ & Hif)|(_ & _ & _ & Hif)];
      destruct (Qle_bool 0 q); destruct_and?;
      destruct (Geometry.cylindrical g), (Geometry.spherical g);
      simpl in *; try done; apply list_elem_of_In; simpl; tauto.
  - intros Hc. rewrite Hxz. f_equal.
    destruct Hcase as [(_ & _ & Hif)|(_ & _ & _ & Hif)];
      destruct (Qle_bool 0 q); destruct_and?; try congruence.
    + auto.
    + rewrite Hc in *. by destruct xz.
  - split; [exact Hax|]. intros (? & ? & ?). by apply Hax'.
Qed.

Lemma geometry_exactly_one_kind_witness :
  ∃ g h',
    Geometry.__init__ (Geometry.mk_par "Cylindrical" (1 # 2)%Q)
      (Sample.header Geometry.HNone [64; 1; 32]) = (Ok g, h') ∧
    (Geometry.cartesian g, Geometry.cylindrical g, Geometry.spherical g)
      ∈ [(true, false, false); (false, true, false); (false, false, true)].
Proof.
  destruct (Geometry.__init__ (Geometry.mk_par "Cylindrical" (1 # 2)%Q)
              (Sample.header Geometry.HNone [64; 1; 32])) as [[g|e] h'] eqn:E;
    [|vm_compute in E; discriminate E].
  exists g, h'. split; [reflexivity|].
  apply (geometry_exactly_one_kind _ _ _ _ E).
Defined.

(** X5. What decides between Cartesian and curvilinear. When
    [__init__] returns, the header holds a number under [rcmb]. If it
    held one when it was handed in, the header is unchanged and the
    geometry is curvilinear exactly when that number is not negative,
    whatever shape the configuration names. If it held [None], the
    number is the configured [r_cmb], and the geometry is cylindrical
    exactly when [r_cmb] is not negative, the grid lies in the XZ plane
    and the shape is "cylindrical"; spherical exactly when [r_cmb] is
    not negative, the shape is "spherical" and it is not cylindrical. *)
Theorem geometry_header_radius_decides `{Numpy}
    (par : Geometry.par_t) (header header' : gmap string Geometry.hval)
    (g : Geometry.t) :
  Geometry.__init__ par header = (Ok g, header') →
  ∃ q xz,
    Geometry.rcmb g header' = Ok (Some q) ∧ Geometry.twod_xz g header' = Ok xz ∧
    (Geometry.curvilinear g = true → Qle_bool 0 q = true) ∧
    (header !! "rcmb" ≠ Some Geometry.HNone →
     header' = header ∧ Geometry.curvilinear g = Qle_bool 0 q) ∧
    (header !! "rcmb" = Some Geometry.HNone →
     q = Geometry.par_r_cmb par ∧
     Geometry.cylindrical g
     = Qle_bool 0 q && xz
       && bool_decide (str_lower (Geometry.par_shape par) = "cylindrical") ∧
     Geometry.spherical g
     = Qle_bool 0 q && negb (Geometry.cylindrical g)
       && bool_decide (str_lower (Geometry.par_shape par) = "spherical")).
Proof.
  intros Hinit.
  destruct (GeometryMore.init_kind _ _ _ _ Hinit) as (q & xz & Hr & Hxz & Hcase).
  exists q, xz. unfold Geometry.curvilinear. split_and!; [done..| | |].
  - destruct Hcase as [(_ & _ & Hif)|(_ & _ & _ & Hif)];
      destruct (Qle_bool 0 q); destruct_and?; try done;
      by destruct (Geometry.cylindrical g), (Geometry.spherical g).
  - intros Hne. destruct Hcase as [(_ & -> & Hif)|(Hnone & _)]; [|done].
    split; [done|].
    destruct (Qle_bool 0 q); destruct_and?;
      by destruct (Geometry.cylindrical g), (Geometry.spherical g).
  - intros Hnone. destruct Hcase as [(Hne & _)|(_ & _ & -> & Hif)]; [done|].
    split; [done|].
    destruct (Qle_bool 0 (Geometry.par_r_cmb par)); destruct_and?; simpl.
    + by split.
    + by split.
Qed.

Lemma geometry_header_radius_decides_witness :
  ∃ g h' q xz,
    Geometry.__init__ (Geometry.mk_par "cartesian" (1 # 2)%Q)
      (Sample.header (Geometry.HNum (1 # 2)%Q) [64; 32; 16]) = (Ok g, h') ∧
    Geometry.rcmb g h' = Ok (Some q) ∧ Geometry.twod_xz g h' = Ok xz ∧
    h' = Sample.header (Geometry.HNum (1 # 2)%Q) [64; 32; 16] ∧
    Geometry.curvilinear g = Qle_bool 0 q.
Proof.
  destruct (Geometry.__init__ (Geometry.mk_par "cartesian" (1 # 2)%Q)
              (Sample.header (Geometry.HNum (1 # 2)%Q) [64; 32; 16]))
    as [[g|e] h'] eqn:E; [|vm_compute in E; discriminate E].
  destruct (geometry_header_radius_decides _ _ _ _ E)
    as (q & xz & Hr & Hxz & _ & Hnum & _).
  exists g, h', q, xz. split; [reflexivity|]. split; [exact Hr|]. split; [exact Hxz|].
  apply Hnum. vm_compute. discriminate.
Defined.

(** X6. The per-axis attributes of a geometry that [__init__]
    returned. The cell counts are those of the header, [nts] followed
    by [ntb]: [nxtot] and [nttot] read the first, [nytot] and [nptot]
    the second, [nztot] and [nrtot] the third, [nbtot] the fourth. The
    coordinates are the header's arrays: [x_coord] and [t_coord] are
    [e1_coord], [y_coord] and [p_coord] are [e2_coord], [z_coord] and
    [r_coord] are [e3_coord]. *)
Theorem geometry_axis_attributes `{Numpy}
    (par : Geometry.par_t) (header header' : gmap string Geometry.hval)
    (g : Geometry.t) :
  Geometry.__init__ par header = (Ok g, header') →
  ∃ nts ntb e1 e2 e3,
    header' !! "nts" = Some (Geometry.HInts nts) ∧
    header' !! "ntb" = Some (Geometry.HInt ntb) ∧
    header' !! "e1_coord" = Some (Geometry.HArr e1) ∧
    header' !! "e2_coord" = Some (Geometry.HArr e2) ∧
    header' !! "e3_coord" = Some (Geometry.HArr e3) ∧
    Forall (fun '(name, axis) =>
              Geometry.__getattr__ g header' name
              = Geometry.GInt <$> list_getitem (nts ++ [ntb]) axis)
           [("nxtot", 0); ("nttot", 0); ("nytot", 1); ("nptot", 1);
            ("nztot", 2); ("nrtot", 2); ("nbtot", 3)] ∧
    Forall (fun '(name, axis) =>
              Geometry.__getattr__ g header' name
              = Geometry.GArr <$> list_getitem [e1; e2; e3] axis)
           [("x_coord", 0); ("t_coord", 0); ("y_coord", 1); ("p_coord", 1);
            ("z_coord", 2); ("r_coord", 2)].
Proof.
  intros Hinit.
  pose proof (GeometryFacts.init_header par header) as Hfill. rewrite Hinit in Hfill.
  simpl in Hfill.
  assert (∀ k, k ≠ "rcmb" → header' !! k = header !! k) as Hsame.
  { intros k Hk. destruct Hfill as [->|[_ ->]]; [done|]. by rewrite lookup_insert_ne. }
  destruct (GeometryMore.init_inv _ _ _ _ Hinit)
    as (nt & a & self1 & self2 & Hnt & _ & Hc & Hf & Hb).
  destruct (GeometryMore.read_ntot_inv _ _ Hnt) as (nts & ntb & Hnts & Hntb & ->).
  destruct (GeometryMore.classify_inv _ _ _ _ _ _ Hc eq_refl eq_refl) as (_ & Hn1 & _).
  destruct (GeometryMore.flag_axi_inv _ _ _ _ _ Hf) as (_ & _ & _ & _ & Hn2 & _).
  destruct (GeometryMore.build_meshes_inv _ _ _ _ Hb)
    as (_ & _ & Hs3 & e1 & e2 & e3 & He1 & He2 & He3 & Hco & _).
  exists nts, ntb, e1, e2, e3.
  split_and!; [by rewrite Hsame..|done|done|done| |].
  - pose proof (GeometryMore.getattr_ntot_axes g header') as Hax.
    by rewrite Hs3, Hn2, Hn1 in Hax.
  - pose proof (GeometryMore.getattr_coord_axes g header') as Hax.
    by rewrite Hco in Hax.
Qed.

Lemma geometry_axis_attributes_witness :
  ∃ g h',
    Geometry.__init__ (Geometry.mk_par "spherical" (1 # 2)%Q)
      (Sample.header Geometry.HNone [64; 32; 16]) = (Ok g, h') ∧
    ∃ nts ntb,
      h' !! "nts" = Some (Geometry.HInts nts) ∧
      h' !! "ntb" = Some (Geometry.HInt ntb) ∧
      Geometry.__getattr__ g h' "nptot"
      = Geometry.GInt <$> list_getitem (nts ++ [ntb]) 1.
Proof.
  destruct (Geometry.__init__ (Geometry.mk_par "spherical" (1 # 2)%Q)
              (Sample.header Geometry.HNone [64; 32; 16]))
    as [[g|e] h'] eqn:E; [|vm_compute in E; discriminate E].
  destruct (geometry_axis_attributes _ _ _ _ E)
    as (nts & ntb & e1 & e2 & e3 & Hnts & Hntb & _ & _ & _ & Hn & _).
  exists g, h'. split; [reflexivity|]. exists nts, ntb.
  split; [exact Hnts|]. split; [exact Hntb|].
  rewrite Forall_forall in Hn. apply (Hn ("nptot", 1)).
  apply list_elem_of_In. simpl. tauto.
Defined.

(** X7. The meshes of a geometry that [__init__] returned. On a
    Cartesian geometry [x_mesh], [y_mesh], [z_mesh] are the grid
    [np.meshgrid] makes of the three coordinate arrays, and [t_mesh],
    [p_mesh], [r_mesh] read as [None]. Otherwise [t_mesh], [p_mesh],
    [r_mesh] are the grid of the first two arrays and of the third
    shifted by the header's [rcmb], and the Cartesian meshes are
    [r sin(t) cos(p)], [r sin(t) sin(p)] and [r cos(t)]. *)
Theorem geometry_meshes `{Numpy}
    (par : Geometry.par_t) (header header' : gmap string Geometry.hval)
    (g : Geometry.t) :
  Geometry.__init__ par header = (Ok g, header') →
  ∃ e1 e2 e3,
    header' !! "e1_coord" = Some (Geometry.HArr e1) ∧
    header' !! "e2_coord" = Some (Geometry.HArr e2) ∧
    header' !! "e3_coord" = Some (Geometry.HArr e3) ∧
    if Geometry.cartesian g then
      (let '(mx, my, mz) := np_meshgrid e1 e2 e3 in
       Geometry.__getattr__ g header' "x_mesh" = Ok (Geometry.GArr mx) ∧
       Geometry.__getattr__ g header' "y_mesh" = Ok (Geometry.GArr my) ∧
       Geometry.__getattr__ g header' "z_mesh" = Ok (Geometry.GArr mz)) ∧
      Geometry.__getattr__ g header' "t_mesh" = Ok Geometry.GNone ∧
      Geometry.__getattr__ g header' "p_mesh" = Ok Geometry.GNone ∧
      Geometry.__getattr__ g header' "r_mesh" = Ok Geometry.GNone
    else
      ∃ q, Geometry.rcmb g header' = Ok (Some q) ∧
        let '(mt, mp, mr) := np_meshgrid e1 e2 (np_add_scalar e3 q) in
        Geometry.__getattr__ g header' "t_mesh" = Ok (Geometry.GArr mt) ∧
        Geometry.__getattr__ g header' "p_mesh" = Ok (Geometry.GArr mp) ∧
        Geometry.__getattr__ g header' "r_mesh" = Ok (Geometry.GArr mr) ∧
        Geometry.__getattr__ g header' "x_mesh"
        = Ok (Geometry.GArr (np_mul (np_mul mr (np_cos mp)) (np_sin mt))) ∧
        Geometry.__getattr__ g header' "y_mesh"
        = Ok (Geometry.GArr (np_mul (np_mul mr (np_sin mp)) (np_sin mt))) ∧
        Geometry.__getattr__ g header' "z_mesh"
        = Ok (Geometry.GArr (np_mul mr (np_cos mt))).
Proof.
  intros Hinit.
  destruct (GeometryMore.init_inv _ _ _ _ Hinit)
    as (nt & a & self1 & self2 & _ & _ & _ & _ & Hb).
  destruct (GeometryMore.build_meshes_inv _ _ _ _ Hb)
    as (_ & _ & Hs3 & e1 & e2 & e3 & He1 & He2 & He3 & _ & Hm).
  exists e1, e2, e3. split_and!; [done..|].
  assert (Geometry.cartesian g = Geometry.cartesian self2) as ->.
  { unfold Geometry.cartesian, Geometry.curvilinear,
      Geometry.spherical, Geometry.cylindrical. by rewrite Hs3. }
  pose proof (GeometryMore.getattr_cart_mesh_axes g header') as Hca.
  pose proof (GeometryMore.getattr_curv_mesh_axes g header') as Hcu.
  rewrite Forall_forall in Hca, Hcu.
  assert (∀ n x, (n, x) ∈ [("x_mesh", 0); ("y_mesh", 1); ("z_mesh", 2)] →
            Geometry.__getattr__ g header' n =
            match Geometry._cart_meshes g with
            | Some dat => Geometry.GArr <$> list_getitem dat x
            | None => Raise TypeError
            end) as Hca' by (intros n x Hin; apply (Hca _ Hin)).
  assert (∀ n x, (n, x) ∈ [("t_mesh", 0); ("p_mesh", 1); ("r_mesh", 2)] →
            Geometry.__getattr__ g header' n =
            match Geometry._curv_meshes g with
            | Some dat =>
                m ← list_getitem dat x;
                mret (match m with
                      | Some a => Geometry.GArr a
                      | None => Geometry.GNone
                      end)
            | None => Raise TypeError
            end) as Hcu' by (intros n x Hin; apply (Hcu _ Hin)).
  clear Hca Hcu.
  destruct (Geometry.cartesian self2).
  - destruct Hm as [Hcart Hcurv].
    destruct (np_meshgrid e1 e2 e3) as [[mx my] mz].
    rewrite (Hca' "x_mesh" 0), (Hca' "y_mesh" 1), (Hca' "z_mesh" 2),
      (Hcu' "t_mesh" 0), (Hcu' "p_mesh" 1), (Hcu' "r_mesh" 2)
      by (apply list_elem_of_In; simpl; tauto).
    rewrite Hcart, Hcurv. done.
  - destruct Hm as (q & Hq & Hm). exists q.
    split; [by rewrite GeometryFacts.rcmb_eval in *|].
    destruct (np_meshgrid e1 e2 (np_add_scalar e3 q)) as [[mt mp] mr].
    destruct Hm as [Hcurv Hcart].
    rewrite (Hca' "x_mesh" 0), (Hca' "y_mesh" 1), (Hca' "z_mesh" 2),
      (Hcu' "t_mesh" 0), (Hcu' "p_mesh" 1), (Hcu' "r_mesh" 2)
      by (apply list_elem_of_In; simpl; tauto).
    rewrite Hcart, Hcurv. done.
Qed.

Lemma geometry_meshes_witness :
  ∃ g h',
    Geometry.__init__ (Geometry.mk_par "cartesian" (1 # 2)%Q)
      (Sample.header (Geometry.HNum (-1 # 1)%Q) [64; 1; 32]) = (Ok g, h') ∧
    ∃ e1 e2 e3,
      h' !! "e1_coord" = Some (Geometry.HArr e1) ∧
      h' !! "e2_coord" = Some (Geometry.HArr e2) ∧
      h' !! "e3_coord" = Some (Geometry.HArr e3).
Proof.
  destruct (Geometry.__init__ (Geometry.mk_par "cartesian" (1 # 2)%Q)
              (Sample.header (Geometry.HNum (-1 # 1)%Q) [64; 1; 32]))
    as [[g|e] h'] eqn:E; [|vm_compute in E; discriminate E].
  destruct (geometry_meshes _ _ _ _ E) as (e1 & e2 & e3 & H1 & H2 & H3 & _).
  exists g, h'. split; [reflexivity|]. by exists e1, e2, e3.
Defined.

(** X8. [__getattr__] and the header. The four regular expressions
    match the nineteen derived names, and each of them followed by a
    newline, which [$] overlooks. Any other name is answered from the
    header, with [KeyError] when the header has no such entry. A
    derived name never reads the header, so an entry of that name in
    the header is out of reach; and the name followed by a newline is
    answered as the name itself. *)
Theorem geometry_getattr_falls_back_to_header `{Numpy}
    (g : Geometry.t) (header : gmap string Geometry.hval) (attr : string) :
  (attr ∉ geometry_matched_names →
   Geometry.__getattr__ g header attr =
   match header !! attr with
   | Some v => Ok (Geometry.GHeader v)
   | None => Raise KeyError
   end) ∧
  (attr ∈ geometry_derived_names →
   (∀ header2,
      Geometry.__getattr__ g header2 attr = Geometry.__getattr__ g header attr) ∧
   Geometry.__getattr__ g header (attr +:+ Geometry.newline)
   = Geometry.__getattr__ g header attr).
Proof.
  split.
  - intros Hn. rewrite GeometryMore.getattr_fallback by done.
    unfold Geometry.hget. by destruct (header !! attr).
  - intros Hin. split; [|by apply GeometryMore.getattr_newline].
    intros header2. unfold geometry_derived_names in Hin.
    repeat (apply elem_of_cons in Hin as [-> | Hin]; [reflexivity|]).
    by apply elem_of_nil in Hin.
Qed.

(** * More of the dataset *)

Module SdatMore.
Section WithEnv.
Context `{Env}.
Import Sdat SdatFacts Search.

#[local] Existing Instance grows_preorder.
#[local] Existing Instance quiet_preorder.
#[local] Existing Instance evolves_preorder.
#[local] Existing Instance evolves_quietly_preorder.

Implicit Types (s : StagyyData) (l : nat) (k n : Z).

(** *** The field cache: failures *)

Lemma Fields___getitem___unknown depth s l o name :
  heap s !! l = Some o → f_items (fields o) !! name = None →
  FIELD_VAR_LIST !! name = None →
  Fields___getitem__ (S depth) l name s
  = (Raise (ValueError ("Unknown field variable: '" +:+ name +:+ "'")), s).
Proof.
  intros Ho Hmiss Hpar. cbn [Fields___getitem__].
  unfold mbind, se_bind, deref. by rewrite Ho, Hmiss, Hpar.
Qed.

Lemma Fields___getitem___no_file depth s l o name par v s1 file :
  heap s !! l = Some o → f_items (fields o) !! name = None →
  FIELD_VAR_LIST !! name = Some par →
  getattr_isnap l s = (Ok v, s1) → filename par v = Ok file →
  stagyyparsers_fields file = None →
  Fields___getitem__ (S depth) l name s
  = (Raise TypeError,
     mk_sdat (heap s1) (steps s1) (snaps_isteps s1) (gens s1) ((file, Full) :: io s1)).
Proof.
  intros Ho Hmiss Hpar Hisnap Hfile Hparse. cbn [Fields___getitem__].
  unfold mbind at 1, se_bind at 1, deref at 1. rewrite Ho, Hmiss, Hpar.
  unfold mbind at 1, se_bind at 1. rewrite Hisnap.
  unfold mbind at 1, se_bind at 1, se_lift. rewrite Hfile.
  unfold mbind at 1, se_bind at 1, log. by rewrite Hparse.
Qed.

(** The names a record of fewer arrays than names leaves out. *)
Lemma zip_fst_lookup {A B} (xs : list A) (ys : list B) x :
  x ∈ (zip xs ys).*1 → ∃ i, xs !! i = Some x ∧ (i < length ys)%nat.
Proof.
  intros ([x' y] & -> & Hin)%list_elem_of_fmap.
  apply list_elem_of_lookup_1 in Hin as [i Hi].
  apply lookup_zip_with_Some in Hi as (x'' & y' & [= <- <-] & Hx & Hy).
  exists i. split; [done|]. by eapply lookup_lt_Some.
Qed.

(** A record that holds no array for [name]: every round parses the
    file again and stores what it can, [name] not among it. *)
Lemma Fields___getitem___short depth : ∀ s l o name par file hdr arrs,
  heap s !! l = Some o → cls o = _Step → _isnap o ≠ UNDETERMINED →
  f_items (fields o) !! name = None →
  FIELD_VAR_LIST !! name = Some par →
  filename par (_isnap o) = Ok file →
  stagyyparsers_fields file = Some (hdr, arrs) →
  (∀ i, fld_names par name !! i = Some name → (length arrs ≤ i)%nat) →
  ∃ s', Fields___getitem__ depth l name s = (Raise RecursionError, s') ∧
        io s' = replicate depth (file, Full) ++ io s ∧
        steps s' = steps s ∧ snaps_isteps s' = snaps_isteps s ∧
        length (heap s') = length (heap s).
Proof.
  induction depth as [|depth IH];
    intros s l o name par file hdr arrs Ho Hcls Hres Hmiss Hpar Hfile Hparse Hshort.
  - exists s. cbn [Fields___getitem__]. unfold mbind, se_bind, deref.
    by rewrite Ho, Hmiss.
  - assert (getattr_isnap l s = (Ok (_isnap o), s)) as Hisnap.
    { unfold getattr_isnap, mbind, se_bind, deref. rewrite Ho, Hcls.
      by apply Step_isnap_resolved. }
    destruct (Fields___getitem___miss depth s l o name par (_isnap o) s file hdr arrs
                Ho Hmiss Hpar Hisnap Hfile Hparse) as (o1 & Ho1 & _ & ->).
    assert (o1 = o) as -> by congruence.
    set (o' := mk_step _ _ _ _ _ _). set (s1 := mk_sdat _ _ _ _ _).
    assert (heap s1 !! l = Some o') as Ho'.
    { apply list_lookup_insert_eq. by eapply lookup_lt_Some. }
    destruct (IH s1 l o' name par file hdr arrs) as (s' & Hrun & Hio & Hst & Hix & Hlen);
      try done.
    { unfold o'. cbn [fields f_items]. rewrite store_lookup_other; [done|].
      intros (i & Hi & Hlt)%zip_fst_lookup. specialize (Hshort i Hi). lia. }
    exists s'. split; [done|]. rewrite Hio, Hst, Hix, Hlen. unfold s1.
    cbn [io steps snaps_isteps heap]. rewrite length_insert.
    split_and!; try done.
    rewrite cons_middle, app_assoc, <- replicate_cons_app. done.
Qed.

(** A record of a kind other than the two bundled ones: the first
    array is stored under the name asked for, and nothing else. *)
Lemma Fields___getitem___single depth s l o name par v s1 file hdr a arrs :
  heap s !! l = Some o → f_items (fields o) !! name = None →
  FIELD_VAR_LIST !! name = Some par → par ≠ "vp" → par ≠ "sx" →
  getattr_isnap l s = (Ok v, s1) → filename par v = Ok file →
  stagyyparsers_fields file = Some (hdr, a :: arrs) →
  ∃ o1,
    heap s1 !! l = Some o1 ∧
    Fields___getitem__ (S depth) l name s =
    (Ok a,
     mk_sdat
       (<[l := mk_step (cls o1) (istep o1)
                 (mk_fields (<[name := a]> (f_items (fields o))) (HeaderOf hdr))
                 (_isnap o1) (_irsnap o1) (_itsnap o1)]> (heap s1))
       (steps s1) (snaps_isteps s1) (gens s1) ((file, Full) :: io s1)).
Proof.
  intros Ho Hmiss Hpar Hvp Hsx Hisnap Hfile Hparse.
  destruct (Fields___getitem___miss depth s l o name par v s1 file hdr (a :: arrs)
              Ho Hmiss Hpar Hisnap Hfile Hparse) as (o1 & Ho1 & _ & ->).
  exists o1. split; [done|].
  unfold fld_names. rewrite !bool_decide_eq_false_2 by done. cbn [zip zip_with foldl].
  cbn [fst snd].
  apply Fields___getitem___hit with
    (o := mk_step (cls o1) (istep o1)
            (mk_fields (<[name := a]> (f_items (fields o))) (HeaderOf hdr))
            (_isnap o1) (_irsnap o1) (_itsnap o1)).
  - cbn [heap]. apply list_lookup_insert_eq. by eapply lookup_lt_Some.
  - cbn [fields f_items]. by rewrite lookup_insert_eq.
Qed.

(** *** The index, seen from the dataset *)

Lemma tidy_same s s' : snaps_isteps s' = snaps_isteps s → tidy s → tidy s'.
Proof. unfold tidy. by intros ->. Qed.

Lemma tidy_init : tidy StagyyData___init__.
Proof. intros n _ Hn. by apply IndexesFacts.keys_init in Hn. Qed.

Lemma index_insert_known s n w :
  inv s → Indexes.in_range n → n ∈ Indexes.keys (snaps_isteps s) →
  index_insert n w s = (Ok tt, s).
Proof.
  intros [_ _ Hwf] Hn Hin. unfold index_insert.
  rewrite IndexesFacts.insert_known by done. by destruct s.
Qed.

Lemma index_insert_fresh s n w :
  inv s → Indexes.in_range n → n ∉ Indexes.keys (snaps_isteps s) →
  ∃ ix',
    index_insert n w s
    = (Ok tt, mk_sdat (heap s) (steps s) ix' (gens s) (io s)) ∧
    Indexes.wf ix' ∧ Indexes.get_istep ix' n = Ok w ∧
    (∀ m, m ∈ Indexes.keys ix' ↔ m = n ∨ m ∈ Indexes.keys (snaps_isteps s)) ∧
    (∀ m, m ≠ n → Indexes.in_range m →
       Indexes.get_istep ix' m = Indexes.get_istep (snaps_isteps s) m).
Proof.
  intros [_ _ Hwf] Hn Hnin.
  destruct (IndexesFacts.insert_fresh _ _ w Hwf Hn Hnin) as (ix' & Hins & Hwf' & Hget & Hk).
  exists ix'. unfold index_insert. rewrite Hins. split_and!; [done..|].
  intros m Hm Hr. by eapply IndexesMore.insert_other.
Qed.

Lemma tidy_insert s ix' n w :
  tidy s → Indexes.get_istep ix' n = Ok w →
  (w = PyNone ∨ ∃ k, w = PyInt k ∧ 0 ≤ k) →
  (∀ m, m ∈ Indexes.keys ix' ↔ m = n ∨ m ∈ Indexes.keys (snaps_isteps s)) →
  (∀ m, m ≠ n → Indexes.in_range m →
     Indexes.get_istep ix' m = Indexes.get_istep (snaps_isteps s) m) →
  tidy (mk_sdat (heap s) (steps s) ix' (gens s) (io s)).
Proof.
  intros Ht Hget Hw Hkeys Hother m Hm Hin. cbn [snaps_isteps] in *.
  destruct (decide (m = n)) as [->|Hne]; [by exists w|].
  rewrite Hother by done. apply Ht; [done|].
  apply Hkeys in Hin as [?|?]; done.
Qed.

(** *** [bind] *)

Lemma same_but_isnap_refl (o : Step_t) : same_but_isnap o o.
Proof. by split_and!. Qed.

Lemma setattr_isnap_eval s l n :
  setattr_isnap (ObjStep l) n s
  = (Ok tt,
     mk_sdat (alter (fun self => mk_step (cls self) (istep self) (fields self)
                                         (PyInt n) (_irsnap self) (_itsnap self))
                    l (heap s))
             (steps s) (snaps_isteps s) (gens s) (io s)).
Proof. done. Qed.

(** [bind(n, i)] for what the search hands it: the index takes [i]
    under [n] unless it has [n] already; the step that [i] names takes
    [n] as its [_isnap]; every other object is left alone. *)
Lemma Snaps_bind_spec s n i :
  inv s → Indexes.in_range n →
  (i = PyNone ∨ ∃ k, i = PyInt k ∧ 0 ≤ k) →
  ∃ ix1 s1,
    Indexes.insert (snaps_isteps s) n i = Ok ix1 ∧
    Snaps_bind n i s = (Ok tt, s1) ∧
    snaps_isteps s1 = ix1 ∧ io s1 = io s ∧ gens s1 = gens s ∧ inv s1 ∧
    (∀ k l, steps s !! k = Some l → steps s1 !! k = Some l) ∧
    (∀ k, i = PyInt k →
       ∃ l o, steps s1 !! k = Some l ∧ heap s1 !! l = Some o ∧
              cls o = _Step ∧ istep o = PyInt k ∧ _isnap o = PyInt n) ∧
    (∀ l o, heap s !! l = Some o →
       ∃ o2, heap s1 !! l = Some o2 ∧ same_but_isnap o o2 ∧
             (cls o = _Step → istep o = i → _isnap o2 = PyInt n) ∧
             (¬ (cls o = _Step ∧ istep o = i) → o2 = o)).
Proof.
  intros Hinv Hn Hi.
  assert (∃ ix1, Indexes.insert (snaps_isteps s) n i = Ok ix1) as [ix1 Hins].
  { destruct Hinv as [_ _ Hwf].
    destruct (decide (n ∈ Indexes.keys (snaps_isteps s))) as [Hin|Hnin].
    - exists (snaps_isteps s). by apply IndexesFacts.insert_known.
    - destruct (IndexesFacts.insert_fresh _ _ i Hwf Hn Hnin) as (ix1 & ? & _). eauto. }
  pose proof (Snaps_bind_keeps n i s) as Hev.
  pose proof (index_insert_keeps n i s) as Hev0.
  unfold Snaps_bind, mbind, se_bind, index_insert in Hev |- *.
  unfold index_insert in Hev0. rewrite Hins in Hev, Hev0 |- *.
  set (s0 := mk_sdat (heap s) (steps s) ix1 (gens s) (io s)) in *.
  simpl in Hev0. destruct Hev0 as [[Hinv0 _] _]. specialize (Hinv0 Hinv).
  exists ix1. destruct Hi as [-> | (k & -> & Hk)].
  - (* a placeholder is made, and given the number *)
    rewrite Steps___getitem___None in Hev |- *. rewrite setattr_isnap_eval in Hev |- *.
    unfold s0 in Hev |- *. cbn [heap steps snaps_isteps gens io] in *.
    eexists. split_and!; [done|reflexivity|done|done|done| |done|done|].
    { destruct Hev as [[Hinv1 _] _]. by apply Hinv1. }
    intros l o Ho. exists o. cbn [heap].
    rewrite list_lookup_alter_ne by (apply lookup_lt_Some in Ho; lia).
    split_and!; [by apply lookup_app_l_Some|apply same_but_isnap_refl| |done].
    intros Hc Hist. destruct Hinv as [_ I2 _].
    destruct (I2 _ _ Ho Hc) as (k & Hk & _). congruence.
  - assert (∃ l s0', Steps___getitem__ (PyInt k) s0 = (Ok (ObjStep l), s0') ∧
              steps s0' !! k = Some l ∧ snaps_isteps s0' = ix1 ∧ io s0' = io s ∧
              gens s0' = gens s ∧
              (∀ l0 o0, heap s !! l0 = Some o0 → heap s0' !! l0 = Some o0))
      as (l & s0' & Hget & Hl & Hix & Hio & Hgens & Hheap).
    { destruct (steps s !! k) as [l0|] eqn:Hsk.
      - exists l0, s0.
        by rewrite (Steps___getitem___old s0 (PyInt k) k l0 eq_refl Hsk).
      - eexists _, _. rewrite (Steps___getitem___new s0 k Hk Hsk).
        unfold s0. simpl. split; [done|]. simpl.
        split_and!; [by rewrite lookup_insert_eq|done..|].
        intros l0 o0 Ho0. by apply lookup_app_l_Some. }
    pose proof (Steps___getitem___keeps (PyInt k) s0) as Hev1.
    rewrite Hget in Hev1 |- *. rewrite Hget in Hev.
    simpl in Hev1. destruct Hev1 as [[Hinv1 (Hst1 & _)] _].
    specialize (Hinv1 Hinv0).
    rewrite setattr_isnap_eval in Hev |- *.
    destruct (inv_steps _ Hinv1 _ _ Hl) as (_ & ol & Hol & Hcl & Hil).
    eexists. split_and!; [done|reflexivity|done|done|done| | | |];
      cbn [heap steps snaps_isteps gens io].
    + destruct Hev as [[Hinv2 _] _]. by apply Hinv2.
    + intros k' l' Hk'. by apply Hst1.
    + intros k' [= <-]. eexists l, _. split; [done|].
      rewrite list_lookup_alter_eq, Hol. simpl. done.
    + intros l0 o0 Ho0. pose proof (Hheap _ _ Ho0) as Ho0'.
      destruct (decide (l0 = l)) as [->|Hne].
      * assert (ol = o0) as -> by congruence.
        eexists. rewrite list_lookup_alter_eq, Ho0'. simpl.
        split_and!; [done|by split_and!|done|].
        intros Hnot. exfalso. apply Hnot. done.
      * exists o0. rewrite list_lookup_alter_ne by done.
        split_and!; [done|apply same_but_isnap_refl| |done].
        intros Hc Hist. exfalso. apply Hne.
        eapply (inv_unique s0'); [done|exact Ho0'|exact Hol|done|done|congruence].
Qed.

(** *** [snaps[n]], whatever the index and the files hold *)

Lemma getattr_istep_eval s l o :
  heap s !! l = Some o →
  getattr_istep (ObjStep l) s
  = (Ok (match cls o with _Step => istep o | _EmptyStep => PyNone end), s).
Proof.
  intros Ho. unfold getattr_istep, mbind, se_bind, deref. rewrite Ho.
  by destruct (cls o).
Qed.

Lemma filename_int par n :
  filename par (PyInt n)
  = Ok (os_path_join args_path
          (args_name +:+ "_" +:+ (par +:+ format_05d n) +:+ EmptyString)).
Proof. done. Qed.

(** A placeholder for a snapshot the index knows, or has just
    learnt, to be absent. *)
Lemma resolved_placeholder b s ix' n probes :
  inv s → tidy s →
  Indexes.wf ix' → Indexes.get_istep ix' n = Ok PyNone → n ∈ Indexes.keys ix' →
  (∀ m, m ≠ n → Indexes.in_range m →
     Indexes.get_istep ix' m = Indexes.get_istep (snaps_isteps s) m ∧
     (m ∈ Indexes.keys ix' ↔ m ∈ Indexes.keys (snaps_isteps s))) →
  Forall (fun c => c.2 = OnlyIstep) probes → (length probes ≤ b)%nat →
  (n ∈ Indexes.keys (snaps_isteps s) → probes = []) →
  resolved b s n (length (heap s)) PyNone
    (mk_sdat (heap s ++ [fresh_step _EmptyStep PyNone]) (steps s) ix' (gens s)
             (probes ++ io s)).
Proof.
  intros Hinv Ht Hwf Hget Hkey Hother Hp Hlen Hknown.
  split; cbn [heap steps snaps_isteps gens io].
  - destruct Hinv as [I1 I2 _]. split; cbn [heap steps snaps_isteps]; [| |done].
    + intros k l Hk. destruct (I1 _ _ Hk) as (Hk0 & o & Ho & Hc & Hi).
      split; [done|]. exists o. split; [|done]. by apply lookup_app_l_Some.
    + intros l o Ho Hc. apply lookup_app_Some in Ho as [Ho|[_ Ho]]; [eauto|].
      apply list_lookup_singleton_Some in Ho as [_ <-]. done.
  - intros m Hm Hin. cbn [snaps_isteps] in *.
    destruct (decide (m = n)) as [->|Hne]; [exists PyNone; by split; [|left]|].
    destruct (Hother m Hne Hm) as [-> Hiff]. apply Ht; [done|]. by apply Hiff.
  - rewrite (getattr_istep_eval _ _ (fresh_step _EmptyStep PyNone)); [done|].
    cbn [heap]. rewrite lookup_app_r by done. by rewrite Nat.sub_diag.
  - by left.
  - done.
  - done.
  - done.
  - intros l o Ho. exists o. split_and!; [by apply lookup_app_l_Some| |done].
    apply same_but_isnap_refl.
  - done.
  - done.
  - by exists probes.
Qed.

(** One more call to the parsing service before the rest. *)
Lemma resolved_after_probe b s n l' i s' c :
  c.2 = OnlyIstep → n ∉ Indexes.keys (snaps_isteps s) →
  resolved b (mk_sdat (heap s) (steps s) (snaps_isteps s) (gens s) (c :: io s))
           n l' i s' →
  resolved (S b) s n l' i s'.
Proof.
  intros Hc Hnin [R1 R2 R3 R4 R5 R6 R7 R8 R9 Rb (probes & Hio & Hp & Hlen & _)].
  split; try done. exists (probes ++ [c]). cbn [io] in Hio.
  rewrite Hio, <- app_assoc.
  split_and!; [done| |rewrite length_app; simpl; lia|done].
  apply Forall_app. split; [done|]. by constructor.
Qed.

Lemma Snaps_probe_spec pars : ∀ i0 s n,
  inv s → tidy s → Indexes.in_range n → n ∉ Indexes.keys (snaps_isteps s) →
  steps_from_zero → pars ≠ [] ∨ i0 = PyNone →
  ∃ l' s',
    Snaps_probe pars n i0 s = (Ok (ObjStep l'), s') ∧
    resolved (length pars) s n l'
             (match first_istep pars n with Some k => PyInt k | None => PyNone end) s'.
Proof.
  induction pars as [|par pars IH]; intros i0 s n Hinv Ht Hn Hnin Hpos Hi0.
  - destruct Hi0 as [?| ->]; [done|].
    destruct (index_insert_fresh s n PyNone Hinv Hn Hnin)
      as (ix' & Hins & Hwf' & Hget & Hkeys & Hother).
    exists (length (heap s)). eexists. split.
    + cbn [Snaps_probe]. unfold mbind, se_bind. rewrite Hins.
      by rewrite Steps___getitem___None.
    + cbn [heap steps snaps_isteps gens io first_istep].
      apply (resolved_placeholder 0 s ix' n []); try done.
      * apply Hkeys. by left.
      * intros m Hm Hr. split; [by apply Hother|]. rewrite Hkeys. split; [by intros [?|?]|by right].
  - cbn [Snaps_probe first_istep]. rewrite filename_int.
    set (f := os_path_join _ _).
    unfold mbind at 1 2, se_bind at 1 2, se_lift, log.
    set (s0 := mk_sdat (heap s) (steps s) (snaps_isteps s) (gens s)
                       ((f, OnlyIstep) :: io s)).
    assert (inv s0) as Hinv0 by (destruct Hinv; by split).
    assert (tidy s0) as Ht0 by (by apply (tidy_same s)).
    destruct (stagyyparsers_fields_only_istep f) as [k|] eqn:Hf.
    + (* the file is there *)
      pose proof (Hpos _ _ Hf) as Hk.
      destruct (Snaps_bind_spec s0 n (PyInt k) Hinv0 Hn ltac:(eauto))
        as (ix1 & s1 & Hins & Hbind & Hix1 & Hio1 & _ & Hinv1 & Hst1 & Hobj1 & Hheap1).
      destruct (Hobj1 k eq_refl) as (l & o & Hl & Ho & Hc & Hist & Hisn).
      destruct Hinv0 as [_ _ Hwf0].
      destruct (IndexesFacts.insert_fresh _ _ (PyInt k) Hwf0 Hn Hnin)
        as (ix' & Hins' & Hwf' & Hget & Hkeys).
      assert (ix' = ix1) as -> by congruence.
      exists l, s1. split.
      * unfold mbind, se_bind. rewrite Hbind.
        by apply (Steps___getitem___old s1 (PyInt k) k l).
      * apply (resolved_after_probe _ s n l (PyInt k) s1 (f, OnlyIstep)); [done|done|].
        fold s0. split.
        -- done.
        -- intros m Hm Hin. rewrite Hix1 in *.
           destruct (decide (m = n)) as [->|Hne]; [exists (PyInt k); eauto|].
           rewrite (IndexesMore.insert_other _ _ _ _ m Hwf0 Hins) by done.
           apply Ht0; [done|]. apply Hkeys in Hin as [?|?]; done.
        -- erewrite getattr_istep_eval by done. by rewrite Hc, Hist.
        -- right. eauto.
        -- by rewrite Hix1.
        -- rewrite Hix1. apply Hkeys. by left.
        -- intros m Hm Hr. rewrite Hix1. split.
           ++ by apply (IndexesMore.insert_other _ _ _ _ m Hwf0 Hins).
           ++ rewrite Hkeys. split; [by intros [?|?]|by right].
        -- intros l0 o0 Ho0. destruct (Hheap1 l0 o0 Ho0) as (o2 & Ho2 & Hsame & _ & Hfr).
           eauto.
        -- done.
        -- intros _ _. eauto.
        -- exists []. rewrite Hio1. split_and!; [done|done|simpl; lia|done].
    + (* it is not: on to the next kind *)
      destruct (IH PyNone s0 n Hinv0 Ht0 Hn Hnin Hpos ltac:(by right))
        as (l' & s' & Hrun & Hres).
      exists l', s'. split; [done|].
      by apply (resolved_after_probe _ s n l' _ s' (f, OnlyIstep)).
Qed.

Lemma Snaps___getitem___spec s n :
  inv s → tidy s → Indexes.in_range n → scan ≠ [] → steps_from_zero →
  ∃ l' i s',
    Snaps___getitem__ (PyInt n) s = (Ok (ObjStep l'), s') ∧
    resolved (length scan) s n l' i s' ∧
    (n ∉ Indexes.keys (snaps_isteps s) →
     i = match first_istep scan n with Some k => PyInt k | None => PyNone end).
Proof.
  intros Hinv Ht Hn Hscan Hpos. pose proof (inv_index _ Hinv) as Hwf.
  cbn [Snaps___getitem__]. unfold Snaps___missing__.
  unfold mbind at 1 2, se_bind at 1 2, se_get, se_lift.
  destruct (decide (n ∈ Indexes.keys (snaps_isteps s))) as [Hin|Hnin].
  - destruct (Ht n Hn Hin) as (w & Hget & Hw). rewrite Hget.
    destruct Hw as [-> | (k & -> & Hk)].
    + exists (length (heap s)), PyNone. eexists. split; [by rewrite Steps___getitem___None|].
      split; [|done]. rewrite <- (app_nil_l (io s)).
      apply (resolved_placeholder _ s (snaps_isteps s) n []); try done. simpl. lia.
    + destruct (steps s !! k) as [l|] eqn:Hsk.
      * exists l, (PyInt k), s.
        split; [by apply (Steps___getitem___old s (PyInt k) k l)|].
        destruct (inv_steps _ Hinv _ _ Hsk) as (_ & o & Ho & Hc & Hist).
        split; [|done]. split; try done.
        -- erewrite getattr_istep_eval by done. by rewrite Hc, Hist.
        -- right. eauto.
        -- intros l0 o0 Ho0. exists o0. split_and!; [done| |done].
           apply same_but_isnap_refl.
        -- exists []. split_and!; [done|done|simpl; lia|done].
      * exists (length (heap s)), (PyInt k). eexists.
        split; [by apply Steps___getitem___new|].
        pose proof (alloc_step_evolves s k Hk Hsk) as [[Hinv' _] _].
        split; [|done]. split; cbn [heap steps snaps_isteps gens io]; try done.
        -- by apply Hinv'.
        -- rewrite (getattr_istep_eval _ _ (fresh_step _Step (PyInt k))); [done|].
           cbn [heap]. rewrite lookup_app_r by done. by rewrite Nat.sub_diag.
        -- right. exists k. by rewrite lookup_insert_eq.
        -- intros l0 o0 Ho0. exists o0.
           split_and!; [by apply lookup_app_l_Some| |done]. apply same_but_isnap_refl.
        -- intros k' l0 Hk'. rewrite lookup_insert_ne; [done|]. intros <-. congruence.
        -- exists []. split_and!; [done|done|simpl; lia|done].
  - rewrite (IndexesFacts.get_istep_absent _ _ Hwf Hn Hnin).
    destruct (Snaps_probe_spec scan UNDETERMINED s n) as (l' & s' & Hrun & Hres);
      try done; [by left|].
    eexists l', _, s'. split_and!; [done|done|done].
Qed.

(** *** The forward search of [_Step.isnap] *)

Lemma same_but_isnap_trans (o1 o2 o3 : Step_t) :
  same_but_isnap o1 o2 → same_but_isnap o2 o3 → same_but_isnap o1 o3.
Proof.
  intros (? & ? & ? & ? & ?) (? & ? & ? & ? & ?). split_and!; congruence.
Qed.

(** One turn of the loop, at snapshot [n]: [snaps[n].istep] is read
    and bound to [n]. *)
Lemma search_turn s n :
  inv s → tidy s → 0 ≤ n < 100000 → scan ≠ [] → steps_from_zero →
  ∃ o' i s1 s2,
    Snaps___getitem__ (PyInt n) s = (Ok o', s1) ∧
    getattr_istep o' s1 = (Ok i, s1) ∧
    Snaps_bind n i s1 = (Ok tt, s2) ∧
    inv s2 ∧ tidy s2 ∧
    (i = PyNone ∨ ∃ k, i = PyInt k ∧ 0 ≤ k) ∧
    (n ∉ Indexes.keys (snaps_isteps s) →
     i = match first_istep scan n with Some k => PyInt k | None => PyNone end) ∧
    Indexes.get_istep (snaps_isteps s2) n = Ok i ∧
    (∀ m, m ≠ n → Indexes.in_range m →
       Indexes.get_istep (snaps_isteps s2) m = Indexes.get_istep (snaps_isteps s) m) ∧
    (∀ k l, steps s !! k = Some l → steps s2 !! k = Some l) ∧
    (∀ l o, heap s !! l = Some o →
       ∃ o2, heap s2 !! l = Some o2 ∧ same_but_isnap o o2 ∧
             (cls o = _Step → istep o = i → _isnap o2 = PyInt n) ∧
             (¬ (cls o = _Step ∧ istep o = i) → o2 = o)) ∧
    (∃ probes, io s2 = probes ++ io s ∧
               Forall (fun c => c.2 = OnlyIstep) probes ∧
               (length probes ≤ length scan)%nat).
Proof.
  intros Hinv Ht Hn Hscan Hpos.
  assert (Indexes.in_range n) as Hr by (unfold Indexes.in_range; lia).
  destruct (Snaps___getitem___spec s n Hinv Ht Hr Hscan Hpos)
    as (l' & i & s1 & Hget & [R1 R2 R3 R4 R5 R6 R7 R8 R9 Rb R10] & Hfirst).
  assert (i = PyNone ∨ ∃ k, i = PyInt k ∧ 0 ≤ k) as Hi.
  { destruct R4 as [->|(k & -> & ? & _)]; eauto. }
  destruct (Snaps_bind_spec s1 n i R1 Hr Hi)
    as (ix1 & s2 & Hins & Hbind & Hix & Hio & _ & Hinv2 & Hst & _ & Hheap).
  rewrite IndexesFacts.insert_known in Hins; [|by apply inv_index|done..].
  assert (ix1 = snaps_isteps s1) as -> by congruence.
  exists (ObjStep l'), i, s1, s2. split_and!; try done.
  - by apply (tidy_same s1).
  - by rewrite Hix.
  - intros m Hm Hrm. rewrite Hix. by apply R7.
  - intros k l Hk. by apply Hst, R9.
  - intros l o Ho. destruct (R8 l o Ho) as (o1 & Ho1 & Hs1 & Hfr1).
    destruct (Hheap l o1 Ho1) as (o2 & Ho2 & Hs2 & Hset & Hfr2).
    exists o2. split_and!; [done|by eapply same_but_isnap_trans| |].
    + destruct Hs1 as (Hc1 & Hi1 & _). intros Hc Hist. apply Hset; congruence.
    + intros Hnot. pose proof (Hfr1 Hnot) as ->. by apply Hfr2.
  - destruct R10 as (probes & Hp1 & Hp2 & Hp3 & _). exists probes.
    by rewrite Hio.
Qed.

(** The loop. It is entered having read [i0] at snapshot
    [99999 - todo]; it leaves with the last step number read, at some
    snapshot [n], every snapshot before [n] being absent or of a step
    number below that of the step. *)
Lemma isnap_search_spec l k0 todo : ∀ i0 s o,
  Z.of_nat todo ≤ 100000 →
  scan ≠ [] → steps_from_zero →
  inv s → tidy s →
  heap s !! l = Some o → cls o = _Step → istep o = PyInt k0 →
  (i0 = PyNone ∨ ∃ k, i0 = PyInt k ∧ 0 ≤ k) →
  (i0 = PyInt k0 → _isnap o = PyInt (99999 - Z.of_nat todo)) →
  (i0 ≠ PyInt k0 → _isnap o = UNDETERMINED) →
  (0 ≤ 99999 - Z.of_nat todo →
   Indexes.get_istep (snaps_isteps s) (99999 - Z.of_nat todo) = Ok i0) →
  (i0 ≠ PyNone → 0 ≤ 99999 - Z.of_nat todo) →
  (∀ m, 0 ≤ m < 99999 - Z.of_nat todo →
     ∃ w, Indexes.get_istep (snaps_isteps s) m = Ok w ∧ before k0 w) →
  ∃ i n s' o',
    isnap_search todo (PyInt k0) i0 s = (Ok i, s') ∧
    inv s' ∧ tidy s' ∧
    heap s' !! l = Some o' ∧ same_but_isnap o o' ∧
    99999 - Z.of_nat todo ≤ n ∧ n ≤ 99999 ∧
    (i = PyNone ∨ ∃ k, i = PyInt k ∧ 0 ≤ k) ∧
    (i = PyInt k0 →
     _isnap o' = PyInt n ∧ 0 ≤ n ∧
     Indexes.get_istep (snaps_isteps s') n = Ok (PyInt k0)) ∧
    (i ≠ PyInt k0 → _isnap o' = UNDETERMINED) ∧
    (∀ m, 0 ≤ m < n →
       ∃ w, Indexes.get_istep (snaps_isteps s') m = Ok w ∧ before k0 w) ∧
    (∀ k l', steps s !! k = Some l' → steps s' !! k = Some l') ∧
    (∃ probes, io s' = probes ++ io s ∧
               Forall (fun c => c.2 = OnlyIstep) probes ∧
               (length probes ≤ todo * length scan)%nat).
Proof.
  induction todo as [|todo IH];
    intros i0 s o Htodo Hscan Hpos Hinv Ht Ho Hc Hist Hi0 Hhit Hmiss Hcur Hseen Hbefore.
  - (* no snapshot is left *)
    assert (isnap_search 0 (PyInt k0) i0 s = (Ok i0, s)) as Hrun.
    { cbn [isnap_search]. unfold mbind, se_bind, se_lift.
      destruct Hi0 as [-> | (k & -> & _)]; simpl; [done|]. by destruct (k <? k0). }
    exists i0, (99999 - Z.of_nat 0), s, o.
    split; [exact Hrun|]. split; [exact Hinv|]. split; [exact Ht|].
    split; [exact Ho|]. split; [apply same_but_isnap_refl|].
    split; [lia|]. split; [lia|]. split; [exact Hi0|].
    split.
    { intros ->. split; [by apply Hhit|]. split; [by apply Hseen|].
      apply Hcur. by apply Hseen. }
    split; [exact Hmiss|]. split; [exact Hbefore|]. split; [auto|].
    exists []. split; [done|]. split; [done|]. simpl. lia.
  - set (n0 := 99999 - Z.of_nat (S todo)) in *.
    assert (99999 - Z.of_nat todo = n0 + 1) as Hn by (unfold n0; lia).
    cbn [isnap_search]. rewrite Hn.
    assert ((i0 = PyNone ∨ ∃ k, i0 = PyInt k ∧ k < k0) ∨
            ¬ (i0 = PyNone ∨ ∃ k, i0 = PyInt k ∧ k < k0)) as [Hgo|Hstop].
    { destruct Hi0 as [-> | (k & -> & Hk)]; [left; by left|].
      destruct (decide (k < k0)); [left; right; eauto|].
      right. intros [?|(k' & [= <-] & ?)]; done. }
    + (* the loop goes on *)
      assert (se_lift (S:=StagyyData)
                (match i0 with PyNone => Ok true | _ => py_lt i0 (PyInt k0) end)
              = se_lift (Ok true)) as ->.
      { destruct Hgo as [-> | (k & -> & Hk)]; [done|]. simpl.
        by rewrite (proj2 (Z.ltb_lt _ _) Hk). }
      assert (i0 ≠ PyInt k0) as Hne.
      { destruct Hgo as [-> | (k & -> & Hk)]; [done|]. intros [= ->]. lia. }
      destruct (search_turn s (n0 + 1) Hinv Ht ltac:(unfold n0; lia) Hscan Hpos)
        as (o1 & i & s1 & s2 & Hget & Hread & Hbind & Hinv2 & Ht2 & Hi & _ & Hidx &
            Hother & Hst & Hheap & (probes & Hio & Hp & Hlen)).
      destruct (Hheap l o Ho) as (o2 & Ho2 & Hsame & Hset & Hfr).
      pose proof Hsame as (Hc2 & Hi2 & _).
      destruct (IH i s2 o2) as (i' & n & s' & o' & Hrun & Hinv' & Ht' & Ho' & Hsame' &
                                 Hlo & Hhi & Hi' & Hhit' & Hmiss' & Hbefore' & Hst' &
                                 (probes' & Hio' & Hp' & Hlen')).
      * lia.
      * exact Hscan.
      * exact Hpos.
      * exact Hinv2.
      * exact Ht2.
      * exact Ho2.
      * congruence.
      * congruence.
      * exact Hi.
      * intros ->. rewrite Hn. apply Hset; congruence.
      * intros Hne'. rewrite (Hfr ltac:(intros [_ ?]; congruence)). by apply Hmiss.
      * intros _. by rewrite Hn.
      * intros _. lia.
      * rewrite Hn. intros m Hm.
        assert (Indexes.in_range m) as Hrm by (unfold Indexes.in_range; lia).
        rewrite Hother by (done || lia).
        destruct (decide (m = n0)) as [->|Hm0].
        -- exists i0. split; [apply Hcur; lia|].
           destruct Hgo as [-> | (k & -> & Hk)]; [by left|]. right. exists k.
           destruct Hi0 as [?|(k' & [= <-] & ?)]; [done|]. split; [done|lia].
        -- apply Hbefore. fold n0. lia.
      * exists i', n, s', o'. unfold mbind at 1, se_bind at 1, se_lift.
        unfold mbind at 1, se_bind at 1. rewrite Hget.
        unfold mbind at 1, se_bind at 1. rewrite Hread.
        unfold mbind at 1, se_bind at 1. rewrite Hbind.
        split; [exact Hrun|]. split; [exact Hinv'|]. split; [exact Ht'|].
        split; [exact Ho'|].
        split; [by eapply same_but_isnap_trans|].
        split; [lia|]. split; [lia|]. split; [exact Hi'|].
        split; [exact Hhit'|]. split; [exact Hmiss'|]. split; [exact Hbefore'|].
        split; [intros k l' Hk; by apply Hst', Hst|].
        exists (probes' ++ probes). rewrite Hio', Hio, app_assoc.
        split; [done|]. split; [by apply Forall_app|].
        rewrite length_app. simpl. lia.
    + (* a step number that is not below the step's: the loop ends *)
      destruct Hi0 as [-> | (k & -> & Hk)]; [exfalso; apply Hstop; by left|].
      assert (¬ k < k0) as Hge by (intros ?; apply Hstop; eauto).
      exists (PyInt k), n0, s, o.
      unfold mbind, se_bind, se_lift. simpl.
      rewrite (proj2 (Z.ltb_ge _ _)) by lia.
      split; [done|]. split; [exact Hinv|]. split; [exact Ht|].
      split; [exact Ho|]. split; [apply same_but_isnap_refl|].
      split; [lia|]. split; [unfold n0; lia|]. split; [eauto|].
      split.
      { intros [= ->]. split; [by apply Hhit|]. split; [by apply Hseen|].
        apply Hcur. by apply Hseen. }
      split; [exact Hmiss|]. split; [exact Hbefore|]. split; [auto|].
      exists []. split; [done|]. split; [done|]. simpl. lia.
Qed.

(** The getter of [isnap], on a step whose snapshot number is not
    yet determined. *)
Lemma Step_isnap_spec s l o :
  inv s → tidy s → scan ≠ [] → steps_from_zero →
  heap s !! l = Some o → cls o = _Step → _isnap o = UNDETERMINED →
  ∃ k0 v s1 o1,
    istep o = PyInt k0 ∧ steps s !! k0 = Some l ∧
    getattr_isnap l s = (Ok v, s1) ∧
    inv s1 ∧ tidy s1 ∧ heap s1 !! l = Some o1 ∧ same_but_isnap o o1 ∧
    _isnap o1 = v ∧
    (v = PyNone ∨
     ∃ n, v = PyInt n ∧ 0 ≤ n ≤ 99999 ∧
          Indexes.get_istep (snaps_isteps s1) n = Ok (PyInt k0) ∧
          ∀ m, 0 ≤ m < n →
               ∃ w, Indexes.get_istep (snaps_isteps s1) m = Ok w ∧ before k0 w) ∧
    (∀ k l', steps s !! k = Some l' → steps s1 !! k = Some l') ∧
    (∃ probes, io s1 = probes ++ io s ∧
               Forall (fun c => c.2 = OnlyIstep) probes ∧
               Z.of_nat (length probes) ≤ 100000 * Z.of_nat (length scan)).
Proof.
  intros Hinv Ht Hscan Hpos Ho Hc Hund.
  destruct (inv_heap _ Hinv _ _ Ho Hc) as (k0 & Hist & Hk0).
  unfold getattr_isnap, mbind at 1, se_bind at 1, deref at 1. rewrite Ho, Hc.
  unfold Step_isnap, mbind at 1, se_bind at 1, deref at 1. rewrite Ho, Hund, Hist.
  remember (Z.to_nat 100000) as todo eqn:Htodo.
  assert (Z.of_nat todo = 100000) as Hsz by lia. clear Htodo.
  destruct (isnap_search_spec l k0 todo PyNone s o)
    as (i & n & s' & o' & Hrun & Hinv' & Ht' & Ho' & Hsame & Hlo & Hhi & Hi & Hhit &
        Hmiss & Hbefore & Hst & (probes & Hio & Hp & Hlen)); try done; try lia.
  { by left. }
  pose proof Hsame as (Hc' & Hi' & _).
  unfold mbind at 1, se_bind at 1. rewrite Hrun.
  unfold mbind at 1, se_bind at 1, deref at 1. rewrite Ho', Hi', Hist.
  assert (Z.of_nat (length probes) ≤ 100000 * Z.of_nat (length scan)) as Hbound.
  { rewrite <- Hsz, <- Nat2Z.inj_mul. lia. }
  exists k0.
  assert (i = PyInt k0 ∨ i ≠ PyInt k0) as [-> | Hne].
  { destruct Hi as [-> | (k & -> & _)]; [by right|].
    destruct (decide (k = k0)) as [->|]; [by left|right; congruence]. }
  - (* found *)
    destruct (Hhit eq_refl) as (Hisn & Hn0 & Hidx).
    exists (PyInt n), s', o'. simpl. rewrite Z.eqb_refl. simpl.
    unfold mbind, se_bind, deref, mret, se_ret. rewrite Ho', Hisn.
    split; [done|]. split; [done|]. split; [done|]. split; [done|].
    split; [done|]. split; [done|]. split; [done|]. split; [done|].
    split; [right; exists n; by split_and!|].
    split; [done|]. by exists probes.
  - (* not found *)
    assert (py_eq i (PyInt k0) = false) as ->.
    { destruct Hi as [-> | (k & -> & _)]; [done|]. simpl.
      apply Z.eqb_neq. congruence. }
    simpl.
    set (f := fun self : Step_t =>
                mk_step (cls self) (istep self) (fields self) PyNone (_irsnap self)
                        (_itsnap self)).
    pose proof (update_evolves l f ltac:(done) s') as [Hinv'' _].
    exists PyNone. eexists. exists (f o').
    unfold mbind, se_bind, update, deref, mret, se_ret.
    cbn [heap steps snaps_isteps gens io] in *.
    rewrite list_lookup_alter_eq, Ho'. simpl.
    split; [done|]. split; [done|]. split; [done|].
    split; [by apply Hinv''|]. split; [by apply (tidy_same s')|].
    split; [cbn [heap]; by rewrite list_lookup_alter_eq, Ho'|].
    split; [destruct Hsame as (? & ? & ? & ? & ?); by split_and!|].
    split; [done|]. split; [by left|]. split; [done|]. by exists probes.
Qed.

Lemma Snaps___getitem___known s n k l :
  Indexes.get_istep (snaps_isteps s) n = Ok (PyInt k) → steps s !! k = Some l →
  Snaps___getitem__ (PyInt n) s = (Ok (ObjStep l), s).
Proof.
  intros Hget Hk. cbn [Snaps___getitem__]. unfold Snaps___missing__.
  unfold mbind, se_bind, se_get, se_lift. rewrite Hget.
  by apply (Steps___getitem___old s (PyInt k) k l).
Qed.

Lemma getattr_isnap_resolved s l o :
  heap s !! l = Some o → cls o = _Step → _isnap o ≠ UNDETERMINED →
  getattr_isnap l s = (Ok (_isnap o), s).
Proof.
  intros Ho Hc Hres. unfold getattr_isnap, mbind, se_bind, deref. rewrite Ho, Hc.
  by apply Step_isnap_resolved.
Qed.

End WithEnv.
End SdatMore.

(** X9. A request for snapshot [n], in any state whose index is tidy,
    with at least one kind to scan and a parsing service that reports
    no negative step number. It returns an object; the step number
    read off that object is what the index holds under [n] from then
    on, the rest of the index being as it was. If the index did not
    know [n], that step number is the one of the first kind, in scan
    order, whose file yields one, [None] if none does, and a step so
    found has [n] as its snapshot number. At most one call per kind is
    made to the parsing service, each for a step number only, and none
    if the index knew [n]. Asking again makes no call, and for a
    snapshot that exists returns the same object and changes
    nothing. *)
Theorem snapshot_request_resolves `{Env} (s : Sdat.StagyyData) (n : Z) :
  Sdat.reachable s → Search.tidy s → -100000 ≤ n < 100000 →
  Sdat.scan ≠ [] → Search.steps_from_zero →
  ∃ l i s1,
    Sdat.Snaps___getitem__ (PyInt n) s = (Ok (Sdat.ObjStep l), s1) ∧
    Sdat.getattr_istep (Sdat.ObjStep l) s1 = (Ok i, s1) ∧
    Indexes.get_istep (Sdat.snaps_isteps s1) n = Ok i ∧
    (∀ m, m ≠ n → -100000 ≤ m < 100000 →
       Indexes.get_istep (Sdat.snaps_isteps s1) m
       = Indexes.get_istep (Sdat.snaps_isteps s) m) ∧
    (i = PyNone ∨ ∃ k, i = PyInt k ∧ 0 ≤ k ∧ Sdat.steps s1 !! k = Some l) ∧
    (n ∉ Indexes.keys (Sdat.snaps_isteps s) →
     i = match Search.first_istep Sdat.scan n with
         | Some k => PyInt k
         | None => PyNone
         end ∧
     (i ≠ PyNone → Sdat.getattr_isnap l s1 = (Ok (PyInt n), s1))) ∧
    (∃ probes,
       Sdat.io s1 = probes ++ Sdat.io s ∧
       Forall (fun c => c.2 = Sdat.OnlyIstep) probes ∧
       (length probes ≤ length Sdat.scan)%nat ∧
       (n ∈ Indexes.keys (Sdat.snaps_isteps s) → probes = [])) ∧
    Search.tidy s1 ∧
    ∃ l2 s2,
      Sdat.Snaps___getitem__ (PyInt n) s1 = (Ok (Sdat.ObjStep l2), s2) ∧
      Sdat.io s2 = Sdat.io s1 ∧
      Sdat.getattr_istep (Sdat.ObjStep l2) s2 = (Ok i, s2) ∧
      (i ≠ PyNone → l2 = l ∧ s2 = s1).
Proof.
  intros Hreach Ht Hn Hscan Hpos.
  pose proof (SdatFacts.reachable_inv _ Hreach) as Hinv.
  destruct (SdatMore.Snaps___getitem___spec s n Hinv Ht Hn Hscan Hpos)
    as (l & i & s1 & Hget & [R1 R2 R3 R4 R5 R6 R7 R8 R9 Rb R10] & Hfirst).
  exists l, i, s1.
  split; [exact Hget|]. split; [exact R3|]. split; [exact R5|].
  split; [intros m Hm Hr; by apply R7|]. split; [exact R4|].
  split.
  { intros Hnin. split; [by apply Hfirst|]. intros Hi.
    destruct (Rb Hnin Hi) as (o & Ho & Hisn).
    destruct R4 as [->|(k & -> & Hk & Hsk)]; [done|].
    destruct (Sdat.inv_steps _ R1 _ _ Hsk) as (_ & o' & Ho' & Hc & _).
    assert (o' = o) as -> by congruence.
    rewrite <- Hisn. apply SdatMore.getattr_isnap_resolved; [done..|]. by rewrite Hisn. }
  split; [exact R10|]. split; [exact R2|].
  destruct R4 as [-> | (k & -> & Hk & Hsk)].
  - eexists _, _. split; [by apply SdatFacts.Snaps___getitem___cached|].
    split; [done|]. split; [|done].
    rewrite (SdatMore.getattr_istep_eval _ _ (Sdat.fresh_step Sdat._EmptyStep PyNone));
      [done|].
    cbn [Sdat.heap]. rewrite lookup_app_r by done. by rewrite Nat.sub_diag.
  - exists l, s1. split; [by apply (SdatMore.Snaps___getitem___known s1 n k l)|].
    split; [done|]. split; [exact R3|]. done.
Qed.

(** X10. [bind(n, k)] for a snapshot number in range and a step
    number [0 <= k]. The step registered under [k], made if need be,
    takes [n] as its snapshot number, whatever it had. The index takes
    [k] under [n] only if it held nothing there: otherwise it keeps
    what it held. Nothing else changes: the other entries of the
    index, the other objects, and the log of the parsing service. *)
Theorem bind_first_snapshot_last_step `{Env} (s : Sdat.StagyyData) (n k : Z) :
  Sdat.reachable s → -100000 ≤ n < 100000 → 0 ≤ k →
  ∃ l o s1,
    Sdat.Snaps_bind n (PyInt k) s = (Ok tt, s1) ∧
    Sdat.steps s1 !! k = Some l ∧ Sdat.heap s1 !! l = Some o ∧
    Sdat.cls o = Sdat._Step ∧ Sdat.istep o = PyInt k ∧ Sdat._isnap o = PyInt n ∧
    Indexes.get_istep (Sdat.snaps_isteps s1) n
    = (if bool_decide (n ∈ Indexes.keys (Sdat.snaps_isteps s))
       then Indexes.get_istep (Sdat.snaps_isteps s) n else Ok (PyInt k)) ∧
    (∀ m, m ≠ n → -100000 ≤ m < 100000 →
       Indexes.get_istep (Sdat.snaps_isteps s1) m
       = Indexes.get_istep (Sdat.snaps_isteps s) m) ∧
    Sdat.io s1 = Sdat.io s ∧
    (∀ l' o', Sdat.heap s !! l' = Some o' → l' ≠ l → Sdat.heap s1 !! l' = Some o') ∧
    (∀ o', Sdat.heap s !! l = Some o' → Search.same_but_isnap o' o).
Proof.
  intros Hreach Hn Hk.
  pose proof (SdatFacts.reachable_inv _ Hreach) as Hinv.
  pose proof (Sdat.inv_index _ Hinv) as Hwf.
  destruct (SdatMore.Snaps_bind_spec s n (PyInt k) Hinv Hn ltac:(eauto))
    as (ix1 & s1 & Hins & Hbind & Hix & Hio & _ & Hinv1 & Hst & Hobj & Hheap).
  destruct (Hobj k eq_refl) as (l & o & Hl & Ho & Hc & Hist & Hisn).
  exists l, o, s1. split_and!; try done.
  - rewrite Hix. case_bool_decide as Hin.
    + rewrite IndexesFacts.insert_known in Hins by done. congruence.
    + destruct (IndexesFacts.insert_fresh _ _ (PyInt k) Hwf Hn Hin)
        as (ix' & Hins' & _ & Hget & _).
      congruence.
  - intros m Hm Hr. rewrite Hix.
    by apply (IndexesMore.insert_other _ _ _ _ m Hwf Hins).
  - intros l' o' Ho' Hne. destruct (Hheap l' o' Ho') as (o2 & Ho2 & Hsame & _ & Hfr).
    rewrite Ho2. f_equal. apply Hfr. intros [Hc' Hi'].
    destruct Hsame as (Hc2 & Hi2 & _). apply Hne.
    eapply (SdatFacts.inv_unique s1); [done|exact Ho2|exact Ho|congruence..].
  - intros o' Ho'. destruct (Hheap l o' Ho') as (o2 & Ho2 & Hsame & _).
    by assert (o2 = o) as -> by congruence.
Qed.

(** X11. The getter of [isnap] on a step whose snapshot number is not
    yet determined, in a state whose index is tidy, with at least one
    kind to scan and a parsing service that reports no negative step
    number. It returns, with [None] or with a snapshot number [n]
    between 0 and 99999. In the second case [snaps[n]] is that very
    step, at no cost, and every snapshot before [n] is recorded in the
    index as absent or as belonging to an earlier step. What it
    returned is what the getter returns from then on, without
    searching again. The search asks the parsing service for step
    numbers only, at most 100000 times per kind scanned, and touches
    no field cache. *)
Theorem forward_search_resolves `{Env} (s : Sdat.StagyyData) (l : nat)
    (o : Sdat.Step_t) :
  Sdat.reachable s → Search.tidy s → Sdat.scan ≠ [] → Search.steps_from_zero →
  Sdat.heap s !! l = Some o → Sdat.cls o = Sdat._Step →
  Sdat._isnap o = UNDETERMINED →
  ∃ k0 v s1,
    Sdat.istep o = PyInt k0 ∧
    Sdat.getattr_isnap l s = (Ok v, s1) ∧
    (v = PyNone ∨
     ∃ n, v = PyInt n ∧ 0 ≤ n ≤ 99999 ∧
          Sdat.Snaps___getitem__ (PyInt n) s1 = (Ok (Sdat.ObjStep l), s1) ∧
          ∀ m, 0 ≤ m < n →
               ∃ w, Indexes.get_istep (Sdat.snaps_isteps s1) m = Ok w ∧
                    Search.before k0 w) ∧
    Sdat.getattr_isnap l s1 = (Ok v, s1) ∧
    Search.tidy s1 ∧
    (∃ probes,
       Sdat.io s1 = probes ++ Sdat.io s ∧
       Forall (fun c => c.2 = Sdat.OnlyIstep) probes ∧
       Z.of_nat (length probes) ≤ 100000 * Z.of_nat (length Sdat.scan)) ∧
    (∀ l' o', Sdat.heap s !! l' = Some o' →
       ∃ o2, Sdat.heap s1 !! l' = Some o2 ∧ Sdat.fields o2 = Sdat.fields o').
Proof.
  intros Hreach Ht Hscan Hpos Ho Hc Hund.
  pose proof (SdatFacts.reachable_inv _ Hreach) as Hinv.
  destruct (SdatMore.Step_isnap_spec s l o Hinv Ht Hscan Hpos Ho Hc Hund)
    as (k0 & v & s1 & o1 & Hist & Hk0 & Hrun & Hinv1 & Ht1 & Ho1 & Hsame & Hv & Hcase &
        Hst & Hio).
  pose proof (SdatFacts.getattr_isnap_keeps l s) as [_ [Hfld _]].
  rewrite Hrun in Hfld. simpl in Hfld.
  destruct Hsame as (Hc1 & Hi1 & _).
  exists k0, v, s1. split_and!; try done.
  - destruct Hcase as [->|(n & -> & Hn & Hidx & Hbefore)]; [by left|].
    right. exists n. split_and!; try done; try lia.
    apply (SdatMore.Snaps___getitem___known s1 n k0 l); [done|]. by apply Hst.
  - rewrite <- Hv. apply SdatMore.getattr_isnap_resolved; [done|congruence|].
    rewrite Hv. by destruct Hcase as [->|(n & -> & _)].
Qed.

(** X12. Two ways [fields[name]] fails on a step that has no such
    field cached. A name the catalogue does not know raises
    [ValueError] at once: no snapshot is searched for, no file is
    asked for, nothing changes. A name whose file the parsing service
    cannot give raises [TypeError], after the snapshot number has been
    resolved and one call to the parsing service logged; the cache and
    the header of the step are as they were. *)
Theorem field_access_failures `{Env} (s : Sdat.StagyyData) (l : nat)
    (o : Sdat.Step_t) (name : string) (depth : nat) :
  Sdat.heap s !! l = Some o → Sdat.cls o = Sdat._Step →
  Sdat.f_items (Sdat.fields o) !! name = None →
  (FIELD_VAR_LIST !! name = None →
   Sdat.step_fields_getitem (S depth) l name s
   = (Raise (ValueError ("Unknown field variable: '" +:+ name +:+ "'")), s)) ∧
  (∀ par v s1 file,
     FIELD_VAR_LIST !! name = Some par →
     Sdat.getattr_isnap l s = (Ok v, s1) → Sdat.filename par v = Ok file →
     stagyyparsers_fields file = None →
     ∃ s2 o1,
       Sdat.step_fields_getitem (S depth) l name s = (Raise TypeError, s2) ∧
       Sdat.io s2 = (file, Sdat.Full) :: Sdat.io s1 ∧
       Sdat.heap s2 = Sdat.heap s1 ∧
       Sdat.heap s2 !! l = Some o1 ∧ Sdat.fields o1 = Sdat.fields o).
Proof.
  intros Ho Hc Hmiss. rewrite (SdatFacts.step_fields_getitem_Step _ _ _ _ _ Ho Hc).
  split.
  - intros Hpar. by apply (SdatMore.Fields___getitem___unknown depth s l o).
  - intros par v s1 file Hpar Hisnap Hfile Hparse.
    pose proof (SdatFacts.getattr_isnap_keeps l s) as [_ [Hfld _]].
    rewrite Hisnap in Hfld. simpl in Hfld.
    destruct (Hfld _ _ Ho) as (o1 & Ho1 & Hf1).
    eexists _, o1. split.
    + by apply (SdatMore.Fields___getitem___no_file depth s l o name par v s1 file).
    + by split_and!.
Qed.

(** X13. A field of a record that is not one of the two bundled kinds
    ("vp", "sx"): one call to the parsing service; the first array of
    the record is returned and cached under the name asked for;
    nothing else enters the cache, whatever else the record holds; the
    header of the record is kept; and the field is served from the
    cache from then on. *)
Theorem single_field_record `{Env} (s : Sdat.StagyyData) (l : nat) (o : Sdat.Step_t)
    (name par : string) (depth : nat) (v : pyval) (s1 : Sdat.StagyyData)
    (file : string) (hdr : gmap string Geometry.hval) (a : ndarray)
    (arrs : list ndarray) :
  Sdat.heap s !! l = Some o → Sdat.cls o = Sdat._Step →
  Sdat.f_items (Sdat.fields o) !! name = None →
  FIELD_VAR_LIST !! name = Some par → par ≠ "vp" → par ≠ "sx" →
  Sdat.getattr_isnap l s = (Ok v, s1) → Sdat.filename par v = Ok file →
  stagyyparsers_fields file = Some (hdr, a :: arrs) →
  ∃ s2 o2,
    Sdat.step_fields_getitem (S depth) l name s = (Ok a, s2) ∧
    Sdat.io s2 = (file, Sdat.Full) :: Sdat.io s1 ∧
    Sdat.heap s2 !! l = Some o2 ∧
    Sdat.f_items (Sdat.fields o2) = <[name := a]> (Sdat.f_items (Sdat.fields o)) ∧
    Sdat.f_header (Sdat.fields o2) = Sdat.HeaderOf hdr ∧
    ∀ d, Sdat.step_fields_getitem d l name s2 = (Ok a, s2).
Proof.
  intros Ho Hc Hmiss Hpar Hvp Hsx Hisnap Hfile Hparse.
  rewrite (SdatFacts.step_fields_getitem_Step _ _ _ _ _ Ho Hc).
  destruct (SdatMore.Fields___getitem___single depth s l o name par v s1 file hdr a arrs
              Ho Hmiss Hpar Hvp Hsx Hisnap Hfile Hparse) as (o1 & Ho1 & ->).
  pose proof (SdatFacts.getattr_isnap_keeps l s) as [[_ (_ & Hobj & _)] _].
  rewrite Hisnap in Hobj. simpl in Hobj.
  destruct (Hobj _ _ Ho) as (o1' & Ho1' & Hc1 & _).
  assert (o1' = o1) as -> by congruence.
  eexists _, _. split; [done|]. cbn [Sdat.io Sdat.heap].
  split; [done|]. split.
  { apply list_lookup_insert_eq. by eapply lookup_lt_Some. }
  cbn [Sdat.fields Sdat.f_items Sdat.f_header]. split; [done|]. split; [done|].
  intros d.
  rewrite (SdatFacts.step_fields_getitem_Step d _ l
             (Sdat.mk_step (Sdat.cls o1) (Sdat.istep o1)
                (Sdat.mk_fields (<[name := a]> (Sdat.f_items (Sdat.fields o)))
                                (Sdat.HeaderOf hdr))
                (Sdat._isnap o1) (Sdat._irsnap o1) (Sdat._itsnap o1)));
    cbn [Sdat.heap Sdat.cls]; [| |congruence].
  - eapply SdatFacts.Fields___getitem___hit.
    + cbn [Sdat.heap]. apply list_lookup_insert_eq. by eapply lookup_lt_Some.
    + cbn [Sdat.fields Sdat.f_items]. by rewrite lookup_insert_eq.
  - apply list_lookup_insert_eq. by eapply lookup_lt_Some.
Qed.

(** X14. A record too short for the field asked of it. When the
    record the parsing service returns holds no array at the position
    of [name] among the names of its kind, or [name] is not among
    them, [__missing__] stores what there is and indexes again, and
    again: [fields[name]] never returns. With room for [depth] nested
    calls it ends in [RecursionError], having parsed the file [depth]
    times. *)
Theorem short_record_exhausts_recursion `{Env} (s : Sdat.StagyyData) (l : nat)
    (o : Sdat.Step_t) (name par : string) (depth : nat) (file : string)
    (hdr : gmap string Geometry.hval) (arrs : list ndarray) :
  Sdat.heap s !! l = Some o → Sdat.cls o = Sdat._Step →
  Sdat._isnap o ≠ UNDETERMINED →
  Sdat.f_items (Sdat.fields o) !! name = None →
  FIELD_VAR_LIST !! name = Some par →
  Sdat.filename par (Sdat._isnap o) = Ok file →
  stagyyparsers_fields file = Some (hdr, arrs) →
  (∀ i, Sdat.fld_names par name !! i = Some name → (length arrs ≤ i)%nat) →
  ∃ s',
    Sdat.step_fields_getitem depth l name s = (Raise RecursionError, s') ∧
    Sdat.io s' = replicate depth (file, Sdat.Full) ++ Sdat.io s ∧
    Sdat.count_full (Sdat.io s') = (depth + Sdat.count_full (Sdat.io s))%nat.
Proof.
  intros Ho Hc Hres Hmiss Hpar Hfile Hparse Hshort.
  rewrite (SdatFacts.step_fields_getitem_Step _ _ _ _ _ Ho Hc).
  destruct (SdatMore.Fields___getitem___short depth s l o name par file hdr arrs)
    as (s' & Hrun & Hio & _); try done.
  exists s'. split; [done|]. split; [done|]. rewrite Hio.
  clear. induction depth as [|depth IH]; [done|]. simpl. by rewrite IH.
Qed.

(** ** These properties on the small dataset *)

Section MoreSampleRuns.
#[local] Existing Instance Sample.numpy.
#[local] Existing Instance SampleMore.env.

Lemma sample_steps_from_zero : Search.steps_from_zero.
Proof.
  intros f k. unfold stagyyparsers_fields_only_istep. simpl.
  repeat case_bool_decide; intros [= <-]; lia.
Qed.

Lemma sample_scan : Sdat.scan ≠ [].
Proof. vm_compute. discriminate. Qed.

Lemma snapshot_request_resolves_witness :
  ∃ l i s1,
    Sdat.Snaps___getitem__ (PyInt 2) Sdat.StagyyData___init__
    = (Ok (Sdat.ObjStep l), s1) ∧
    Sdat.getattr_istep (Sdat.ObjStep l) s1 = (Ok i, s1) ∧
    Indexes.get_istep (Sdat.snaps_isteps s1) 2 = Ok i.
Proof.
  destruct (snapshot_request_resolves Sdat.StagyyData___init__ 2
              Sdat.reachable_init SdatMore.tidy_init ltac:(lia)
              sample_scan sample_steps_from_zero)
    as (l & i & s1 & H1 & H2 & H3 & _).
  exists l, i, s1. split; [exact H1|]. split; [exact H2|exact H3].
Defined.

Lemma bind_first_snapshot_last_step_witness :
  ∃ l o s1,
    Sdat.Snaps_bind 7 (PyInt 3) Sdat.StagyyData___init__ = (Ok tt, s1) ∧
    Sdat.steps s1 !! 3 = Some l ∧ Sdat.heap s1 !! l = Some o ∧
    Sdat._isnap o = PyInt 7.
Proof.
  destruct (bind_first_snapshot_last_step Sdat.StagyyData___init__ 7 3
              Sdat.reachable_init ltac:(lia) ltac:(lia))
    as (l & o & s1 & H1 & H2 & H3 & _ & _ & H4 & _).
  exists l, o, s1. split; [exact H1|]. split; [exact H2|]. split; [exact H3|exact H4].
Defined.

Lemma forward_search_resolves_witness :
  let s := Sdat.exec (Sdat.GetStep (PyInt 30)) Sdat.StagyyData___init__ in
  ∃ k0 v s1,
    Sdat.getattr_isnap 0 s = (Ok v, s1) ∧
    (v = PyNone ∨
     ∃ n, v = PyInt n ∧ 0 ≤ n ≤ 99999 ∧
          Sdat.Snaps___getitem__ (PyInt n) s1 = (Ok (Sdat.ObjStep 0), s1) ∧
          ∀ m, 0 ≤ m < n →
               ∃ w, Indexes.get_istep (Sdat.snaps_isteps s1) m = Ok w ∧
                    Search.before k0 w) ∧
    Sdat.getattr_isnap 0 s1 = (Ok v, s1).
Proof.
  intros s.
  destruct (forward_search_resolves s 0 (Sdat.fresh_step Sdat._Step (PyInt 30)))
    as (k0 & v & s1 & _ & H1 & H2 & H3 & _).
  - apply Sdat.reachable_exec, Sdat.reachable_init.
  - apply (SdatMore.tidy_same Sdat.StagyyData___init__); [reflexivity|].
    apply SdatMore.tidy_init.
  - apply sample_scan.
  - apply sample_steps_from_zero.
  - reflexivity.
  - reflexivity.
  - reflexivity.
  - exists k0, v, s1. split; [exact H1|]. split; [exact H2|exact H3].
Defined.

Lemma field_access_failures_witness :
  (let s := Sdat.exec (Sdat.GetStep (PyInt 30)) Sdat.StagyyData___init__ in
   Sdat.step_fields_getitem 1 0 "zz" s
   = (Raise (ValueError ("Unknown field variable: '" +:+ "zz" +:+ "'")), s)) ∧
  (let s := snd (Sdat.Snaps___getitem__ (PyInt 1) Sdat.StagyyData___init__) in
   ∃ s2,
     Sdat.step_fields_getitem 1 0 "t" s = (Raise TypeError, s2) ∧
     Sdat.io s2 = ("out/run_t00001", Sdat.Full) :: Sdat.io s).
Proof.
  split.
  - intros s.
    apply (field_access_failures s 0 (Sdat.fresh_step Sdat._Step (PyInt 30)) "zz" 0);
      reflexivity.
  - intros s.
    destruct (field_access_failures s 0
                (Sdat.mk_step Sdat._Step (PyInt 10)
                   (Sdat.mk_fields ∅ Sdat.HeaderUndetermined)
                   (PyInt 1) UNDETERMINED UNDETERMINED)
                "t" 0) as [_ Hfile]; [reflexivity..|].
    destruct (Hfile "t" (PyInt 1) s "out/run_t00001")
      as (s2 & o1 & Hget & Hio & _); [reflexivity..|].
    exists s2. split; [exact Hget|exact Hio].
Defined.

Lemma single_field_record_witness :
  let s := snd (Sdat.Snaps___getitem__ (PyInt 2) Sdat.StagyyData___init__) in
  ∃ s2 o2,
    Sdat.step_fields_getitem 1 0 "t" s = (Ok [(7 # 1)%Q], s2) ∧
    Sdat.heap s2 !! 0%nat = Some o2 ∧
    Sdat.f_items (Sdat.fields o2) = <["t" := [(7 # 1)%Q]]> ∅.
Proof.
  intros s.
  destruct (single_field_record s 0
              (Sdat.mk_step Sdat._Step (PyInt 30)
                 (Sdat.mk_fields ∅ Sdat.HeaderUndetermined)
                 (PyInt 2) UNDETERMINED UNDETERMINED)
              "t" "t" 0 (PyInt 2) s "out/run_t00002"
              (Sample.header (Geometry.HNum (-1 # 1)%Q) [64; 1; 32])
              [(7 # 1)%Q] [[(8 # 1)%Q]])
    as (s2 & o2 & H1 & _ & H2 & H3 & _);
    [reflexivity|reflexivity|reflexivity|reflexivity|discriminate|discriminate
    |reflexivity|reflexivity|reflexivity|].
  exists s2, o2. split; [exact H1|]. split; [exact H2|exact H3].
Defined.

Lemma short_record_exhausts_recursion_witness :
  let s := snd (Sdat.Snaps___getitem__ (PyInt 2) Sdat.StagyyData___init__) in
  ∃ s',
    Sdat.step_fields_getitem 5 0 "c" s = (Raise RecursionError, s') ∧
    Sdat.count_full (Sdat.io s') = (5 + Sdat.count_full (Sdat.io s))%nat.
Proof.
  intros s.
  destruct (short_record_exhausts_recursion s 0
              (Sdat.mk_step Sdat._Step (PyInt 30)
                 (Sdat.mk_fields ∅ Sdat.HeaderUndetermined)
                 (PyInt 2) UNDETERMINED UNDETERMINED)
              "c" "c" 5 "out/run_c00002"
              (Sample.header (Geometry.HNum (-1 # 1)%Q) [64; 1; 32]) [])
    as (s' & H1 & _ & H2);
    [reflexivity|reflexivity|discriminate|reflexivity|reflexivity|reflexivity
    |reflexivity| |].
  - intros i _. simpl. lia.
  - exists s'. split; [exact H1|exact H2].
Defined.

End MoreSampleRuns.
